(** * drupal-to-static-html: crawl-and-export pipeline

    A shallow embedding of the crawler ([crawler/config.js],
    [crawler/crawler.js]), the snapshot file manager
    ([crawler/fileManager.js]), the markup post-processor
    ([processor/htmlUtils.js], [processor/postProcessor.js]) and the asset
    loop of [modes/crawl.js], followed by the properties of the
    specification stated and settled against that embedding.

    Conventions.
    - A JavaScript string is a [string]; its characters are code units
      below 256 (HTTP header values and URL paths are of that kind).
    - A JavaScript number that the code only uses as an integer is a [Z];
      a value that may be [NaN] or [undefined] is a [JSVal].
    - A JavaScript object used as a bag of properties is a
      [gmap string JSVal]; a [Set] is a duplicate-free list in insertion
      order; a [Map] is a [gmap].
    - What the program takes from its libraries or from the outside world
      (the WHATWG URL parser, cheerio's selector engine, MD5, the network)
      is a [Variable] of the section that uses it.
    - Logging through [console] is not modelled; the effects that the
      specification talks about (HTTP GETs, sleeps, file writes) are
      recorded in explicit logs. *)

From Stdlib Require Import String Ascii ZArith Lia.
From stdpp Require Import gmap strings list fin_maps pretty.

Set Warnings "-register-all".

(** Let [simpl] and [cbn] compute the concatenation of strings. *)
#[local] Arguments String.append !_ _ / : simpl nomatch.

#[local] Open Scope string_scope.
#[local] Open Scope Z_scope.

(* ===================================================================== *)
(** ** JavaScript strings *)
(* ===================================================================== *)

Module JS.

(** Values that a property read can produce. [JNum None] is [NaN]. *)
Inductive JSVal : Type :=
  | JUndefined
  | JStr (s : string)
  | JNum (n : option Z)
  | JArr (l : list string).

Definition code (c : ascii) : nat := nat_of_ascii c.

Definition between (lo hi : nat) (c : ascii) : bool :=
  (Nat.leb lo (code c)) && (Nat.leb (code c) hi).

(** [String.prototype.toLowerCase] on code units below 256: A-Z and the
    Latin-1 capitals (all of 192..222 but the multiplication sign). *)
Definition lowerChar (c : ascii) : ascii :=
  if between 65 90 c || (between 192 222 c && negb (Nat.eqb (code c) 215))
  then ascii_of_nat (code c + 32) else c.

Fixpoint toLowerCase (s : string) : string :=
  match s with
  | EmptyString => EmptyString
  | String c s' => String (lowerChar c) (toLowerCase s')
  end.

(** White space as [trim] sees it, below 256. *)
Definition isSpace (c : ascii) : bool :=
  between 9 13 c || Nat.eqb (code c) 32 || Nat.eqb (code c) 160.

Fixpoint trimStart (s : string) : string :=
  match s with
  | EmptyString => EmptyString
  | String c s' => if isSpace c then trimStart s' else s
  end.

Definition trimEnd (s : string) : string :=
  String.rev (trimStart (String.rev s)).

Definition trim (s : string) : string := trimEnd (trimStart s).

Definition startsWith (p s : string) : bool := String.prefix p s.

Definition endsWith (p s : string) : bool :=
  String.prefix (String.rev p) (String.rev s).

(** [s.includes(p)]: [p] occurs in [s] as a contiguous substring. *)
Fixpoint includes (p s : string) : bool :=
  String.prefix p s ||
  match s with
  | EmptyString => false
  | String _ s' => includes p s'
  end.

(** [s.replace(/pat/g, rep)] for a pattern that is a literal, non-empty
    string: the occurrences are found from left to right and do not
    overlap.  [skip] counts the characters of a match still to drop. *)
Fixpoint replaceAll_from (skip : nat) (pat rep s : string) : string :=
  match s with
  | EmptyString => EmptyString
  | String c s' =>
      match skip with
      | S k => replaceAll_from k pat rep s'
      | O =>
          if String.prefix pat s
          then rep ++ replaceAll_from (String.length pat - 1) pat rep s'
          else String c (replaceAll_from O pat rep s')
      end
  end.

Definition replaceAll (pat rep s : string) : string :=
  replaceAll_from O pat rep s.

(** [s.split(c)[0]]: what precedes the first [c]. *)
Fixpoint beforeChar (c : ascii) (s : string) : string :=
  match s with
  | EmptyString => EmptyString
  | String a s' => if Ascii.eqb a c then EmptyString
                   else String a (beforeChar c s')
  end.

(** [s.replace(/^\//, '')]. *)
Definition stripLeadingSlash (s : string) : string :=
  match s with
  | String c s' => if Ascii.eqb c "/" then s' else s
  | EmptyString => EmptyString
  end.

(** [s.replace(/\/$/, '')]. *)
Fixpoint stripTrailingSlash (s : string) : string :=
  match s with
  | EmptyString => EmptyString
  | String c EmptyString => if Ascii.eqb c "/" then EmptyString else s
  | String c s' => String c (stripTrailingSlash s')
  end.

(** [s.replace(/^www\./, '')]. *)
Definition stripWww (s : string) : string :=
  if String.prefix "www." s
  then String.substring 4 (String.length s - 4) s else s.

(** [s.substring(1)]. *)
Definition substring1 (s : string) : string :=
  match s with
  | EmptyString => EmptyString
  | String _ s' => s'
  end.

(** Truthiness of a string: only the empty string is falsy. *)
Definition truthy (s : string) : bool := negb (String.eqb s "").

(** [a || b] on strings. *)
Definition orElse (a b : string) : string := if truthy a then a else b.

(** The regular expression class [\w]. *)
Definition isWordChar (c : ascii) : bool :=
  between 48 57 c || between 65 90 c || between 97 122 c
  || Nat.eqb (code c) 95.

(** [/\bW\b/.test(s)] for a literal [W] that begins and ends with a word
    character: some occurrence of [W] is neither preceded nor followed by
    a word character.  [prev] tells whether the character before the
    current position is a word character. *)
Definition boundaryAfter (w s : string) : bool :=
  match String.substring (String.length w) 1 s with
  | String c _ => negb (isWordChar c)
  | EmptyString => true
  end.

Fixpoint wordMatch_from (prev : bool) (w s : string) : bool :=
  (negb prev && String.prefix w s && boundaryAfter w s) ||
  match s with
  | EmptyString => false
  | String c s' => wordMatch_from (isWordChar c) w s'
  end.

Definition wordMatch (w s : string) : bool := wordMatch_from false w s.

End JS.

(* ===================================================================== *)
(** ** Node's [path] module (POSIX flavour) *)
(* ===================================================================== *)

Module Path.

Fixpoint split_on (c : ascii) (s : string) : list string :=
  match s with
  | EmptyString => [EmptyString]
  | String a s' =>
      if Ascii.eqb a c then EmptyString :: split_on c s'
      else match split_on c s' with
           | [] => [String a EmptyString]
           | w :: ws => String a w :: ws
           end
  end.

Fixpoint join_with (sep : string) (l : list string) : string :=
  match l with
  | [] => EmptyString
  | [x] => x
  | x :: l' => x ++ sep ++ join_with sep l'
  end.

(** One segment of [normalizeString]; the segments kept so far are a
    stack, most recent first.  Empty segments and ["."] are dropped,
    [".."] pops a segment, or is kept when nothing can be popped and the
    path is relative. *)
Definition push_segment (allowAboveRoot : bool)
    (stack : list string) (seg : string) : list string :=
  if String.eqb seg "" || String.eqb seg "." then stack
  else if String.eqb seg ".." then
    match stack with
    | top :: rest =>
        if String.eqb top ".."
        then (if allowAboveRoot then ".." :: stack else stack)
        else rest
    | [] => if allowAboveRoot then [".."] else []
    end
  else seg :: stack.

Definition normalizeSegments (allowAboveRoot : bool) (p : string)
  : list string :=
  rev (fold_left (push_segment allowAboveRoot) (split_on "/" p) []).

Definition normalizeString (allowAboveRoot : bool) (p : string) : string :=
  join_with "/" (normalizeSegments allowAboveRoot p).

Definition isAbsolute (p : string) : bool := JS.startsWith "/" p.

Definition normalize (p : string) : string :=
  if String.eqb p "" then "."
  else
    let abs := isAbsolute p in
    let trailing := JS.endsWith "/" p in
    let r := normalizeString (negb abs) p in
    if String.eqb r "" then
      if abs then "/" else if trailing then "./" else "."
    else
      (if abs then "/" else "") ++ r ++ (if trailing then "/" else "").

(** [path.resolve(...args)]: the arguments are taken from the right until
    an absolute one is met, the working directory closing the list. *)
Definition resolve_step (acc : string * bool) (p : string) : string * bool :=
  let '(resolved, isAbs) := acc in
  if isAbs then acc
  else if String.eqb p "" then acc
  else (p ++ "/" ++ resolved, isAbsolute p).

Definition resolve_collect (cwd : string) (args : list string)
  : string * bool :=
  fold_left resolve_step (rev args ++ [cwd]) (EmptyString, false).

Definition resolve_segments (cwd : string) (args : list string)
  : list string :=
  let '(resolved, isAbs) := resolve_collect cwd args in
  normalizeSegments (negb isAbs) resolved.

Definition resolve (cwd : string) (args : list string) : string :=
  let '(_, isAbs) := resolve_collect cwd args in
  let norm := join_with "/" (resolve_segments cwd args) in
  if isAbs then "/" ++ norm
  else if String.eqb norm "" then "." else norm.

(** [path.join(...args)]. *)
Definition join (args : list string) : string :=
  let joined := join_with "/" (filter (fun s => s ≠ EmptyString) args) in
  if String.eqb joined "" then "." else normalize joined.

Definition sep : string := "/".

(** [path.basename(p)]: the last non-empty segment, trailing slashes
    ignored; empty when there is none. *)
Definition basename (p : string) : string :=
  List.last (filter (fun s => s ≠ EmptyString) (split_on "/" p)) EmptyString.

(** Index of the last ["."] of a string, if any. *)
Fixpoint lastDot_from (i : nat) (s : string) : option nat :=
  match s with
  | EmptyString => None
  | String c s' =>
      match lastDot_from (S i) s' with
      | Some k => Some k
      | None => if Ascii.eqb c "." then Some i else None
      end
  end.

(** [path.extname(p)]: from the last dot of the basename to its end;
    empty when the basename has no dot, when its only dot is its first
    character, or when the basename is [".."]. *)
Definition extname (p : string) : string :=
  let b := basename p in
  match lastDot_from O b with
  | None => EmptyString
  | Some O => EmptyString
  | Some k =>
      if String.eqb b ".." then EmptyString
      else String.substring k (String.length b - k) b
  end.

End Path.

(* ===================================================================== *)
(** ** Results of fallible code, URLs, markup *)
(* ===================================================================== *)

(** A call either returns or throws an [Error] with a message. *)
Inductive Result (A : Type) : Type :=
  | Ok (a : A)
  | Throw (message : string).
Arguments Ok {A} a.
Arguments Throw {A} message.

Module Url.

(** The fields of a WHATWG [URL] object that the program reads. *)
Record URL : Type := mkURL {
  hostname : string;
  pathname : string;
  search : string;
  hash : string;
  href : string
}.

(** The part of a string before the first of some characters, and the
    rest. *)
Fixpoint untilAny (stops : list ascii) (s : string) : string * string :=
  match s with
  | EmptyString => (EmptyString, EmptyString)
  | String c s' =>
      if bool_decide (c ∈ stops) then (EmptyString, s)
      else let '(a, b) := untilAny stops s' in (String c a, b)
  end.

Definition afterScheme (s : string) : option (string * string) :=
  if String.prefix "https://" s
  then Some ("https://", String.substring 8 (String.length s - 8) s)
  else if String.prefix "http://" s
  then Some ("http://", String.substring 7 (String.length s - 7) s)
  else None.

(** A stand-in for [new URL(s)] on plain [http(s)://host[:port][/path]
    [?query][#fragment]] strings, used to run the program on concrete
    inputs.  It performs no percent-encoding and removes no dot segments;
    the theorems below hold for every parser. *)
Definition simpleParse (s : string) : option URL :=
  match afterScheme s with
  | None => None
  | Some (scheme, rest) =>
      let '(authority, r1) := untilAny ["/"; "?"; "#"]%char rest in
      let '(host, portPart) := untilAny [":"]%char authority in
      let '(path, r2) := untilAny ["?"; "#"]%char r1 in
      let '(query, frag) := untilAny ["#"]%char r2 in
      if String.eqb host "" then None
      else
        let path' := if String.eqb path "" then "/" else path in
        let query' := if String.eqb query "?" then "" else query in
        let frag' := if String.eqb frag "#" then "" else frag in
        Some {| hostname := JS.toLowerCase host;
                pathname := path';
                search := query';
                hash := frag';
                href := scheme ++ JS.toLowerCase host ++ portPart
                        ++ path' ++ query' ++ frag' |}
  end.

End Url.

Module Dom.

(** A parsed document: the tree that cheerio hands to the program. *)
Inductive Node : Type :=
  | Element (tag : string) (attrs : list (string * string))
            (children : list Node)
  | Text (data : string)
  | Comment (data : string).

(** [$(elem).attr(name)]; [None] is [undefined]. *)
Fixpoint lookupAttr (name : string) (attrs : list (string * string))
  : option string :=
  match attrs with
  | [] => None
  | (k, v) :: rest => if String.eqb k name then Some v
                      else lookupAttr name rest
  end.

Definition attr (name : string) (n : Node) : option string :=
  match n with
  | Element _ attrs _ => lookupAttr name attrs
  | _ => None
  end.

(** [$(elem).attr(name) || ''] and the like. *)
Definition attrOr (name : string) (n : Node) : string :=
  match attr name n with
  | Some v => v
  | None => EmptyString
  end.

(** [$(elem).text()]: the text of all descendants, in document order. *)
Fixpoint text (n : Node) : string :=
  match n with
  | Element _ _ children =>
      (fix texts (l : list Node) : string :=
         match l with
         | [] => EmptyString
         | c :: l' => text c ++ texts l'
         end) children
  | Text data => data
  | Comment _ => EmptyString
  end.

Definition texts (l : list Node) : string :=
  (fix texts (l : list Node) : string :=
     match l with
     | [] => EmptyString
     | c :: l' => text c ++ texts l'
     end) l.

Definition isTag (t : string) (n : Node) : bool :=
  match n with
  | Element tag _ _ => String.eqb tag t
  | _ => false
  end.

End Dom.

(* ===================================================================== *)
(** ** crawler/config.js *)
(* ===================================================================== *)

Module Config.
Import JS.

(** [env.NAME || fallback]. *)
Definition envOr (env : gmap string string) (name fallback : string)
  : string :=
  match env !! name with
  | Some v => orElse v fallback
  | None => fallback
  end.

Definition isDigit (c : ascii) : bool := between 48 57 c.

Fixpoint parseDigits (acc : option Z) (s : string) : option Z :=
  match s with
  | EmptyString => acc
  | String c s' =>
      if isDigit c
      then parseDigits
             (Some (10 * default 0 acc + Z.of_nat (code c - 48))) s'
      else acc
  end.

(** [parseInt(s, 10)]: leading white space, an optional sign, then the
    longest run of digits; [None] is [NaN]. *)
Definition parseInt (s : string) : option Z :=
  match trimStart s with
  | String c r =>
      if Ascii.eqb c "-" then Z.opp <$> parseDigits None r
      else if Ascii.eqb c "+" then parseDigits None r
      else parseDigits None (String c r)
  | EmptyString => None
  end.

Definition userAgents : list string :=
  [ "Mozilla/5.0 (Windows NT 10.0; Win64; x64) AppleWebKit/537.36 (KHTML, like Gecko) Chrome/120.0.0.0 Safari/537.36";
    "Mozilla/5.0 (Macintosh; Intel Mac OS X 10_15_7) AppleWebKit/537.36 (KHTML, like Gecko) Chrome/120.0.0.0 Safari/537.36";
    "Mozilla/5.0 (X11; Linux x86_64) AppleWebKit/537.36 (KHTML, like Gecko) Chrome/120.0.0.0 Safari/537.36" ].

(** The properties that the constructor assigns, in its order. *)
Definition assign (env : gmap string string) : gmap string JSVal :=
  <["userAgents" := JArr userAgents]>
  (<["maxRetries" := JNum (parseInt (envOr env "MAX_RETRIES" "3"))]>
  (<["readTimeout" := JNum (parseInt (envOr env "READ_TIMEOUT" "30000"))]>
  (<["connectTimeout" :=
       JNum (parseInt (envOr env "CONNECT_TIMEOUT" "10000"))]>
  (<["maxPages" := JNum (parseInt (envOr env "MAX_PAGES" "10000"))]>
  (<["maxDepth" := JNum (parseInt (envOr env "MAX_DEPTH" "0"))]>
  (<["crawlDelay" := JNum (parseInt (envOr env "CRAWL_DELAY" "500"))]>
  (<["linkedInProfile" :=
       JStr (envOr env "LINKEDIN_PROFILE" "https://linkedin.com")]>
  (<["siteIp" := JStr (envOr env "SITE_IP" "127.0.0.1")]>
  (<["siteHost" := JStr (envOr env "SITE_HOST" "localhost")]>
   ∅))))))))).

(** Reading a property; an absent one reads as [undefined]. *)
Definition get (cfg : gmap string JSVal) (name : string) : JSVal :=
  default JUndefined (cfg !! name).

(** A numeric property as the comparisons of the crawler see it: [None]
    for [NaN] and for what is not a number (the constructor stores
    nothing but numbers under the names read this way). *)
Definition num (cfg : gmap string JSVal) (name : string) : option Z :=
  match get cfg name with
  | JNum n => n
  | _ => None
  end.

(** A property spliced into a template string. *)
Definition show (cfg : gmap string JSVal) (name : string) : string :=
  match get cfg name with
  | JStr s => s
  | JNum (Some n) => pretty n
  | JNum None => "NaN"
  | JArr l => Path.join_with "," l
  | JUndefined => "undefined"
  end.

(** [!v]. *)
Definition falsy (v : JSVal) : bool :=
  match v with
  | JUndefined => true
  | JStr s => negb (truthy s)
  | JNum None => true
  | JNum (Some n) => Z.eqb n 0
  | JArr _ => false
  end.

(** [a < b] where either side may be [NaN]. *)
Definition lt (a b : option Z) : bool :=
  match a, b with
  | Some x, Some y => Z.ltb x y
  | _, _ => false
  end.

Definition validate (cfg : gmap string JSVal) : Result unit :=
  if falsy (get cfg "siteHost") then Throw "SITE_HOST must be set"
  else if falsy (get cfg "siteIp") then Throw "SITE_IP must be set"
  else if lt (num cfg "crawlDelay") (Some 0)
  then Throw "CRAWL_DELAY must be >= 0"
  else if lt (num cfg "maxRetries") (Some 0)
  then Throw "MAX_RETRIES must be >= 0"
  else Ok tt.

(** [new CrawlerConfig(env)]. *)
Definition CrawlerConfig (env : gmap string string)
  : Result (gmap string JSVal) :=
  match validate (assign env) with
  | Ok _ => Ok (assign env)
  | Throw m => Throw m
  end.

Definition getSiteUrl (cfg : gmap string JSVal) : string :=
  "https://" ++ show cfg "siteHost".

End Config.

(* ===================================================================== *)
(** ** crawler/crawler.js *)
(* ===================================================================== *)

Module Crawler.
Import JS.
#[local] Open Scope list_scope.

(** [page.status] is a number or the string ['binary-asset']. *)
Inductive Status : Type :=
  | SNum (n : Z)
  | SStr (s : string).

#[global] Instance Status_eq_dec : EqDecision Status.
Proof. solve_decision. Defined.

(** The object that [fetchPage] returns; an absent property is [None]. *)
Record FetchResult : Type := mkFetchResult {
  html : string;
  status : Status;
  error : option string;
  contentType : option string
}.

(** What the HTTP client hands back.  [validateStatus: () => true] makes
    every status a response; only a transport failure (time-out, reset,
    too many redirects) rejects.  The body is the text of the response,
    as it is for the markup that the crawler is after. *)
Record Response : Type := mkResponse {
  resp_status : Z;
  resp_data : string;
  resp_headers : gmap string string
}.

Inductive NetResult : Type :=
  | NetOk (response : Response)
  | NetErr (message : string).

(** The observable effects, oldest first.  [EVisit] marks an execution of
    [this.visitedUrls.add(url)] in the crawl loop. *)
Inductive Event : Type :=
  | EGet (url : string)
  | ESleep (ms : Z)
  | EVisit (url : string).

#[global] Instance Event_eq_dec : EqDecision Event.
Proof. solve_decision. Defined.

Record Page : Type := mkPage {
  page_url : string;
  page_html : string;
  page_status : Status;
  page_depth : Z
}.

Record Failed : Type := mkFailed {
  failed_url : string;
  failed_status : Status;
  failed_error : option string
}.

(** The instance fields of a [Crawler], and the log of its effects. *)
Record State : Type := mkState {
  visitedUrls : list string;
  queuedUrls : list string;
  crawledPages : list Page;
  failedUrls : list Failed;
  assetUrls : list string;
  urlDepthMap : gmap string Z;
  log : list Event
}.

Definition initial : State :=
  {| visitedUrls := []; queuedUrls := []; crawledPages := [];
     failedUrls := []; assetUrls := []; urlDepthMap := ∅; log := [] |}.

(** [Set.prototype.has], [add] and [delete] on insertion-ordered sets. *)
Definition has (x : string) (s : list string) : bool := bool_decide (x ∈ s).

Definition add (x : string) (s : list string) : list string :=
  if has x s then s else s ++ [x].

Definition delete (x : string) (s : list string) : list string :=
  filter (fun y => y ≠ x) s.

Definition set_visitedUrls (v : list string) (st : State) : State :=
  {| visitedUrls := v; queuedUrls := queuedUrls st;
     crawledPages := crawledPages st; failedUrls := failedUrls st;
     assetUrls := assetUrls st; urlDepthMap := urlDepthMap st;
     log := log st |}.

Definition set_queuedUrls (q : list string) (st : State) : State :=
  {| visitedUrls := visitedUrls st; queuedUrls := q;
     crawledPages := crawledPages st; failedUrls := failedUrls st;
     assetUrls := assetUrls st; urlDepthMap := urlDepthMap st;
     log := log st |}.

Definition set_crawledPages (p : list Page) (st : State) : State :=
  {| visitedUrls := visitedUrls st; queuedUrls := queuedUrls st;
     crawledPages := p; failedUrls := failedUrls st;
     assetUrls := assetUrls st; urlDepthMap := urlDepthMap st;
     log := log st |}.

Definition set_failedUrls (f : list Failed) (st : State) : State :=
  {| visitedUrls := visitedUrls st; queuedUrls := queuedUrls st;
     crawledPages := crawledPages st; failedUrls := f;
     assetUrls := assetUrls st; urlDepthMap := urlDepthMap st;
     log := log st |}.

Definition set_assetUrls (a : list string) (st : State) : State :=
  {| visitedUrls := visitedUrls st; queuedUrls := queuedUrls st;
     crawledPages := crawledPages st; failedUrls := failedUrls st;
     assetUrls := a; urlDepthMap := urlDepthMap st;
     log := log st |}.

Definition set_urlDepthMap (m : gmap string Z) (st : State) : State :=
  {| visitedUrls := visitedUrls st; queuedUrls := queuedUrls st;
     crawledPages := crawledPages st; failedUrls := failedUrls st;
     assetUrls := assetUrls st; urlDepthMap := m;
     log := log st |}.

Definition set_log (l : list Event) (st : State) : State :=
  {| visitedUrls := visitedUrls st; queuedUrls := queuedUrls st;
     crawledPages := crawledPages st; failedUrls := failedUrls st;
     assetUrls := assetUrls st; urlDepthMap := urlDepthMap st;
     log := l |}.

Definition emit (e : Event) (st : State) : State :=
  set_log (log st ++ [e]) st.

(** The extensions of [Crawler.BINARY_EXTENSIONS], with the optional
    letters of [docx?], [xlsx?], [pptx?] and [woff2?] spelled out. *)
Definition binaryExtensions : list string :=
  [ "zip"; "gz"; "tar"; "7z"; "rar"; "bz2"; "pdf"; "doc"; "docx"; "xls";
    "xlsx"; "ppt"; "pptx"; "odt"; "ods"; "odp"; "csv"; "mp3"; "mp4"; "wav";
    "ogg"; "webm"; "avi"; "mov"; "mkv"; "flac"; "aac"; "woff"; "woff2";
    "ttf"; "eot"; "otf" ].

(** [.] in a regular expression matches all but the line terminators. *)
Fixpoint noLineBreak (s : string) : bool :=
  match s with
  | EmptyString => true
  | String c s' =>
      negb (Nat.eqb (code c) 10 || Nat.eqb (code c) 13) && noLineBreak s'
  end.

(** The pattern of [BINARY_EXTENSIONS] tried at the start of [s]: a dot,
    one of the extensions in any letter case, then either the end of the
    string or a question mark followed by anything on the same line. *)
Definition extensionHere (s : string) : bool :=
  existsb
    (fun ext =>
       let dotExt := String "." ext in
       String.eqb (toLowerCase s) dotExt
       || (String.prefix (dotExt +:+ "?") (toLowerCase s) && noLineBreak s))
    binaryExtensions.

(** [Crawler.BINARY_EXTENSIONS.test(s)]. *)
Fixpoint isBinaryExtension (s : string) : bool :=
  extensionHere s ||
  match s with
  | EmptyString => false
  | String _ s' => isBinaryExtension s'
  end.

(** [/^(data:|javascript:|mailto:|tel:|sms:)/.test(s)]. *)
Definition isSchemeOnly (s : string) : bool :=
  existsb (fun p => String.prefix p s)
    ["data:"; "javascript:"; "mailto:"; "tel:"; "sms:"].

Section WithEnvironment.

(** [new URL(s)]; [None] when the constructor throws. *)
Variable parseURL : string -> option Url.URL.
(** [new URL(relative, base).href]; [None] when the constructor throws. *)
Variable resolveURL : string -> string -> option string.
(** [$(selector)] on [cheerio.load(html)]: the matches in document
    order. *)
Variable cheerioSelect : string -> string -> list Dom.Node.
(** [this.httpClient.get(url, ...)], given the effects so far. *)
Variable httpGet : list Event -> string -> NetResult.
(** [this.config]. *)
Variable config : gmap string JSVal.

Definition resolveUrl (relativeUrl : option string) (baseUrl : string)
  : string :=
  match relativeUrl with
  | None => EmptyString
  | Some rel =>
      if negb (truthy rel) then EmptyString
      else if startsWith "#" rel then EmptyString
      else if isSchemeOnly rel then EmptyString
      else match resolveURL rel baseUrl with
           | Some h => h
           | None => EmptyString
           end
  end.

(** [isSameDomain].  [this.config.siteHostname.replace(...)] throws a
    [TypeError] unless the property holds a string, and the [catch]
    turns every exception into [false]. *)
Definition isSameDomain (url : string) : bool :=
  match parseURL url with
  | None => false
  | Some parsedUrl =>
      let urlHost := stripWww (Url.hostname parsedUrl) in
      match Config.get config "siteHostname" with
      | JStr siteHostname => String.eqb urlHost (stripWww siteHostname)
      | _ => false
      end
  end.

Definition queueUrl (url : string) (depth : Z) (st : State) : State :=
  if negb (has url (visitedUrls st)) && negb (has url (queuedUrls st))
  then set_urlDepthMap (<[url := depth]> (urlDepthMap st))
         (set_queuedUrls (add url (queuedUrls st)) st)
  else st.

(** [this.urlDepthMap.get(url) || 0]. *)
Definition getDepthForUrl (url : string) (st : State) : Z :=
  default 0 (urlDepthMap st !! url).

(** The callback of [$('a[href]').each]; the accumulator is the pair of
    the sets [urls] and [assets]. *)
Definition visitAnchor (pageUrl : string)
    (acc : list string * list string) (elem : Dom.Node)
  : list string * list string :=
  let '(urls, assets) := acc in
  let absoluteUrl := resolveUrl (Dom.attr "href" elem) pageUrl in
  if negb (isSameDomain absoluteUrl) then acc
  else
    match parseURL absoluteUrl with
    | Some u =>
        if isBinaryExtension (Url.pathname u)
        then (urls, add absoluteUrl assets)
        else (add absoluteUrl urls, assets)
    | None => (add absoluteUrl urls, assets)
    end.

(** [$(elem).attr('src') || $(elem).attr('href')]. *)
Definition srcOrHref (elem : Dom.Node) : option string :=
  match Dom.attr "src" elem with
  | Some s => if truthy s then Some s else Dom.attr "href" elem
  | None => Dom.attr "href" elem
  end.

Definition visitAsset (pageUrl : string)
    (acc : list string * list string) (elem : Dom.Node)
  : list string * list string :=
  let '(urls, assets) := acc in
  let absoluteUrl := resolveUrl (srcOrHref elem) pageUrl in
  if isSameDomain absoluteUrl then (urls, add absoluteUrl assets) else acc.

Definition visitForm (pageUrl : string)
    (acc : list string * list string) (elem : Dom.Node)
  : list string * list string :=
  let '(urls, assets) := acc in
  let absoluteUrl := resolveUrl (Dom.attr "action" elem) pageUrl in
  if isSameDomain absoluteUrl then (add absoluteUrl urls, assets) else acc.

(** [extractUrls]: the pair [(urls, assets)]. *)
Definition extractUrls (html : string) (pageUrl : string)
  : list string * list string :=
  let acc0 := ([], []) in
  let acc1 :=
    fold_left (visitAnchor pageUrl) (cheerioSelect html "a[href]") acc0 in
  let acc2 :=
    fold_left (visitAsset pageUrl)
      (cheerioSelect html
         "img[src], script[src], link[href][rel~=stylesheet]") acc1 in
  fold_left (visitForm pageUrl) (cheerioSelect html "form[action]") acc2.

(** [response.headers[name] || '']. *)
Definition header (name : string) (response : Response) : string :=
  default EmptyString (resp_headers response !! name).

(** The media type that [fetchPage] classifies on. *)
Definition mediaType (response : Response) : string :=
  toLowerCase (trim (beforeChar ";" (header "content-type" response))).

Definition isHtml (response : Response) : bool :=
  let contentType := mediaType response in
  negb (truthy contentType)
  || String.eqb contentType "text/html"
  || String.eqb contentType "application/xhtml+xml".

Definition isAttachment (response : Response) : bool :=
  wordMatch "attachment"
    (toLowerCase (header "content-disposition" response)).

(** The [try] block of [fetchPage] once the GET has resolved. *)
Definition classify (response : Response) : FetchResult :=
  if Z.eqb (resp_status response) 200 && truthy (resp_data response) then
    if negb (isHtml response) || isAttachment response
    then {| html := EmptyString; status := SStr "binary-asset";
            error := None; contentType := Some (mediaType response) |}
    else {| html := resp_data response; status := SNum 200;
            error := None; contentType := None |}
  else {| html := EmptyString; status := SNum (resp_status response);
          error := Some ("HTTP " +:+ pretty (resp_status response));
          contentType := None |}.

(** [fetchPage(url, attempt)].  The recursion of the [catch] block is
    guarded by [attempt < maxRetries]; [budget] bounds its depth and
    [None] means that the bound was too small. *)
Fixpoint fetchPage_within (budget : nat) (url : string) (attempt : Z)
    (l : list Event) : option (FetchResult * list Event) :=
  let l1 := l ++ [EGet url] in
  match httpGet l url with
  | NetOk response => Some (classify response, l1)
  | NetErr message =>
      if Config.lt (Some attempt) (Config.num config "maxRetries") then
        match budget with
        | O => None
        | S budget' =>
            fetchPage_within budget' url (attempt + 1)
              (l1 ++ [ESleep (1000 * (attempt + 1))])
        end
      else Some ({| html := EmptyString; status := SNum 0;
                    error := Some message; contentType := None |}, l1)
  end.

(** The retries that remain at [attempt]. *)
Definition retriesLeft (attempt : Z) : nat :=
  match Config.num config "maxRetries" with
  | Some m => Z.to_nat (m - attempt)
  | None => O
  end.

Definition fetchPage (url : string) (attempt : Z) (l : list Event)
  : option (FetchResult * list Event) :=
  fetchPage_within (retriesLeft attempt) url attempt l.

(** The [forEach] over [newUrls.urls]. *)
Definition enqueueNew (depth : Z) (st : State) (newUrl : string) : State :=
  if negb (has newUrl (visitedUrls st)) && negb (has newUrl (queuedUrls st))
  then queueUrl newUrl (depth + 1) st
  else st.

Definition addAsset (st : State) (asset : string) : State :=
  set_assetUrls (add asset (assetUrls st)) st.

(** What the loop does with the object that [fetchPage] returned. *)
Definition dispatch (url : string) (depth : Z) (page : FetchResult)
    (st : State) : State :=
  if decide (status page = SNum 200) then
    let st1 :=
      set_crawledPages
        (crawledPages st ++
           [ {| page_url := url; page_html := html page;
                page_status := status page; page_depth := depth |} ]) st in
    let newUrls := extractUrls (html page) url in
    let st2 := fold_left (enqueueNew depth) (fst newUrls) st1 in
    fold_left addAsset (snd newUrls) st2
  else if decide (status page = SStr "binary-asset") then
    addAsset st url
  else
    set_failedUrls
      (failedUrls st ++
         [ {| failed_url := url; failed_status := status page;
              failed_error := error page |} ]) st.

(** [a > b] where either side may be [NaN]. *)
Definition gt (a b : option Z) : bool := Config.lt b a.

(** One turn of the [while] loop of [crawl], the queue being non-empty;
    the second component is [processedCount]. *)
Definition iteration (st : State) (processedCount : Z)
  : option (State * Z) :=
  match queuedUrls st with
  | [] => Some (st, processedCount)
  | url :: _ =>
      let st1 := set_queuedUrls (delete url (queuedUrls st)) st in
      let depth := getDepthForUrl url st1 in
      if gt (Config.num config "maxDepth") (Some 0)
         && gt (Some depth) (Config.num config "maxDepth")
      then Some (st1, processedCount)
      else if has url (visitedUrls st1) then Some (st1, processedCount)
      else
        let st2 :=
          emit (EVisit url)
            (set_visitedUrls (add url (visitedUrls st1)) st1) in
        match fetchPage url 0 (log st2) with
        | None => None
        | Some (page, l) =>
            let st3 := dispatch url depth page (set_log l st2) in
            let st4 :=
              match Config.num config "crawlDelay" with
              | Some d => if Z.ltb 0 d then emit (ESleep d) st3 else st3
              | None => st3
              end in
            Some (st4, processedCount + 1)
        end
  end.

(** [while (this.queuedUrls.size > 0 && processedCount < maxPages)];
    [None] when [fuel] turns were not enough. *)
Fixpoint loop (fuel : nat) (st : State) (processedCount : Z)
  : option (State * Z) :=
  match queuedUrls st with
  | [] => Some (st, processedCount)
  | _ :: _ =>
      if Config.lt (Some processedCount) (Config.num config "maxPages")
      then
        match fuel with
        | O => None
        | S fuel' =>
            match iteration st processedCount with
            | Some (st', n') => loop fuel' st' n'
            | None => None
            end
        end
      else Some (st, processedCount)
  end.

(** What [crawl] returns. *)
Record CrawlResult : Type := mkCrawlResult {
  pages : list Page;
  assets : list string;
  failed : list Failed;
  pagesCrawled : nat;
  assetCount : nat;
  failureCount : nat
}.

Definition result (st : State) : CrawlResult :=
  {| pages := crawledPages st; assets := assetUrls st;
     failed := failedUrls st;
     pagesCrawled := length (crawledPages st);
     assetCount := length (assetUrls st);
     failureCount := length (failedUrls st) |}.

(** The state in which the loop of [crawl] starts. *)
Definition seeded : State :=
  queueUrl (Config.getSiteUrl config +:+ "/") 0 initial.

(** [crawl()], with the final state next to the returned object. *)
Definition crawl (fuel : nat) : option (CrawlResult * State) :=
  match loop fuel seeded 0 with
  | Some (st, _) => Some (result st, st)
  | None => None
  end.

End WithEnvironment.

End Crawler.

(* ===================================================================== *)
(** ** crawler/fileManager.js *)
(* ===================================================================== *)

Module FileManager.
Import JS.

(** The two shapes of record kept in [assetMap]: [{relPath, contentHash}]
    from [saveAssetAtPath], [{assetUrl, filePath, contentHash}] from
    [saveAsset]. *)
Inductive AssetRecord : Type :=
  | AtPath (relPath contentHash : string)
  | ByUrl (assetUrl filePath contentHash : string).

#[global] Instance AssetRecord_eq_dec : EqDecision AssetRecord.
Proof. solve_decision. Defined.

(** The instance fields of a [FileManager], the files on disk by full
    path, and the log of the calls to [fs.writeFileSync]. *)
Record State : Type := mkState {
  outputDir : string;
  snapshotDir : option string;
  assetMap : gmap string AssetRecord;
  pageCount : Z;
  assetCount : Z;
  disk : gmap string string;
  writes : list string
}.

(** [new FileManager(outputDir)] over the files already there. *)
Definition create (dir : string) (files : gmap string string) : State :=
  {| outputDir := dir; snapshotDir := None; assetMap := ∅;
     pageCount := 0; assetCount := 0; disk := files; writes := [] |}.

Definition writeFileSync (fullPath data : string) (fm : State) : State :=
  {| outputDir := outputDir fm; snapshotDir := snapshotDir fm;
     assetMap := assetMap fm; pageCount := pageCount fm;
     assetCount := assetCount fm;
     disk := <[fullPath := data]> (disk fm);
     writes := (writes fm ++ [fullPath])%list |}.

Definition recordAsset (contentHash : string) (r : AssetRecord)
    (fm : State) : State :=
  {| outputDir := outputDir fm; snapshotDir := snapshotDir fm;
     assetMap := <[contentHash := r]> (assetMap fm);
     pageCount := pageCount fm;
     assetCount := assetCount fm + 1;
     disk := disk fm; writes := writes fm |}.

Definition countPage (fm : State) : State :=
  {| outputDir := outputDir fm; snapshotDir := snapshotDir fm;
     assetMap := assetMap fm; pageCount := pageCount fm + 1;
     assetCount := assetCount fm;
     disk := disk fm; writes := writes fm |}.

(** [initializeSnapshot()], the time stamp being given. *)
Definition initializeSnapshot (timestamp : string) (fm : State) : State :=
  {| outputDir := outputDir fm;
     snapshotDir := Some (Path.join [outputDir fm; timestamp]);
     assetMap := assetMap fm; pageCount := pageCount fm;
     assetCount := assetCount fm;
     disk := disk fm; writes := writes fm |}.

Definition notInitialized {A : Type} : Result A :=
  Throw "Snapshot not initialized. Call initializeSnapshot() first.".

(** The table of [getExtensionForMimeType], in the order of its keys. *)
Definition mimeMap : list (string * string) :=
  [ ("image/jpeg", ".jpg"); ("image/png", ".png"); ("image/gif", ".gif");
    ("image/svg+xml", ".svg"); ("image/webp", ".webp");
    ("text/css", ".css"); ("text/javascript", ".js");
    ("application/javascript", ".js"); ("application/json", ".json");
    ("text/html", ".html"); ("text/plain", ".txt") ].

Definition getExtensionForMimeType (mimeType : string) : string :=
  match Dom.lookupAttr mimeType mimeMap with
  | Some ext => ext
  | None =>
      match
        List.find (fun e => includes (beforeChar "/" (fst e)) mimeType)
          mimeMap
      with
      | Some e => snd e
      | None => EmptyString
      end
  end.

Definition getAssetDirectory (mimeType url : string) : string :=
  if includes "image" mimeType then "images"
  else if includes "stylesheet" mimeType || endsWith ".css" url then "css"
  else if includes "javascript" mimeType || endsWith ".js" url then "js"
  else "files".

(** The fields of a [Date] that [getTimestamp] reads, in local time;
    [month] is [getMonth()], which counts from 0. *)
Record Date : Type := mkDate {
  fullYear : N;
  month : N;
  date : N;
  hours : N;
  minutes : N;
  seconds : N
}.

(** [String(n).padStart(2, '0')]. *)
Definition pad2 (n : N) : string :=
  let s := pretty n in
  if Nat.ltb (String.length s) 2 then "0" ++ s else s.

(** [getTimestamp()], the clock having been read. *)
Definition getTimestamp (now : Date) : string :=
  pretty (fullYear now) ++ "-" ++ pad2 (month now + 1) ++ "-"
  ++ pad2 (date now) ++ "_" ++ pad2 (hours now) ++ "-"
  ++ pad2 (minutes now) ++ "-" ++ pad2 (seconds now).

(** A character of a pattern: a decimal digit or a given character. *)
Inductive Pat : Type :=
  | PDigit
  | PChar (c : ascii).

(** A string matches a pattern from its first to its last character. *)
Fixpoint matchesPattern (p : list Pat) (s : string) {struct p} : bool :=
  match p, s with
  | [], EmptyString => true
  | PDigit :: p', String c s' => between 48 57 c && matchesPattern p' s'
  | PChar a :: p', String c s' => Ascii.eqb a c && matchesPattern p' s'
  | _, _ => false
  end.

(** The pattern of [listSnapshots]: four digits, then five groups of two
    digits, separated by [-], [-], [_], [-] and [-]. *)
Definition snapshotPattern : list Pat :=
  [ PDigit; PDigit; PDigit; PDigit; PChar "-"; PDigit; PDigit; PChar "-";
    PDigit; PDigit; PChar "_"; PDigit; PDigit; PChar "-"; PDigit; PDigit;
    PChar "-"; PDigit; PDigit ].

Definition isSnapshotName (entry : string) : bool :=
  matchesPattern snapshotPattern entry.

(** The entries of the output directory that [listSnapshots] keeps,
    before it reads their sizes and dates. *)
Definition snapshotEntries (entries : list string) : list string :=
  List.filter isSnapshotName entries.

(** What [getSummary()] returns, the time stamp apart. *)
Record Summary : Type := mkSummary {
  summarySnapshotDir : option string;
  pagesCount : Z;
  assetsCount : Z;
  totalAssets : nat
}.

Definition getSummary (fm : State) : Summary :=
  {| summarySnapshotDir := snapshotDir fm;
     pagesCount := pageCount fm;
     assetsCount := assetCount fm;
     totalAssets := size (assetMap fm) |}.

(** The [contentHash] of a record. *)
Definition recordHash (r : AssetRecord) : string :=
  match r with
  | AtPath _ contentHash => contentHash
  | ByUrl _ _ contentHash => contentHash
  end.

(** [filename.replace(/[^a-zA-Z0-9._\-]/g, '_')]. *)
Definition safeChar (c : ascii) : ascii :=
  if between 97 122 c || between 65 90 c || between 48 57 c
     || Nat.eqb (code c) 46 || Nat.eqb (code c) 95 || Nat.eqb (code c) 45
  then c else "_"%char.

Fixpoint sanitize (s : string) : string :=
  match s with
  | EmptyString => EmptyString
  | String c s' => String (safeChar c) (sanitize s')
  end.

Section WithEnvironment.

(** [new URL(s)]; [None] when the constructor throws. *)
Variable parseURL : string -> option Url.URL.
(** [crypto.createHash('md5').update(data).digest('hex')]. *)
Variable md5hex : string -> string.
(** [process.cwd()], against which [path.resolve] completes a relative
    snapshot directory. *)
Variable cwd : string.

Definition getPageFilePath (url : string) : string :=
  match parseURL url with
  | Some urlObj =>
      let pathname := orElse (stripTrailingSlash (Url.pathname urlObj)) "/" in
      if String.eqb pathname "/" then "index.html"
      else
        let pathname := substring1 pathname in
        if truthy (Path.extname pathname) then pathname
        else pathname ++ "/index.html"
  | None => "pages/" ++ md5hex url ++ ".html"
  end.

(** [savePage(url, html)]; the returned object is
    [{url, filePath, fullPath}]. *)
Definition savePage (url html : string) (fm : State)
  : Result ((string * string * string) * State) :=
  match snapshotDir fm with
  | None => notInitialized
  | Some dir =>
      let filePath := getPageFilePath url in
      let fullPath := Path.join [dir; filePath] in
      Ok ((url, filePath, fullPath),
          countPage (writeFileSync fullPath html fm))
  end.

(** [saveAssetAtPath(relPath, fileBuffer)]; [None] is the [null] that
    signals a skipped asset. *)
Definition saveAssetAtPath (relPath fileBuffer : string) (fm : State)
  : Result (option AssetRecord * State) :=
  match snapshotDir fm with
  | None => notInitialized
  | Some dir =>
      let normalized := Path.normalize (stripLeadingSlash relPath) in
      let fullPath := Path.resolve cwd [dir; normalized] in
      if negb (startsWith (Path.resolve cwd [dir] ++ Path.sep) fullPath)
      then Ok (None, fm)
      else
        let contentHash := md5hex fileBuffer in
        match assetMap fm !! contentHash with
        | Some r => Ok (Some r, fm)
        | None =>
            let r := AtPath normalized contentHash in
            Ok (Some r,
                recordAsset contentHash r
                  (writeFileSync fullPath fileBuffer fm))
        end
  end.

Definition getAssetFilename (url mimeType : string) : string :=
  match parseURL url with
  | Some urlObj =>
      let filename := Path.basename (Url.pathname urlObj) in
      let filename :=
        if negb (truthy filename)
        then "asset-" ++ String.substring 0 8 (md5hex url)
             ++ getExtensionForMimeType mimeType
        else filename in
      sanitize filename
  | None =>
      "asset-" ++ String.substring 0 12 (md5hex url)
      ++ getExtensionForMimeType mimeType
  end.

(** [saveAsset(assetUrl, fileBuffer, mimeType)]. *)
Definition saveAsset (assetUrl fileBuffer mimeType : string) (fm : State)
  : Result (AssetRecord * State) :=
  match snapshotDir fm with
  | None => notInitialized
  | Some dir =>
      let contentHash := md5hex fileBuffer in
      match assetMap fm !! contentHash with
      | Some r => Ok (r, fm)
      | None =>
          let destDir := getAssetDirectory mimeType assetUrl in
          let filename := getAssetFilename assetUrl mimeType in
          let filePath := Path.join [destDir; filename] in
          let fullPath := Path.join [dir; filePath] in
          let r := ByUrl assetUrl filePath contentHash in
          Ok (r, recordAsset contentHash r
                   (writeFileSync fullPath fileBuffer fm))
      end
  end.

(** A call of one of the save methods, and a sequence of such calls by
    a caller that catches what they throw, as the loops of [runCrawl]
    do. *)
Inductive Call : Type :=
  | SavePage (url html : string)
  | SaveAssetAtPath (relPath fileBuffer : string)
  | SaveAsset (assetUrl fileBuffer mimeType : string).

Definition run (c : Call) (fm : State)
  : Result (option AssetRecord * State) :=
  match c with
  | SavePage url html =>
      match savePage url html fm with
      | Ok (_, fm') => Ok (None, fm')
      | Throw m => Throw m
      end
  | SaveAssetAtPath relPath fileBuffer =>
      saveAssetAtPath relPath fileBuffer fm
  | SaveAsset assetUrl fileBuffer mimeType =>
      match saveAsset assetUrl fileBuffer mimeType fm with
      | Ok (r, fm') => Ok (Some r, fm')
      | Throw m => Throw m
      end
  end.

Definition runCaught (fm : State) (c : Call) : State :=
  match run c fm with
  | Ok (_, fm') => fm'
  | Throw _ => fm
  end.

Definition runAll (cs : list Call) (fm : State) : State :=
  fold_left runCaught cs fm.

(** The bytes that a call stores as an asset, if it is an asset call. *)
Definition assetBytes (c : Call) : option string :=
  match c with
  | SavePage _ _ => None
  | SaveAssetAtPath _ fileBuffer => Some fileBuffer
  | SaveAsset _ fileBuffer _ => Some fileBuffer
  end.

End WithEnvironment.

End FileManager.

(* ===================================================================== *)
(** ** processor/htmlUtils.js *)
(* ===================================================================== *)

Module HtmlUtils.
Import JS.

(** [/^https?:\/\//.test(url)]. *)
Definition isAbsoluteUrl (url : string) : bool :=
  startsWith "http://" url || startsWith "https://" url.

(** [/^(data:|javascript:|mailto:|tel:|sms:|#)/.test(url)]. *)
Definition isSpecialUrl (url : string) : bool :=
  existsb (fun p => startsWith p url)
    ["data:"; "javascript:"; "mailto:"; "tel:"; "sms:"; "#"].

Definition rewriteDrupalPaths (url : string) : string :=
  replaceAll "/sites/default/files/" "/files/" url.

(** A double quote and a line feed, for the markup below. *)
Definition dq : string := String (ascii_of_nat 34) EmptyString.
Definition nl : string := String (ascii_of_nat 10) EmptyString.

Definition divStyle : string :=
  "background: #f0f0f0; padding: 20px; border-radius: 4px; margin: 20px 0; text-align: center;".
Definition pStyle : string := "margin: 0; font-size: 16px; color: #333;".
Definition aStyle : string := "color: #0077b5; text-decoration: none;".

(** The markup of the block that stands in for a removed experiment. *)
Definition createJatosReplacement (linkedinProfile : string) : string :=
  "<div class=" ++ dq ++ "jatos-replacement" ++ dq
  ++ " style=" ++ dq ++ divStyle ++ dq ++ ">" ++ nl
  ++ "  <p style=" ++ dq ++ pStyle ++ dq ++ ">" ++ nl
  ++ "    <strong>Experiments have concluded.</strong><br>" ++ nl
  ++ "    For more information, please contact me on" ++ nl
  ++ "    <a href=" ++ dq ++ linkedinProfile ++ dq
  ++ " target=" ++ dq ++ "_blank" ++ dq
  ++ " rel=" ++ dq ++ "noopener noreferrer" ++ dq
  ++ " style=" ++ dq ++ aStyle ++ dq ++ ">LinkedIn</a>." ++ nl
  ++ "  </p>" ++ nl
  ++ "</div>".

(** The tree that cheerio builds from that markup (the profile holding
    no character that markup treats specially). *)
Definition replacementNode (linkedinProfile : string) : Dom.Node :=
  Dom.Element "div"
    [("class", "jatos-replacement"); ("style", divStyle)]
    [ Dom.Text (nl ++ "  ");
      Dom.Element "p" [("style", pStyle)]
        [ Dom.Text (nl ++ "    ");
          Dom.Element "strong" [] [Dom.Text "Experiments have concluded."];
          Dom.Element "br" [] [];
          Dom.Text (nl ++ "    For more information, please contact me on"
                    ++ nl ++ "    ");
          Dom.Element "a"
            [("href", linkedinProfile); ("target", "_blank");
             ("rel", "noopener noreferrer"); ("style", aStyle)]
            [Dom.Text "LinkedIn"];
          Dom.Text ("." ++ nl ++ "  ") ];
      Dom.Text nl ].

Section WithEnvironment.

Variable parseURL : string -> option Url.URL.

(** [extractDomain]; [None] is [null]. *)
Definition extractDomain (url : string) : option string :=
  Url.hostname <$> parseURL url.

Definition isSameDomain (url siteDomain : string) : bool :=
  match extractDomain url with
  | Some urlDomain =>
      if negb (truthy urlDomain) then false
      else String.eqb (stripWww urlDomain) (stripWww siteDomain)
  | None => false
  end.

Definition toRelativeUrl (absoluteUrl siteDomain : string) : string :=
  if negb (isAbsoluteUrl absoluteUrl) then absoluteUrl
  else if negb (isSameDomain absoluteUrl siteDomain) then absoluteUrl
  else match parseURL absoluteUrl with
       | Some urlObj =>
           Url.pathname urlObj ++ Url.search urlObj ++ Url.hash urlObj
       | None => absoluteUrl
       end.

End WithEnvironment.

End HtmlUtils.

(* ===================================================================== *)
(** ** processor/postProcessor.js *)
(* ===================================================================== *)

Module PostProcessor.
Import JS.

(** [$elem.attr(name, value)] on an element that has the attribute. *)
Fixpoint setAttr (name value : string) (attrs : list (string * string))
  : list (string * string) :=
  match attrs with
  | [] => []
  | (k, v) :: rest =>
      if String.eqb k name then (k, value) :: rest
      else (k, v) :: setAttr name value rest
  end.

(** A change applied to the attributes of every element of a tree. *)
Fixpoint mapElements (f : list (string * string) -> list (string * string))
    (n : Dom.Node) : Dom.Node :=
  match n with
  | Dom.Element tag attrs children =>
      Dom.Element tag (f attrs) (map (mapElements f) children)
  | _ => n
  end.

(** [$(selector).each(... $(elem).replaceWith(block) ...)] where the
    callback replaces the elements on which [matches] holds: the
    selection is made before the first replacement, so the block itself
    is not visited, and what lies inside a replaced element leaves the
    document with it. *)
Fixpoint replaceWhere (matches : Dom.Node -> bool) (block : Dom.Node)
    (n : Dom.Node) : Dom.Node :=
  match n with
  | Dom.Element tag attrs children =>
      if matches n then block
      else Dom.Element tag attrs (map (replaceWhere matches block) children)
  | _ => n
  end.

(** [s.split(/\s+/)] on a trimmed string: its runs of characters other
    than white space, or one empty string when there is none.  [cur] is
    the run being read, reversed. *)
Fixpoint splitSpaces_from (cur : string) (s : string) : list string :=
  match s with
  | EmptyString => [String.rev cur]
  | String c s' =>
      if isSpace c then
        if String.eqb cur "" then splitSpaces_from cur s'
        else String.rev cur :: splitSpaces_from EmptyString s'
      else splitSpaces_from (String c cur) s'
  end.

Definition splitSpaces (s : string) : list string :=
  splitSpaces_from EmptyString s.

(** The marker patterns of the three passes of [replaceJatosForms]. *)
Definition formTokens : list string := ["jatos"; "experiment"; "signup"].
Definition linkTokens : list string := ["jatos"; "experiment"].

Definition includesAny (tokens : list string) (s : string) : bool :=
  existsb (fun t => includes t s) tokens.

(** [iframe[src*=jatos], iframe[class*=jatos]]: attribute selectors
    compare the value as it is written. *)
Definition iframeMatches (n : Dom.Node) : bool :=
  Dom.isTag "iframe" n &&
  (match Dom.attr "src" n with
   | Some v => includes "jatos" v
   | None => false
   end
   || match Dom.attr "class" n with
      | Some v => includes "jatos" v
      | None => false
      end).

(** [/jatos|experiment|signup/i.test(action + formClass)]. *)
Definition formMatches (n : Dom.Node) : bool :=
  Dom.isTag "form" n &&
  includesAny formTokens
    (toLowerCase (Dom.attrOr "action" n ++ Dom.attrOr "class" n)).

(** [/jatos|experiment/.test(href + text.toLowerCase())]. *)
Definition linkMatches (n : Dom.Node) : bool :=
  Dom.isTag "a" n &&
  includesAny linkTokens
    (Dom.attrOr "href" n ++ toLowerCase (Dom.text n)).

Section WithConfig.

Variable parseURL : string -> option Url.URL.
(** [this.siteDomain] and [this.linkedinProfile]. *)
Variable siteDomain : string.
Variable linkedinProfile : string.

(** What [rewriteUrls] does to one URL. *)
Definition rewriteValue (value : string) : string :=
  HtmlUtils.toRelativeUrl parseURL
    (HtmlUtils.rewriteDrupalPaths value) siteDomain.

(** The callback of [$('[href]').each] and of [$('[src]').each]. *)
Definition rewriteAttr (name : string) (attrs : list (string * string))
  : list (string * string) :=
  match Dom.lookupAttr name attrs with
  | Some value =>
      if truthy value && negb (HtmlUtils.isSpecialUrl value)
      then setAttr name (rewriteValue value) attrs
      else attrs
  | None => attrs
  end.

Definition rewriteSrcsetItem (item : string) : string :=
  let parts := splitSpaces (trim item) in
  let url := List.hd EmptyString parts in
  let descriptor := Path.join_with " " (List.tl parts) in
  let rewritten :=
    if HtmlUtils.isSpecialUrl url then url else rewriteValue url in
  if truthy descriptor then rewritten ++ " " ++ descriptor else rewritten.

Definition rewriteSrcset (attrs : list (string * string))
  : list (string * string) :=
  match Dom.lookupAttr "srcset" attrs with
  | Some srcset =>
      if truthy srcset
      then setAttr "srcset"
             (Path.join_with ", "
                (map rewriteSrcsetItem (Path.split_on "," srcset))) attrs
      else attrs
  | None => attrs
  end.

(** [rewriteUrls($)] on the nodes of the document. *)
Definition rewriteUrls (doc : list Dom.Node) : list Dom.Node :=
  map (mapElements rewriteSrcset)
    (map (mapElements (rewriteAttr "src"))
       (map (mapElements (rewriteAttr "href")) doc)).

(** [replaceJatosForms($)]: the iframes, then the forms, then the
    anchors. *)
Definition replaceJatosForms (doc : list Dom.Node) : list Dom.Node :=
  let block := HtmlUtils.replacementNode linkedinProfile in
  map (replaceWhere linkMatches block)
    (map (replaceWhere formMatches block)
       (map (replaceWhere iframeMatches block) doc)).

End WithConfig.

End PostProcessor.

(* ===================================================================== *)
(** ** modes/crawl.js: saving the assets *)
(* ===================================================================== *)

Module CrawlMode.

Section WithEnvironment.

Variable parseURL : string -> option Url.URL.
Variable md5hex : string -> string.
Variable cwd : string.

(** The path that the asset loop hands to [saveAssetAtPath]; [None] when
    [new URL(assetUrl)] throws. *)
Definition rewrittenPath (assetUrl : string) : option string :=
  (fun u => HtmlUtils.rewriteDrupalPaths (Url.pathname u))
    <$> parseURL assetUrl.

(** The body of the asset loop once the download has resolved with
    [status] and [data]; the second component is [assetCount].  An
    exception is caught and logged, whatever its origin. *)
Definition saveDownloaded (assetUrl : string) (status : Z) (data : string)
    (fm : FileManager.State) (assetCount : Z) : FileManager.State * Z :=
  if Z.eqb status 200 then
    match rewrittenPath assetUrl with
    | Some p =>
        match FileManager.saveAssetAtPath md5hex cwd p data fm with
        | Ok (_, fm') => (fm', assetCount + 1)
        | Throw _ => (fm, assetCount)
        end
    | None => (fm, assetCount)
    end
  else (fm, assetCount).

(** The asset loop over the asset URLs, each with what its request
    resolved with, status and body, or with [None] when the request
    threw. *)
Definition saveAll (downloads : list (string * option (Z * string)))
    (fm : FileManager.State) (assetCount : Z) : FileManager.State * Z :=
  fold_left
    (fun acc download =>
       match snd download with
       | Some (status, data) =>
           saveDownloaded (fst download)
             status data (fst acc) (snd acc)
       | None => acc
       end)
    downloads (fm, assetCount).


End WithEnvironment.

End CrawlMode.

(* ===================================================================== *)
(** ** processor/htmlUtils.js and processor/postProcessor.js: the
       first and the last step of the markup transformer *)
(* ===================================================================== *)

Module Markup.
Import JS.

(** [$(selector).remove()]: the selection is made first, then each
    matched element leaves the tree with all that it holds. *)
Fixpoint removeWhere (matches : Dom.Node -> bool) (n : Dom.Node)
  : Dom.Node :=
  match n with
  | Dom.Element tag attrs children =>
      Dom.Element tag attrs
        ((fix removeAll (l : list Dom.Node) : list Dom.Node :=
            match l with
            | [] => []
            | c :: l' =>
                if matches c then removeAll l'
                else removeWhere matches c :: removeAll l'
            end) children)
  | _ => n
  end.

Definition removeAll (matches : Dom.Node -> bool) (doc : list Dom.Node)
  : list Dom.Node :=
  (fix removeAll (l : list Dom.Node) : list Dom.Node :=
     match l with
     | [] => []
     | c :: l' =>
         if matches c then removeAll l'
         else removeWhere matches c :: removeAll l'
     end) doc.

(** [$(elem).removeAttr(a).removeAttr(b)...] *)
Definition removeAttrs (names : list string)
    (attrs : list (string * string)) : list (string * string) :=
  List.filter (fun kv => negb (bool_decide (fst kv ∈ names))) attrs.

Definition hasAttr (name : string) (n : Dom.Node) : bool :=
  match Dom.attr name n with
  | Some _ => true
  | None => false
  end.

Definition handlerAttributes : list string :=
  ["onclick"; "onerror"; "onload"].

Definition layoutAttributes : list string :=
  ["align"; "valign"; "bgcolor"].

(** The pseudo-class [:empty]: no child is an element or a text that is
    not empty; comments do not count. *)
Definition isEmpty (n : Dom.Node) : bool :=
  match n with
  | Dom.Element _ _ children =>
      forallb
        (fun c =>
           match c with
           | Dom.Element _ _ _ => false
           | Dom.Text data => String.eqb data ""
           | Dom.Comment _ => true
           end) children
  | _ => false
  end.

Definition emptyParagraph (n : Dom.Node) : bool :=
  Dom.isTag "p" n && isEmpty n.

Definition emptyDiv (n : Dom.Node) : bool :=
  Dom.isTag "div" n && isEmpty n.

(** [PostProcessor.cleanupHtml($)].  Its third statement visits [$('*')],
    which holds elements only, and removes those whose [type] is
    ['comment']: there is none, so that statement changes nothing. *)
Definition cleanupHtml (doc : list Dom.Node) : list Dom.Node :=
  map (PostProcessor.mapElements (removeAttrs layoutAttributes))
    (removeAll emptyDiv (removeAll emptyParagraph doc)).

Section WithSelectorEngine.

(** Whether the selector engine takes a value of [type] to be equal to
    [text/javascript]: with or without regard to letter case, by its
    version. *)
Variable isJavascriptType : string -> bool.

(** [script[src], script[type=text/javascript]]. *)
Definition scriptMatches (n : Dom.Node) : bool :=
  Dom.isTag "script" n &&
  (hasAttr "src" n
   || match Dom.attr "type" n with
      | Some t => isJavascriptType t
      | None => false
      end).

(** [HtmlUtils.sanitizeHtml], between [cheerio.load] and [$.html()]. *)
Definition sanitizeHtml (doc : list Dom.Node) : list Dom.Node :=
  map (PostProcessor.mapElements (removeAttrs handlerAttributes))
    (removeAll scriptMatches doc).

End WithSelectorEngine.

End Markup.

(* ===================================================================== *)
(** ** modes/clean.js: the sweep of temporary files *)
(* ===================================================================== *)

Module CleanMode.

(** [TEMP_PATTERNS]: each pattern is a prefix of the entry name. *)
Definition tempPrefixes : list string :=
  [".tmp-"; "temp-"; "partial-"; ".crawl-"].

Definition isTemp (entry : string) : bool :=
  existsb (fun p => String.prefix p entry) tempPrefixes.

(** The entries of the output directory that [runClean] removes when no
    removal fails, and those that it leaves. *)
Definition removed (entries : list string) : list string :=
  List.filter isTemp entries.

Definition left (entries : list string) : list string :=
  List.filter (fun e => negb (isTemp e)) entries.

End CleanMode.

(* ===================================================================== *)
(** ** utils/logger.js *)
(* ===================================================================== *)

Module Logger.

(** [LOG_LEVELS[name]] for a name of the table. *)
Definition ownLevel (name : string) : option Z :=
  if String.eqb name "DEBUG" then Some 0
  else if String.eqb name "INFO" then Some 1
  else if String.eqb name "WARN" then Some 2
  else if String.eqb name "ERROR" then Some 3
  else None.

(** The names that every object inherits; [LOG_LEVELS[name]] is then a
    function or an object, which no number is equal to or below. *)
Definition inheritedNames : list string :=
  [ "constructor"; "toString"; "toLocaleString"; "valueOf";
    "hasOwnProperty"; "isPrototypeOf"; "propertyIsEnumerable";
    "__proto__"; "__defineGetter__"; "__defineSetter__";
    "__lookupGetter__"; "__lookupSetter__" ].

(** [this.level = LOG_LEVELS[level] || LOG_LEVELS.INFO]; [None] stands
    for a value that is not a number. *)
Definition threshold (level : string) : option Z :=
  match ownLevel level with
  | Some n => if Z.eqb n 0 then Some 1 else Some n
  | None => if bool_decide (level ∈ inheritedNames) then None else Some 1
  end.

(** The test of [_log]: [LOG_LEVELS[level] >= this.level], for the
    level names that the four methods pass. *)
Definition prints (constructedWith : string) (level : string) : bool :=
  match ownLevel level, threshold constructedWith with
  | Some n, Some t => Z.leb t n
  | _, _ => false
  end.

Definition debug (constructedWith : string) : bool :=
  prints constructedWith "DEBUG".
Definition info (constructedWith : string) : bool :=
  prints constructedWith "INFO".
Definition warn (constructedWith : string) : bool :=
  prints constructedWith "WARN".
Definition error (constructedWith : string) : bool :=
  prints constructedWith "ERROR".

End Logger.

(* ===================================================================== *)
(** ** Vocabulary of the specification *)
(* ===================================================================== *)

Module Spec.
#[local] Open Scope list_scope.

(** The effects of a fetch that retries [k] times, the first request
    being attempt number [attempt]: a GET, then, before each retry, a
    pause of one second per attempt made so far. *)
Fixpoint retryTrace (url : string) (attempt : Z) (k : nat)
  : list Crawler.Event :=
  match k with
  | O => [Crawler.EGet url]
  | S k' =>
      Crawler.EGet url :: Crawler.ESleep (1000 * (attempt + 1))
        :: retryTrace url (attempt + 1) k'
  end.

(** The number of GETs for [url] and of additions of [url] to the
    visited set in a log. *)
Fixpoint gets (url : string) (l : list Crawler.Event) : nat :=
  match l with
  | [] => O
  | Crawler.EGet u :: l' =>
      if decide (u = url) then S (gets url l') else gets url l'
  | _ :: l' => gets url l'
  end.

Fixpoint visits (url : string) (l : list Crawler.Event) : nat :=
  match l with
  | [] => O
  | Crawler.EVisit u :: l' =>
      if decide (u = url) then S (visits url l') else visits url l'
  | _ :: l' => visits url l'
  end.

(** The pauses of a log, in order. *)
Fixpoint sleeps (l : list Crawler.Event) : list Z :=
  match l with
  | [] => []
  | Crawler.ESleep ms :: l' => ms :: sleeps l'
  | _ :: l' => sleeps l'
  end.








Definition isFailure (r : Crawler.FetchResult) : Prop :=
  exists (code : Z) (message : string),
    Crawler.status r = Crawler.SNum code
    /\ Crawler.error r = Some message.

(** The outcome of a fetch that gave up after a transport failure. *)
Definition gaveUp (message : string) : Crawler.FetchResult :=
  {| Crawler.html := EmptyString; Crawler.status := Crawler.SNum 0;
     Crawler.error := Some message; Crawler.contentType := None |}.

(** A request that fails, in transport or by its status. *)
Definition failing (r : Crawler.NetResult) : Prop :=
  match r with
  | Crawler.NetErr _ => True
  | Crawler.NetOk response => Crawler.resp_status response <> 200
  end.

(** The retry sentence of the specification, read on a URL whose every
    request fails: the fetch gives up only after all its retries. *)
Definition RetriesEveryFailure
    (httpGet : list Crawler.Event -> string -> Crawler.NetResult)
    (config : gmap string JS.JSVal) (url : string) : Prop :=
  (forall l, failing (httpGet l url)) ->
  forall l, exists r,
    Crawler.fetchPage httpGet config url 0 l
      = Some (r, l ++ retryTrace url 0 (Crawler.retriesLeft config 0)).

(** A path, as the list of its segments, lies strictly inside a
    directory: it continues the segments of the directory by at least
    one more. *)
Definition StrictlyInside (root target : list string) : Prop :=
  exists rest : list string, rest <> [] /\ target = (root ++ rest)%list.

(** A segment of a path: not empty, and without a slash. *)
Fixpoint slashFree (s : string) : bool :=
  match s with
  | EmptyString => true
  | String c s' => negb (Ascii.eqb c "/") && slashFree s'
  end.

Definition isSegment (s : string) : Prop :=
  s <> EmptyString /\ slashFree s = true.

(** The deduplication sentence of the specification, read on two
    consecutive save calls: whatever the two calls are, if they carry
    the same bytes the first one returns a record, and the second one
    writes nothing and returns that record. *)
Definition DedupAlways (parseURL : string -> option Url.URL)
    (md5hex : string -> string) (cwd : string) : Prop :=
  forall (c1 c2 : FileManager.Call) (bytes : string)
         (fm fm1 fm2 : FileManager.State)
         (r1 r2 : option FileManager.AssetRecord),
    is_Some (FileManager.snapshotDir fm) ->
    FileManager.assetBytes c1 = Some bytes ->
    FileManager.assetBytes c2 = Some bytes ->
    FileManager.run parseURL md5hex cwd c1 fm = Ok (r1, fm1) ->
    FileManager.run parseURL md5hex cwd c2 fm1 = Ok (r2, fm2) ->
    FileManager.writes fm2 = FileManager.writes fm1
    /\ is_Some r1 /\ r2 = r1.

(** What save calls may change: the snapshot directory stays, and so
    does every record of the asset map. *)
Definition persists (fm fm' : FileManager.State) : Prop :=
  FileManager.snapshotDir fm' = FileManager.snapshotDir fm
  /\ (forall h r, FileManager.assetMap fm !! h = Some r ->
                  FileManager.assetMap fm' !! h = Some r).

(** At most one file was written between two states. *)
Definition wroteAtMostOne (fm fm' : FileManager.State) : Prop :=
  FileManager.writes fm' = FileManager.writes fm
  \/ exists p, FileManager.writes fm' = (FileManager.writes fm ++ [p])%list.

(** The invariant of the crawl loop on its log: a URL is added to the
    visited set at most once, only URLs of the visited set have been
    added, and a URL is requested at most [1 + budget] times for each
    time that it was added. *)
Definition VisitOnce (budget : nat) (st : Crawler.State) : Prop :=
  forall u : string,
    (visits u (Crawler.log st) <= 1)%nat
    /\ (u ∉ Crawler.visitedUrls st -> visits u (Crawler.log st) = O)
    /\ (gets u (Crawler.log st)
          <= (1 + budget) * visits u (Crawler.log st))%nat.

(** The pages that the loop may still process at [processedCount]. *)
Definition pagesLeft (config : gmap string JS.JSVal) (processedCount : Z)
  : nat :=
  match Config.num config "maxPages" with
  | Some m => Z.to_nat (m - processedCount)
  | None => O
  end.



(** A place in a tree: the elements from the root down to the place,
    each with the siblings before and after the way down. *)
Inductive Context : Type :=
  | Here
  | Inside (tag : string) (attrs : list (string * string))
           (before : list Dom.Node) (inner : Context)
           (after : list Dom.Node).

Fixpoint plug (c : Context) (n : Dom.Node) : Dom.Node :=
  match c with
  | Here => n
  | Inside tag attrs before inner after =>
      Dom.Element tag attrs (before ++ plug inner n :: after)%list
  end.








End Spec.

(* ===================================================================== *)
(** ** Invariants of the program *)
(* ===================================================================== *)

(** What the loops and the stores of the program keep true. *)
Module Invariant.
#[local] Open Scope list_scope.

(** The queue and the visited set share no URL. *)
Definition Separated (st : Crawler.State) : Prop :=
  NoDup (Crawler.queuedUrls st)
  /\ NoDup (Crawler.visitedUrls st)
  /\ forall u, u ∈ Crawler.queuedUrls st -> u ∉ Crawler.visitedUrls st.

(** The URLs that a log requests. *)
Fixpoint requested (l : list Crawler.Event) : list string :=
  match l with
  | [] => []
  | Crawler.EGet u :: l' => u :: requested l'
  | _ :: l' => requested l'
  end.

(** The URLs for which the crawl has a page or a failure record. *)
Definition recorded (st : Crawler.State) : list string :=
  map Crawler.page_url (Crawler.crawledPages st)
  ++ map Crawler.failed_url (Crawler.failedUrls st).

(** A URL that the crawl may request: the start URL, or one that the
    same-domain test accepts. *)
Definition Allowed (parseURL : string -> option Url.URL)
    (config : gmap string JS.JSVal) (u : string) : Prop :=
  u = (Config.getSiteUrl config ++ "/")%string
  \/ Crawler.isSameDomain parseURL config u = true.

(** All that the crawler holds or has requested is allowed. *)
Definition OnSite (parseURL : string -> option Url.URL)
    (config : gmap string JS.JSVal) (st : Crawler.State) : Prop :=
  Forall (Allowed parseURL config) (Crawler.queuedUrls st)
  /\ Forall (Allowed parseURL config) (Crawler.visitedUrls st)
  /\ Forall (Allowed parseURL config) (requested (Crawler.log st))
  /\ Forall (Allowed parseURL config) (Crawler.assetUrls st).

(** The records of a crawl: no URL has two of them, each is of a
    visited URL, the pages carry status 200 and the failures another
    one. *)
Definition RecordsOk (st : Crawler.State) : Prop :=
  NoDup (recorded st)
  /\ (forall u, u ∈ recorded st -> u ∈ Crawler.visitedUrls st)
  /\ Forall (fun p => Crawler.page_status p = Crawler.SNum 200)
       (Crawler.crawledPages st)
  /\ Forall (fun f => Crawler.failed_status f <> Crawler.SNum 200
                      /\ Crawler.failed_status f
                         <> Crawler.SStr "binary-asset")
       (Crawler.failedUrls st).

(** The depths on record are not negative, and no page lies deeper
    than a positive [maxDepth]. *)
Definition DepthsOk (config : gmap string JS.JSVal) (st : Crawler.State)
  : Prop :=
  (forall u d, Crawler.urlDepthMap st !! u = Some d -> 0 <= d)
  /\ Forall
       (fun p =>
          0 <= Crawler.page_depth p
          /\ forall m,
               Config.num config "maxDepth" = Some m -> 0 < m ->
               Crawler.page_depth p <= m)
       (Crawler.crawledPages st).

(** The visited URLs are counted by [processedCount], which the page
    cap bounds. *)
Definition Counted (config : gmap string JS.JSVal) (st : Crawler.State)
    (processedCount : Z) : Prop :=
  Z.of_nat (length (Crawler.visitedUrls st)) = processedCount
  /\ (processedCount = 0
      \/ exists m, Config.num config "maxPages" = Some m
                   /\ processedCount <= m).

(** The numeric settings: the variable of the environment and the
    property that the constructor assigns from it. *)
Definition numericSettings : list (string * string) :=
  [ ("CRAWL_DELAY", "crawlDelay"); ("MAX_DEPTH", "maxDepth");
    ("MAX_PAGES", "maxPages"); ("CONNECT_TIMEOUT", "connectTimeout");
    ("READ_TIMEOUT", "readTimeout"); ("MAX_RETRIES", "maxRetries") ].

(** The books of a file manager: the asset count is the size of the
    asset map, every record is kept under its own hash, and each page
    or asset counted has been written once. *)
Definition StoreOk (fm : FileManager.State) : Prop :=
  Z.of_nat (size (FileManager.assetMap fm)) = FileManager.assetCount fm
  /\ map_Forall (fun h r => FileManager.recordHash r = h)
       (FileManager.assetMap fm)
  /\ Z.of_nat (length (FileManager.writes fm))
     = FileManager.pageCount fm + FileManager.assetCount fm.

(** A date of the calendar, in a year of four digits. *)
Definition ValidDate (now : FileManager.Date) : Prop :=
  (1000 <= FileManager.fullYear now <= 9999)%N
  /\ (FileManager.month now < 12)%N
  /\ (1 <= FileManager.date now <= 31)%N
  /\ (FileManager.hours now < 24)%N
  /\ (FileManager.minutes now < 60)%N
  /\ (FileManager.seconds now < 60)%N.

(** Some element of a tree, the root included, satisfies [p]. *)
Fixpoint anywhere (p : Dom.Node -> bool) (n : Dom.Node) : bool :=
  p n ||
  match n with
  | Dom.Element _ _ children => existsb (anywhere p) children
  | _ => false
  end.

(** A document with the attributes that hold URLs taken away. *)
Definition urlAttributes : list string := ["href"; "src"; "srcset"].

Definition withoutUrls (doc : list Dom.Node) : list Dom.Node :=
  map (PostProcessor.mapElements (Markup.removeAttrs urlAttributes)) doc.

(** The elements that [replaceJatosForms] looks for. *)
Definition flagged (n : Dom.Node) : bool :=
  PostProcessor.iframeMatches n || PostProcessor.formMatches n
  || PostProcessor.linkMatches n.

(** An element that carries one of the attributes [names]. *)
Definition carries (names : list string) (n : Dom.Node) : bool :=
  existsb (fun name => Markup.hasAttr name n) names.

Definition isComment (n : Dom.Node) : bool :=
  match n with
  | Dom.Comment _ => true
  | _ => false
  end.

(** The comments of a tree, in document order. *)
Fixpoint comments (n : Dom.Node) : list string :=
  match n with
  | Dom.Element _ _ children => flat_map comments children
  | Dom.Text _ => []
  | Dom.Comment data => [data]
  end.

(** A paragraph or a [div] with a comment among its children. *)
Definition blockWithComment (n : Dom.Node) : bool :=
  match n with
  | Dom.Element tag _ children =>
      (String.eqb tag "p" || String.eqb tag "div")
      && existsb isComment children
  | _ => false
  end.

End Invariant.

(* ===================================================================== *)
(** ** Sample environments *)
(* ===================================================================== *)

(** Concrete stand-ins for the outside world, on which the program is run
    in the examples below. *)
Module Sample.

(** A hash that tells apart all contents: the content itself. *)
Definition plainHash (data : string) : string := data.

(** [new URL(relative, base).href] for a [relative] that is already
    absolute. *)
Definition absoluteOnly (relative base : string) : option string :=
  Url.href <$> Url.simpleParse relative.

(** A document without elements. *)
Definition noElements (html selector : string) : list Dom.Node := [].

(** The environment of [SITE_HOST=example.com MAX_RETRIES=3]. *)
Definition env : gmap string string :=
  <["MAX_RETRIES" := "3"]> (<["SITE_HOST" := "example.com"]> ∅).

Definition config : gmap string JS.JSVal := Config.assign env.

(** The start URL of that site. *)
Definition url : string := "https://example.com/".

Definition response (code : Z) (body : string)
    (headers : list (string * string)) : Crawler.Response :=
  {| Crawler.resp_status := code; Crawler.resp_data := body;
     Crawler.resp_headers := list_to_map headers |}.


Definition downloadResponse : Crawler.Response :=
  response 200 "<html></html>"
    [("content-type", "text/html");
     ("content-disposition", "Attachment; filename=page.html")].

Definition htmlResponse : Crawler.Response :=
  response 200 "<html></html>"
    [("content-type", "Text/HTML; charset=utf-8")].

Definition emptyResponse : Crawler.Response :=
  response 200 EmptyString [("content-type", "text/html")].

Definition respond (code : Z) (body : string)
    (headers : list (string * string)) : Crawler.NetResult :=
  Crawler.NetOk (response code body headers).

(** A server that answers every request with status 500. *)
Definition alwaysError (l : list Crawler.Event) (url : string)
  : Crawler.NetResult :=
  respond 500 "Internal Server Error" [].

(** A network on which every connection times out. *)
Definition alwaysTimeout (l : list Crawler.Event) (url : string)
  : Crawler.NetResult :=
  Crawler.NetErr "timeout of 10000ms exceeded".

(** A server that answers every request with status 200 and no body. *)
Definition alwaysEmpty (l : list Crawler.Event) (url : string)
  : Crawler.NetResult :=
  Crawler.NetOk emptyResponse.

(** A configuration that also carries the property [siteHostname]
    that the crawler reads, and a site of two pages that link to each
    other. *)
Definition linkedConfig : gmap string JS.JSVal :=
  <["siteHostname" := JS.JStr "example.com"]>
    (Config.assign (<["CRAWL_DELAY" := "0"]> env)).

Definition pageA : string := "https://example.com/".
Definition pageB : string := "https://example.com/b".

Definition anchor (href : string) : Dom.Node :=
  Dom.Element "a" [("href", href)] [Dom.Text "next"].

Definition cycleSelect (html selector : string) : list Dom.Node :=
  if String.eqb selector "a[href]" then
    if String.eqb html "A" then [anchor pageB]
    else if String.eqb html "B" then [anchor pageA]
    else []
  else [].

Definition cycleSite (l : list Crawler.Event) (url : string)
  : Crawler.NetResult :=
  if String.eqb url pageA
  then respond 200 "A" [("content-type", "text/html")]
  else if String.eqb url pageB
  then respond 200 "B" [("content-type", "text/html")]
  else respond 404 "Not Found" [].

(** An embedded experiment whose address spells the marker in capitals,
    and a link to one. *)
Definition upperIframe : Dom.Node :=
  Dom.Element "iframe" [("src", "https://lab.example.com/JATOS/run")] [].

Definition upperLink : Dom.Node :=
  Dom.Element "a" [("href", "/JATOS/study")] [Dom.Text "Take part"].


(** A page with a paragraph and an embedded experiment in its body. *)
Definition aroundIframe : Spec.Context :=
  Spec.Inside "html" [] []
    (Spec.Inside "body" [("class", "page")]
       [Dom.Element "p" [] [Dom.Text "Welcome"]] Spec.Here [])
    [].

(** A file manager whose snapshot directory is
    [/output/2024-01-01_00-00-00], in a process started in [/app]. *)
Definition cwd : string := "/app".

Definition fileManager : FileManager.State :=
  FileManager.initializeSnapshot "2024-01-01_00-00-00"
    (FileManager.create "/output" ∅).

(** A site of three pages in a chain, crawled to depth 1. *)
Definition pageC : string := "https://example.com/c".

Definition shallowConfig : gmap string JS.JSVal :=
  <["siteHostname" := JS.JStr "example.com"]>
    (Config.assign (<["MAX_DEPTH" := "1"]> (<["CRAWL_DELAY" := "0"]> env))).

Definition chainSelect (html selector : string) : list Dom.Node :=
  if String.eqb selector "a[href]" then
    if String.eqb html "A" then [anchor pageB]
    else if String.eqb html "B" then [anchor pageC]
    else []
  else [].

Definition chainSite (l : list Crawler.Event) (url : string)
  : Crawler.NetResult :=
  if String.eqb url pageA
  then respond 200 "A" [("content-type", "text/html")]
  else if String.eqb url pageB
  then respond 200 "B" [("content-type", "text/html")]
  else respond 200 "C" [("content-type", "text/html")].

End Sample.

(* ===================================================================== *)
(** * Properties *)
(* ===================================================================== *)

(** ** Facts about strings *)

Section StringFacts.

Lemma append_assoc (a b c : string) : ((a ++ b) ++ c = a ++ b ++ c)%string.
Proof. induction a as [|x a IH]; simpl; [reflexivity|now f_equal]. Qed.

Lemma append_nil_r (a : string) : (a ++ "")%string = a.
Proof. induction a as [|x a IH]; simpl; [reflexivity|now f_equal]. Qed.

Lemma prefix_empty (s : string) : String.prefix "" s = true.
Proof. destruct s; reflexivity. Qed.

Lemma prefix_cons (c d : ascii) (w s : string) :
  String.prefix (String c w) (String d s) = true
  <-> c = d /\ String.prefix w s = true.
Proof.
  cbn [String.prefix]. destruct (ascii_dec c d) as [->|Hne].
  - tauto.
  - split; [discriminate|]. intros [? _]. contradiction.
Qed.

Lemma prefix_iff (w s : string) :
  String.prefix w s = true <-> exists post, s = (w ++ post)%string.
Proof.
  revert s. induction w as [|c w IH]; intros s.
  - rewrite prefix_empty. split; [intros _; now exists s|reflexivity].
  - destruct s as [|d s].
    + split; [discriminate|]. intros [post H]. discriminate.
    + rewrite prefix_cons, IH. split.
      * intros [-> [post ->]]. now exists post.
      * intros [post [= -> ->]]. split; [reflexivity|now exists post].
Qed.





End StringFacts.

(** ** The word test of [isAttachment] *)

Section WordMatch.






End WordMatch.

(** ** Path consistency *)

Section PathConsistency.

Variable parseURL : string -> option Url.URL.
Variable siteDomain : string.






End PathConsistency.


(** The downloaded bytes land where the rewritten markup points. *)
Example asset_lands_where_markup_points :
  FileManager.writes
    (fst (CrawlMode.saveDownloaded Url.simpleParse Sample.plainHash
            Sample.cwd "https://example.com/sites/default/files/img.png"
            200 "PNG" Sample.fileManager 0))
  = ["/output/2024-01-01_00-00-00/files/img.png"].
Proof. vm_compute. reflexivity. Qed.

(** ** The crawler's same-domain test *)

Section SameDomain.

Variable parseURL : string -> option Url.URL.
Variable resolveURL : string -> string -> option string.
Variable cheerioSelect : string -> string -> list Dom.Node.

(** The constructor of [CrawlerConfig] assigns no [siteHostname]. *)
Lemma assign_lacks_siteHostname (env : gmap string string) :
  Config.get (Config.assign env) "siteHostname" = JS.JUndefined.
Proof.
  unfold Config.get, Config.assign.
  repeat (rewrite lookup_insert_ne by discriminate).
  rewrite lookup_empty. reflexivity.
Qed.

Lemma CrawlerConfig_assign (env : gmap string string)
    (cfg : gmap string JS.JSVal) :
  Config.CrawlerConfig env = Ok cfg -> cfg = Config.assign env.
Proof.
  unfold Config.CrawlerConfig.
  destruct (Config.validate _); [|discriminate].
  now intros [= <-].
Qed.

(** Reading [siteHostname] from what the constructor assigns makes the
    test fail whatever the URL is. *)
Lemma isSameDomain_without_siteHostname (env : gmap string string)
    (url : string) :
  Crawler.isSameDomain parseURL (Config.assign env) url = false.
Proof.
  unfold Crawler.isSameDomain.
  destruct (parseURL url); [|reflexivity].
  now rewrite assign_lacks_siteHostname.
Qed.

(** C1.  With a configuration built by [new CrawlerConfig(env)], the
    same-domain test of the crawler answers [false] for every URL: the
    property [siteHostname] that it reads is [undefined], the call of
    [replace] on it throws, and the [catch] returns [false]. *)
Theorem isSameDomain_rejects_every_url (env : gmap string string)
    (cfg : gmap string JS.JSVal) (url : string) :
  Config.CrawlerConfig env = Ok cfg ->
  Crawler.isSameDomain parseURL cfg url = false.
Proof.
  intros H. rewrite (CrawlerConfig_assign env cfg H).
  apply isSameDomain_without_siteHostname.
Qed.

(** Hence no link and no asset reference is ever taken from a page. *)
Lemma extractUrls_finds_nothing (env : gmap string string)
    (cfg : gmap string JS.JSVal) (html pageUrl : string) :
  Config.CrawlerConfig env = Ok cfg ->
  Crawler.extractUrls parseURL resolveURL cheerioSelect cfg html pageUrl
    = ([], []).
Proof.
  intros H. rewrite (CrawlerConfig_assign env cfg H).
  pose proof (isSameDomain_without_siteHostname env) as Hno.
  assert (forall (f : list string * list string -> Dom.Node ->
                      list string * list string) l acc,
            (forall a e, f a e = a) -> fold_left f l acc = acc) as Hfold.
  { intros f l. induction l as [|e l IH]; intros acc Hf; [reflexivity|].
    cbn [fold_left]. rewrite Hf. now apply IH. }
  unfold Crawler.extractUrls.
  rewrite !Hfold; [reflexivity|..];
    intros [urls assets] e;
    unfold Crawler.visitForm, Crawler.visitAsset, Crawler.visitAnchor;
    now rewrite Hno.
Qed.

End SameDomain.

Lemma isSameDomain_rejects_every_url_witness :
  Config.CrawlerConfig Sample.env = Ok Sample.config
  /\ (Url.hostname <$> Url.simpleParse "https://example.com/about")
     = Some "example.com"
  /\ Config.get Sample.config "siteHost" = JS.JStr "example.com"
  /\ Crawler.isSameDomain Url.simpleParse Sample.config
       "https://example.com/about" = false.
Proof.
  assert (Config.CrawlerConfig Sample.env = Ok Sample.config) as H
    by (vm_compute; reflexivity).
  split; [exact H|]. split; [reflexivity|]. split; [vm_compute; reflexivity|].
  exact (isSameDomain_rejects_every_url Url.simpleParse Sample.env
           Sample.config "https://example.com/about" H).
Defined.

(** ** Fetching a page *)

Section Fetching.
#[local] Open Scope list_scope.

Variable parseURL : string -> option Url.URL.
Variable resolveURL : string -> string -> option string.
Variable cheerioSelect : string -> string -> list Dom.Node.
Variable httpGet : list Crawler.Event -> string -> Crawler.NetResult.
Variable config : gmap string JS.JSVal.

#[local] Abbreviation fetchPage_within := (Crawler.fetchPage_within httpGet config).
#[local] Abbreviation fetchPage := (Crawler.fetchPage httpGet config).
#[local] Abbreviation retriesLeft := (Crawler.retriesLeft config).
#[local] Abbreviation dispatch :=
  (Crawler.dispatch parseURL resolveURL cheerioSelect config).
#[local] Abbreviation iteration :=
  (Crawler.iteration parseURL resolveURL cheerioSelect httpGet config).

Lemma retry_allowed (attempt : Z) :
  Config.lt (Some attempt) (Config.num config "maxRetries") = true ->
  retriesLeft attempt = S (retriesLeft (attempt + 1)).
Proof.
  unfold Crawler.retriesLeft, Config.lt.
  destruct (Config.num config "maxRetries") as [m|]; [|discriminate].
  intros H%Z.ltb_lt. lia.
Qed.

Lemma retry_refused (attempt : Z) :
  Config.lt (Some attempt) (Config.num config "maxRetries") = false ->
  retriesLeft attempt = O.
Proof.
  unfold Crawler.retriesLeft, Config.lt.
  destruct (Config.num config "maxRetries") as [m|]; [|reflexivity].
  intros H%Z.ltb_ge. lia.
Qed.

(** [fetchPage] returns, whatever the network does, after at most
    [retriesLeft] retries, each of them preceded by its pause. *)
Lemma fetchPage_returns (url : string) (n : nat) :
  forall (attempt : Z) (l : list Crawler.Event),
    n = retriesLeft attempt ->
    exists (r : Crawler.FetchResult) (k : nat),
      fetchPage url attempt l = Some (r, l ++ Spec.retryTrace url attempt k)
      /\ (k <= n)%nat.
Proof.
  unfold Crawler.fetchPage.
  induction n as [|n IH]; intros attempt l Hn; rewrite <- Hn.
  - cbn [Crawler.fetchPage_within].
    destruct (httpGet l url) as [response|message].
    + exists (Crawler.classify response), O. split; [reflexivity|lia].
    + destruct (Config.lt _ _) eqn:Hlt.
      * rewrite (retry_allowed _ Hlt) in Hn. discriminate.
      * exists (Spec.gaveUp message), O. split; [reflexivity|lia].
  - cbn [Crawler.fetchPage_within].
    destruct (httpGet l url) as [response|message].
    + exists (Crawler.classify response), O. split; [reflexivity|lia].
    + destruct (Config.lt _ _) eqn:Hlt.
      * rewrite (retry_allowed _ Hlt) in Hn. injection Hn as Hn.
        destruct (IH (attempt + 1)
                    ((l ++ [Crawler.EGet url])
                       ++ [Crawler.ESleep (1000 * (attempt + 1))]) Hn)
          as (r & k & Hr & Hk).
        rewrite <- Hn in Hr. rewrite Hr.
        exists r, (S k). split; [|lia].
        cbn [Spec.retryTrace]. now rewrite <- !app_assoc.
      * exists (Spec.gaveUp message), O. split; [reflexivity|lia].
Qed.

(** A response, of whatever status, ends the fetch at once. *)
Lemma fetchPage_response (url : string) (attempt : Z)
    (l : list Crawler.Event) (response : Crawler.Response) :
  httpGet l url = Crawler.NetOk response ->
  fetchPage url attempt l
    = Some (Crawler.classify response, l ++ [Crawler.EGet url]).
Proof.
  intros H. unfold Crawler.fetchPage.
  destruct (retriesLeft attempt); cbn [Crawler.fetchPage_within];
    now rewrite H.
Qed.

(** When every request fails in transport, all the retries are used. *)
Lemma fetchPage_exhausts (url : string) (n : nat) :
  (forall l, exists message, httpGet l url = Crawler.NetErr message) ->
  forall (attempt : Z) (l : list Crawler.Event),
    n = retriesLeft attempt ->
    exists message,
      fetchPage url attempt l
        = Some (Spec.gaveUp message, l ++ Spec.retryTrace url attempt n).
Proof.
  intros Hnet. unfold Crawler.fetchPage.
  induction n as [|n IH]; intros attempt l Hn; rewrite <- Hn;
    cbn [Crawler.fetchPage_within];
    destruct (Hnet l) as [message ->];
    destruct (Config.lt _ _) eqn:Hlt.
  - rewrite (retry_allowed _ Hlt) in Hn. discriminate.
  - now exists message.
  - rewrite (retry_allowed _ Hlt) in Hn. injection Hn as Hn.
    destruct (IH (attempt + 1)
                ((l ++ [Crawler.EGet url])
                   ++ [Crawler.ESleep (1000 * (attempt + 1))]) Hn)
      as (m & Hm).
    rewrite <- Hn in Hm. rewrite Hm. exists m.
    cbn [Spec.retryTrace]. now rewrite <- !app_assoc.
  - rewrite (retry_refused _ Hlt) in Hn. discriminate.
Qed.

(** The pauses of a fetch grow by one second per retry. *)
Lemma sleeps_retryTrace (url : string) (k : nat) (attempt : Z) :
  Spec.sleeps (Spec.retryTrace url attempt k)
    = map (fun i => 1000 * (attempt + Z.of_nat i)) (seq 1 k).
Proof.
  revert attempt. induction k as [|k IH]; intros attempt; [reflexivity|].
  cbn [Spec.retryTrace Spec.sleeps].
  rewrite IH. cbn [seq map]. f_equal.
  rewrite <- (seq_shift k 1), map_map. apply map_ext. intros i. lia.
Qed.

Lemma gets_retryTrace (url u : string) (k : nat) (attempt : Z) :
  Spec.gets u (Spec.retryTrace url attempt k)
    = if decide (url = u) then S k else O.
Proof.
  revert attempt.
  induction k as [|k IH]; intros attempt;
    cbn [Spec.retryTrace Spec.gets]; [|rewrite IH];
    destruct (decide (url = u)); reflexivity.
Qed.

Lemma visits_retryTrace (url u : string) (k : nat) (attempt : Z) :
  Spec.visits u (Spec.retryTrace url attempt k) = O.
Proof.
  revert attempt.
  induction k as [|k IH]; intros attempt;
    cbn [Spec.retryTrace Spec.visits]; [reflexivity|apply IH].
Qed.

Lemma gets_app (u : string) (l1 l2 : list Crawler.Event) :
  Spec.gets u (l1 ++ l2) = (Spec.gets u l1 + Spec.gets u l2)%nat.
Proof.
  induction l1 as [|[v|ms|v] l1 IH]; cbn [app Spec.gets];
    [reflexivity| |assumption..].
  destruct (decide (v = u)); [cbn; f_equal|]; assumption.
Qed.

Lemma visits_app (u : string) (l1 l2 : list Crawler.Event) :
  Spec.visits u (l1 ++ l2) = (Spec.visits u l1 + Spec.visits u l2)%nat.
Proof.
  induction l1 as [|[v|ms|v] l1 IH]; cbn [app Spec.visits];
    [reflexivity|assumption..|].
  destruct (decide (v = u)); [cbn; f_equal|]; assumption.
Qed.

(** *** What the loop does with an outcome *)

Lemma fold_left_frame {A B : Type} (proj : Crawler.State -> B)
    (f : Crawler.State -> A -> Crawler.State) (l : list A) :
  (forall s x, proj (f s x) = proj s) ->
  forall st, proj (fold_left f l st) = proj st.
Proof.
  intros Hf. induction l as [|x l IH]; intros st; [reflexivity|].
  cbn [fold_left]. now rewrite IH.
Qed.

Lemma enqueueNew_frame {B : Type} (proj : Crawler.State -> B) :
  (forall q m st,
     proj (Crawler.set_urlDepthMap m (Crawler.set_queuedUrls q st))
       = proj st) ->
  forall depth st x, proj (Crawler.enqueueNew depth st x) = proj st.
Proof.
  intros H depth st x. unfold Crawler.enqueueNew, Crawler.queueUrl.
  repeat (destruct (_ && _); [|reflexivity]). apply H.
Qed.

Lemma dispatch_visitedUrls url depth page st :
  Crawler.visitedUrls (dispatch url depth page st) = Crawler.visitedUrls st.
Proof.
  unfold Crawler.dispatch. repeat case_decide; [|reflexivity..].
  rewrite (fold_left_frame Crawler.visitedUrls) by reflexivity.
  rewrite (fold_left_frame Crawler.visitedUrls)
    by (now apply enqueueNew_frame).
  reflexivity.
Qed.

Lemma dispatch_log url depth page st :
  Crawler.log (dispatch url depth page st) = Crawler.log st.
Proof.
  unfold Crawler.dispatch. repeat case_decide; [|reflexivity..].
  rewrite (fold_left_frame Crawler.log) by reflexivity.
  rewrite (fold_left_frame Crawler.log) by (now apply enqueueNew_frame).
  reflexivity.
Qed.

Lemma dispatch_page_crawledPages url depth page st :
  Crawler.status page = Crawler.SNum 200 ->
  Crawler.crawledPages (dispatch url depth page st)
    = Crawler.crawledPages st
      ++ [ {| Crawler.page_url := url;
              Crawler.page_html := Crawler.html page;
              Crawler.page_status := Crawler.SNum 200;
              Crawler.page_depth := depth |} ].
Proof.
  intros H. unfold Crawler.dispatch. rewrite decide_True by exact H.
  rewrite (fold_left_frame Crawler.crawledPages) by reflexivity.
  rewrite (fold_left_frame Crawler.crawledPages)
    by (now apply enqueueNew_frame).
  cbn. now rewrite H.
Qed.

Lemma dispatch_page_failedUrls url depth page st :
  Crawler.status page = Crawler.SNum 200 ->
  Crawler.failedUrls (dispatch url depth page st) = Crawler.failedUrls st.
Proof.
  intros H. unfold Crawler.dispatch. rewrite decide_True by exact H.
  rewrite (fold_left_frame Crawler.failedUrls) by reflexivity.
  rewrite (fold_left_frame Crawler.failedUrls)
    by (now apply enqueueNew_frame).
  reflexivity.
Qed.

Lemma dispatch_binary url depth page st :
  Crawler.status page = Crawler.SStr "binary-asset" ->
  dispatch url depth page st = Crawler.addAsset st url.
Proof.
  intros H. unfold Crawler.dispatch.
  rewrite decide_False by (rewrite H; discriminate).
  now rewrite decide_True by exact H.
Qed.

Lemma dispatch_failure url depth page st :
  Crawler.status page <> Crawler.SNum 200 ->
  Crawler.status page <> Crawler.SStr "binary-asset" ->
  dispatch url depth page st
    = Crawler.set_failedUrls
        (Crawler.failedUrls st
           ++ [ {| Crawler.failed_url := url;
                   Crawler.failed_status := Crawler.status page;
                   Crawler.failed_error := Crawler.error page |} ]) st.
Proof.
  intros H1 H2. unfold Crawler.dispatch.
  now rewrite !decide_False by assumption.
Qed.

(** One turn of the loop always completes: nothing that [fetchPage]
    meets can abort it. *)
Lemma iteration_completes (st : Crawler.State) (n : Z) :
  exists st' n', iteration st n = Some (st', n').
Proof.
  unfold Crawler.iteration.
  destruct (Crawler.queuedUrls st) as [|url q]; [now eexists _, _|].
  destruct (_ && _); [now eexists _, _|].
  destruct (Crawler.has _ _); [now eexists _, _|].
  match goal with
  | |- context [Crawler.fetchPage _ _ ?u ?a ?l] =>
      destruct (fetchPage_returns u _ a l eq_refl) as (r & k & -> & _)
  end.
  now eexists _, _.
Qed.

(** *** Classification of a response *)




(** *** An empty body *)

(** C10.  A response of status 200 without a body makes [fetchPage]
    return the failure [HTTP 200], but the loop, which looks at the
    status alone, keeps it as a crawled page with empty markup and
    records no failure. *)
Theorem empty_200_kept_as_page (response : Crawler.Response)
    (url : string) (depth : Z) (l : list Crawler.Event)
    (st : Crawler.State) :
  httpGet l url = Crawler.NetOk response ->
  Crawler.resp_status response = 200 ->
  Crawler.resp_data response = "" ->
  exists page,
    fetchPage url 0 l = Some (page, l ++ [Crawler.EGet url])
    /\ Spec.isFailure page
    /\ Crawler.status page = Crawler.SNum 200
    /\ Crawler.error page = Some "HTTP 200"
    /\ Crawler.failedUrls (dispatch url depth page st)
       = Crawler.failedUrls st
    /\ Crawler.crawledPages (dispatch url depth page st)
       = Crawler.crawledPages st
         ++ [ {| Crawler.page_url := url; Crawler.page_html := "";
                 Crawler.page_status := Crawler.SNum 200;
                 Crawler.page_depth := depth |} ].
Proof.
  intros Hget Hstatus Hdata.
  exists (Crawler.classify response).
  split; [now apply fetchPage_response|].
  assert (Crawler.classify response
          = {| Crawler.html := ""; Crawler.status := Crawler.SNum 200;
               Crawler.error := Some "HTTP 200";
               Crawler.contentType := None |}) as ->.
  { unfold Crawler.classify. rewrite Hstatus, Hdata. reflexivity. }
  split; [now exists 200, "HTTP 200"|].
  split; [reflexivity|]. split; [reflexivity|].
  split.
  - now apply dispatch_page_failedUrls.
  - now rewrite dispatch_page_crawledPages.
Qed.

(** *** Retries *)

(** C2, as the code has it.  [fetchPage] always returns; it retries
    after a transport failure only, at most [maxRetries] times, pausing
    [1000 * i] ms before the [i]-th retry; a response of a status other
    than 200 is returned as a failure at once; when every request fails
    in transport all the retries are used; and the loop appends a
    failure to [failedUrls] and completes its turn. *)
Theorem transport_failures_retried_then_recorded (url : string)
    (l : list Crawler.Event) :
  (exists r k,
     fetchPage url 0 l = Some (r, l ++ Spec.retryTrace url 0 k)
     /\ (k <= retriesLeft 0)%nat
     /\ Spec.sleeps (Spec.retryTrace url 0 k)
        = map (fun i => 1000 * Z.of_nat i) (seq 1 k))
  /\ (forall response,
        httpGet l url = Crawler.NetOk response ->
        Crawler.resp_status response <> 200 ->
        fetchPage url 0 l
          = Some ({| Crawler.html := "";
                     Crawler.status :=
                       Crawler.SNum (Crawler.resp_status response);
                     Crawler.error :=
                       Some ("HTTP " +:+ pretty (Crawler.resp_status response));
                     Crawler.contentType := None |},
                  l ++ [Crawler.EGet url]))
  /\ ((forall l', exists message,
         httpGet l' url = Crawler.NetErr message) ->
      exists message,
        fetchPage url 0 l
          = Some (Spec.gaveUp message,
                  l ++ Spec.retryTrace url 0 (retriesLeft 0)))
  /\ (forall r depth st,
        Spec.isFailure r ->
        Crawler.status r <> Crawler.SNum 200 ->
        dispatch url depth r st
          = Crawler.set_failedUrls
              (Crawler.failedUrls st
                 ++ [ {| Crawler.failed_url := url;
                         Crawler.failed_status := Crawler.status r;
                         Crawler.failed_error := Crawler.error r |} ]) st)
  /\ (forall st n, exists st' n', iteration st n = Some (st', n')).
Proof.
  split; [|split; [|split; [|split]]].
  - destruct (fetchPage_returns url _ 0 l eq_refl) as (r & k & Hr & Hk).
    exists r, k. split; [exact Hr|]. split; [exact Hk|].
    rewrite sleeps_retryTrace. apply map_ext. intros i. lia.
  - intros response Hget Hstatus.
    rewrite (fetchPage_response url 0 l response Hget).
    unfold Crawler.classify.
    now rewrite (proj2 (Z.eqb_neq _ _) Hstatus).
  - intros Hnet. now apply fetchPage_exhausts.
  - intros r depth st (code & message & Hs & He) Hne.
    apply dispatch_failure; [exact Hne|]. rewrite Hs. discriminate.
  - apply iteration_completes.
Qed.

End Fetching.

(** *** The theorems on sample responses *)


(** A page sent as an attachment is a binary asset, whatever the letter
    case of the header; parameters and letter case of the content type
    do not matter either. *)
Example download_is_binary :
  Crawler.status (Crawler.classify Sample.downloadResponse)
    = Crawler.SStr "binary-asset".
Proof. vm_compute. reflexivity. Qed.

Example html_with_charset_is_page :
  Crawler.status (Crawler.classify Sample.htmlResponse) = Crawler.SNum 200.
Proof. vm_compute. reflexivity. Qed.

Lemma empty_200_kept_as_page_witness :
  Sample.alwaysEmpty [] Sample.url = Crawler.NetOk Sample.emptyResponse
  /\ exists page,
       Crawler.fetchPage Sample.alwaysEmpty Sample.config Sample.url 0 []
         = Some (page, [Crawler.EGet Sample.url])
       /\ Spec.isFailure page
       /\ Crawler.status page = Crawler.SNum 200
       /\ Crawler.error page = Some "HTTP 200"
       /\ Crawler.failedUrls
            (Crawler.dispatch Url.simpleParse Sample.absoluteOnly
               Sample.noElements Sample.config Sample.url 0 page
               Crawler.initial) = []
       /\ Crawler.crawledPages
            (Crawler.dispatch Url.simpleParse Sample.absoluteOnly
               Sample.noElements Sample.config Sample.url 0 page
               Crawler.initial)
          = [ {| Crawler.page_url := Sample.url; Crawler.page_html := "";
                 Crawler.page_status := Crawler.SNum 200;
                 Crawler.page_depth := 0 |} ].
Proof.
  split; [reflexivity|].
  exact (empty_200_kept_as_page Url.simpleParse Sample.absoluteOnly
           Sample.noElements Sample.alwaysEmpty Sample.config
           Sample.emptyResponse Sample.url 0 [] Crawler.initial
           eq_refl eq_refl eq_refl).
Defined.

(** A status of 500 is not retried: with three retries configured, the
    fetch of a URL whose every request fails makes one request only. *)
Lemma status_failure_not_retried :
  ~ Spec.RetriesEveryFailure Sample.alwaysError Sample.config Sample.url.
Proof.
  intros H.
  destruct (H (fun l => ltac:(discriminate)) []) as [r Hr].
  vm_compute in Hr. discriminate.
Qed.

Example server_error_fetched_once :
  Crawler.retriesLeft Sample.config 0 = 3%nat
  /\ Crawler.fetchPage Sample.alwaysError Sample.config Sample.url 0 []
     = Some ({| Crawler.html := ""; Crawler.status := Crawler.SNum 500;
                Crawler.error := Some "HTTP 500";
                Crawler.contentType := None |},
             [Crawler.EGet Sample.url]).
Proof. split; vm_compute; reflexivity. Qed.

Example timeout_fetched_four_times :
  Crawler.fetchPage Sample.alwaysTimeout Sample.config Sample.url 0 []
  = Some (Spec.gaveUp "timeout of 10000ms exceeded",
          [ Crawler.EGet Sample.url; Crawler.ESleep 1000;
            Crawler.EGet Sample.url; Crawler.ESleep 2000;
            Crawler.EGet Sample.url; Crawler.ESleep 3000;
            Crawler.EGet Sample.url ]).
Proof. vm_compute. reflexivity. Qed.

(** ** Where a page is saved *)

Section PageFilePath.

Variable parseURL : string -> option Url.URL.
Variable md5hex : string -> string.

#[local] Abbreviation getPageFilePath :=
  (FileManager.getPageFilePath parseURL md5hex).




Lemma lastDot_none (b : string) (i : nat) :
  JS.includes "." b = false -> Path.lastDot_from i b = None.
Proof.
  revert i. induction b as [|c b IH]; intros i; [reflexivity|].
  cbn [JS.includes Path.lastDot_from String.prefix].
  intros H. apply orb_false_iff in H as [H1 H2].
  rewrite (IH (S i) H2).
  destruct (Ascii.eqb_spec c "."); [|reflexivity].
  subst c. cbn in H1. now rewrite prefix_empty in H1.
Qed.

(** A last segment without a dot has no extension. *)
Lemma extname_without_dot (q : string) :
  JS.includes "." (Path.basename q) = false -> Path.extname q = "".
Proof.
  intros H. unfold Path.extname. now rewrite lastDot_none.
Qed.


End PageFilePath.

Example page_paths :
  map (FileManager.getPageFilePath Url.simpleParse Sample.plainHash)
    [ "https://example.com/"; "https://example.com";
      "https://example.com/about"; "https://example.com/about/";
      "https://example.com/docs/guide.pdf";
      "https://example.com/.well-known"; "not a url" ]
  = [ "index.html"; "index.html"; "about/index.html"; "about/index.html";
      "docs/guide.pdf"; ".well-known/index.html";
      "pages/not a url.html" ].
Proof. vm_compute. reflexivity. Qed.

(** ** Paths that stay inside the snapshot *)

Section PathSafety.
#[local] Open Scope list_scope.

Lemma split_on_slashFree (p : string) :
  Forall (fun s => Spec.slashFree s = true) (Path.split_on "/" p).
Proof.
  induction p as [|c p IH]; cbn [Path.split_on].
  - repeat constructor.
  - destruct (Ascii.eqb c "/") eqn:E.
    + constructor; [reflexivity|exact IH].
    + destruct (Path.split_on "/" p) as [|w ws].
      * repeat constructor. cbn. now rewrite E.
      * inversion IH as [|? ? Hw Hws]; subst.
        constructor; [|exact Hws]. cbn. now rewrite E, Hw.
Qed.

Lemma push_segment_segments (allow : bool) (stack : list string)
    (seg : string) :
  Forall Spec.isSegment stack ->
  Spec.slashFree seg = true ->
  Forall Spec.isSegment (Path.push_segment allow stack seg).
Proof.
  intros Hstack Hseg. unfold Path.push_segment.
  destruct (String.eqb_spec seg ""); [exact Hstack|].
  destruct (String.eqb_spec seg "."); [exact Hstack|].
  cbn [orb].
  assert (Spec.isSegment "..") as Hdots by (split; [discriminate|reflexivity]).
  destruct (String.eqb_spec seg "..").
  - destruct stack as [|top rest].
    + destruct allow; [|constructor]. constructor; [exact Hdots|constructor].
    + inversion Hstack; subst.
      destruct (String.eqb top ".."); [|assumption].
      destruct allow; [constructor|]; assumption.
  - constructor; [split|]; assumption.
Qed.

Lemma normalizeSegments_segments (allow : bool) (p : string) :
  Forall Spec.isSegment (Path.normalizeSegments allow p).
Proof.
  unfold Path.normalizeSegments. apply Forall_rev.
  assert (forall l stack,
            Forall (fun s => Spec.slashFree s = true) l ->
            Forall Spec.isSegment stack ->
            Forall Spec.isSegment
              (fold_left (Path.push_segment allow) l stack)) as H.
  { induction l as [|x l IH]; intros stack Hl Hs; [exact Hs|].
    inversion Hl; subst. cbn [fold_left].
    apply IH; [assumption|]. now apply push_segment_segments. }
  apply H; [apply split_on_slashFree|constructor].
Qed.

(** Against an absolute working directory every path resolves to an
    absolute one. *)
Lemma resolve_collect_absolute (cwd : string) (args : list string) :
  Path.isAbsolute cwd = true ->
  snd (Path.resolve_collect cwd args) = true.
Proof.
  intros Hcwd. unfold Path.resolve_collect.
  rewrite fold_left_app. cbn [fold_left].
  destruct (fold_left Path.resolve_step (rev args) ("", false))
    as [resolved isAbs].
  unfold Path.resolve_step. destruct isAbs; [reflexivity|].
  destruct (String.eqb_spec cwd "") as [->|_]; [discriminate|].
  exact Hcwd.
Qed.

Lemma resolve_absolute (cwd : string) (args : list string) :
  Path.isAbsolute cwd = true ->
  Path.resolve cwd args
    = String "/" (Path.join_with "/" (Path.resolve_segments cwd args)).
Proof.
  intros Hcwd. pose proof (resolve_collect_absolute cwd args Hcwd) as H.
  unfold Path.resolve.
  destruct (Path.resolve_collect cwd args) as [resolved isAbs].
  cbn [snd] in H. now rewrite H.
Qed.

Lemma resolve_segments_segments (cwd : string) (args : list string) :
  Forall Spec.isSegment (Path.resolve_segments cwd args).
Proof.
  unfold Path.resolve_segments.
  destruct (Path.resolve_collect cwd args) as [resolved isAbs].
  apply normalizeSegments_segments.
Qed.

Lemma segment_head (s rest : string) :
  Spec.isSegment s -> String.prefix "/" (s ++ rest) = false.
Proof.
  intros [Hne Hfree]. destruct s as [|c s]; [contradiction|].
  cbn in Hfree. apply andb_true_iff in Hfree as [Hc _].
  apply negb_true_iff in Hc. cbn [append String.prefix].
  destruct (ascii_dec "/" c) as [<-|]; [discriminate|reflexivity].
Qed.

(** Two segments followed by a slash, one a prefix of the other, are
    the same segment. *)
Lemma segment_prefix (r f X Y : string) :
  Spec.slashFree r = true ->
  Spec.slashFree f = true ->
  Y = "" \/ (exists Y', Y = String "/" Y') ->
  String.prefix (r ++ String "/" X) (f ++ Y) = true ->
  r = f /\ exists Y', Y = String "/" Y' /\ String.prefix X Y' = true.
Proof.
  revert f. induction r as [|a r IH]; intros f Hr Hf HY Hp.
  - destruct f as [|c f].
    + cbn [append] in Hp. destruct HY as [->|[Y' ->]]; [discriminate|].
      apply prefix_cons in Hp as [_ Hp]. split; [reflexivity|now exists Y'].
    + cbn [append] in Hp. apply prefix_cons in Hp as [<- _].
      discriminate.
  - cbn in Hr. apply andb_true_iff in Hr as [Ha Hr].
    destruct f as [|c f].
    + cbn [append] in Hp. destruct HY as [->|[Y' ->]]; [discriminate|].
      apply prefix_cons in Hp as [-> _]. discriminate.
    + cbn in Hf. apply andb_true_iff in Hf as [_ Hf].
      cbn [append] in Hp. apply prefix_cons in Hp as [-> Hp].
      destruct (IH f Hr Hf HY Hp) as [-> H]. split; [reflexivity|exact H].
Qed.

Lemma join_cons (r : string) (R : list string) :
  Path.join_with "/" (r :: R)
    = (r ++ match R with
            | [] => ""
            | _ => String "/" (Path.join_with "/" R)
            end)%string.
Proof.
  destruct R; cbn [Path.join_with]; [now rewrite append_nil_r|reflexivity].
Qed.

(** The test of [saveAssetAtPath], on segments. *)
Lemma join_prefix_inside (R : list string) :
  Forall Spec.isSegment R ->
  forall F : list string,
    Forall Spec.isSegment F ->
    String.prefix (Path.join_with "/" R ++ "/") (Path.join_with "/" F) = true ->
    Spec.StrictlyInside R F.
Proof.
  induction R as [|r R IH]; intros HR F HF Hp.
  - exfalso. destruct F as [|f F]; [discriminate|].
    inversion HF; subst. rewrite join_cons in Hp.
    cbn [Path.join_with append] in Hp.
    now rewrite segment_head in Hp.
  - inversion HR as [|? ? Hr HR']; subst.
    destruct F as [|f F].
    + exfalso. destruct Hr as [Hne _]. destruct r; [contradiction|].
      rewrite join_cons in Hp. cbn [Path.join_with append] in Hp.
      discriminate.
    + inversion HF as [|? ? Hf HF']; subst.
      rewrite (join_cons f F) in Hp.
      assert (exists X,
                (Path.join_with "/" (r :: R) ++ "/")%string
                  = (r ++ String "/" X)%string
                /\ (R <> [] -> X = (Path.join_with "/" R ++ "/")%string))
        as (X & HX & HXR).
      { rewrite join_cons, append_assoc. destruct R as [|r' R].
        - exists EmptyString. split; [reflexivity|congruence].
        - eexists. split; [reflexivity|reflexivity]. }
      rewrite HX in Hp.
      apply segment_prefix in Hp as [-> (Y' & HY & Hp)];
        [|apply Hr|apply Hf|destruct F; [now left|right; now eexists]].
      destruct F as [|f' F]; [discriminate|]. injection HY as <-.
      destruct R as [|r' R].
      * exists (f' :: F). split; [discriminate|reflexivity].
      * rewrite HXR in Hp by discriminate.
        destruct (IH HR' (f' :: F) HF' Hp) as (rest & Hne & ->).
        exists rest. split; [exact Hne|reflexivity].
Qed.

(** A full path that passes the test of [saveAssetAtPath] lies strictly
    inside the snapshot directory. *)
Lemma accepted_is_inside (cwd dir normalized : string) :
  Path.isAbsolute cwd = true ->
  JS.startsWith (Path.resolve cwd [dir] ++ Path.sep)
    (Path.resolve cwd [dir; normalized]) = true ->
  Spec.StrictlyInside (Path.resolve_segments cwd [dir])
    (Path.resolve_segments cwd [dir; normalized]).
Proof.
  intros Hcwd. rewrite !resolve_absolute by exact Hcwd.
  unfold JS.startsWith, Path.sep. cbn [append].
  intros H. apply prefix_cons in H as [_ H].
  apply join_prefix_inside; [apply resolve_segments_segments..|exact H].
Qed.

End PathSafety.

(** ** The asset store *)

Section AssetStore.
#[local] Open Scope list_scope.

Variable parseURL : string -> option Url.URL.
Variable md5hex : string -> string.
Variable cwd : string.

#[local] Abbreviation saveAssetAtPath :=
  (FileManager.saveAssetAtPath md5hex cwd).
#[local] Abbreviation run := (FileManager.run parseURL md5hex cwd).
#[local] Abbreviation runAll := (FileManager.runAll parseURL md5hex cwd).

(** C6.  When the path handed to [saveAssetAtPath], once normalised and
    resolved against the snapshot directory, does not lie strictly
    inside that directory, the call returns [null] and leaves the file
    manager as it was: no file written, no asset recorded, the asset
    count unchanged. *)
Theorem traversal_rejected (relPath fileBuffer : string)
    (fm : FileManager.State) (dir : string) :
  FileManager.snapshotDir fm = Some dir ->
  Path.isAbsolute cwd = true ->
  ~ Spec.StrictlyInside (Path.resolve_segments cwd [dir])
      (Path.resolve_segments cwd
         [dir; Path.normalize (JS.stripLeadingSlash relPath)]) ->
  saveAssetAtPath relPath fileBuffer fm = Ok (None, fm).
Proof.
  intros Hdir Hcwd Hout. unfold FileManager.saveAssetAtPath. rewrite Hdir.
  destruct (JS.startsWith _ _) eqn:Hguard; [|reflexivity].
  exfalso. apply Hout. now apply accepted_is_inside.
Qed.


Lemma run_persists (c : FileManager.Call) (fm fm' : FileManager.State)
    (r : option FileManager.AssetRecord) :
  run c fm = Ok (r, fm') ->
  Spec.persists fm fm' /\ Spec.wroteAtMostOne fm fm'.
Proof.
  assert (Spec.persists fm fm /\ Spec.wroteAtMostOne fm fm) as Hsame.
  { split; [split; auto|now left]. }
  assert (forall h r p data,
            FileManager.assetMap fm !! h = None ->
            let fm' := FileManager.recordAsset h r
                         (FileManager.writeFileSync p data fm) in
            Spec.persists fm fm' /\ Spec.wroteAtMostOne fm fm') as Hnew.
  { intros h r0 p data Hh. cbv zeta. split; [split|].
    - reflexivity.
    - intros h' r' Hh'. cbn. rewrite lookup_insert_ne; [exact Hh'|congruence].
    - right. now exists p. }
  destruct c as [url html|relPath buffer|assetUrl buffer mimeType];
    cbn [FileManager.run].
  - unfold FileManager.savePage.
    destruct (FileManager.snapshotDir fm) eqn:Hd; [|discriminate].
    intros [= <- <-]. split; [split; [reflexivity|auto]|].
    right. now eexists.
  - unfold FileManager.saveAssetAtPath.
    destruct (FileManager.snapshotDir fm) eqn:Hd; [|discriminate].
    destruct (negb _); [intros [= <- <-]; exact Hsame|].
    destruct (FileManager.assetMap fm !! md5hex buffer) eqn:E;
      intros [= <- <-]; [exact Hsame|].
    now apply Hnew.
  - unfold FileManager.saveAsset.
    destruct (FileManager.snapshotDir fm) eqn:Hd; [|discriminate].
    destruct (FileManager.assetMap fm !! md5hex buffer) eqn:E;
      intros [= <- <-]; [exact Hsame|].
    now apply Hnew.
Qed.

Lemma runAll_persists (cs : list FileManager.Call) :
  forall fm, Spec.persists fm (runAll cs fm).
Proof.
  induction cs as [|c cs IH]; intros fm; [split; auto|].
  cbn [FileManager.runAll fold_left].
  specialize (IH (FileManager.runCaught parseURL md5hex cwd fm c)).
  assert (Spec.persists fm (FileManager.runCaught parseURL md5hex cwd fm c))
    as [Hd Hm].
  { unfold FileManager.runCaught.
    destruct (run c fm) as [[r fm']|] eqn:E; [|split; auto].
    now apply run_persists in E as [E _]. }
  destruct IH as [Hd' Hm']. split.
  - unfold FileManager.runAll in *. congruence.
  - intros h r Hh. apply Hm', Hm, Hh.
Qed.

(** An accepted asset call leaves the record it returns in the map. *)
Lemma run_records (c : FileManager.Call) (bytes : string)
    (fm fm' : FileManager.State) (r : FileManager.AssetRecord) :
  FileManager.assetBytes c = Some bytes ->
  run c fm = Ok (Some r, fm') ->
  FileManager.assetMap fm' !! md5hex bytes = Some r.
Proof.
  destruct c as [url html|relPath buffer|assetUrl buffer mimeType];
    cbn [FileManager.assetBytes FileManager.run]; [discriminate|..];
    intros [= ->].
  - unfold FileManager.saveAssetAtPath.
    destruct (FileManager.snapshotDir fm); [|discriminate].
    destruct (negb _); [discriminate|].
    destruct (FileManager.assetMap fm !! md5hex bytes) eqn:E;
      intros [= <- <-]; [exact E|].
    cbn. apply lookup_insert_eq.
  - unfold FileManager.saveAsset.
    destruct (FileManager.snapshotDir fm); [|discriminate].
    destruct (FileManager.assetMap fm !! md5hex bytes) eqn:E;
      intros [= <- <-]; [exact E|].
    cbn. apply lookup_insert_eq.
Qed.

(** An asset call whose bytes are on record writes nothing: it returns
    the record, or [null] when it is [saveAssetAtPath] and its own path
    fails the test. *)
Lemma run_known (c : FileManager.Call) (bytes dir : string)
    (fm : FileManager.State) (r : FileManager.AssetRecord) :
  FileManager.snapshotDir fm = Some dir ->
  FileManager.assetBytes c = Some bytes ->
  FileManager.assetMap fm !! md5hex bytes = Some r ->
  run c fm = Ok (Some r, fm)
  \/ (run c fm = Ok (None, fm)
      /\ exists relPath,
           c = FileManager.SaveAssetAtPath relPath bytes
           /\ JS.startsWith (Path.resolve cwd [dir] ++ Path.sep)
                (Path.resolve cwd
                   [dir; Path.normalize (JS.stripLeadingSlash relPath)])
              = false).
Proof.
  intros Hdir Hbytes Hmap.
  destruct c as [url html|relPath buffer|assetUrl buffer mimeType];
    cbn [FileManager.assetBytes FileManager.run] in *; [discriminate|..];
    injection Hbytes as ->.
  - unfold FileManager.saveAssetAtPath. rewrite Hdir.
    destruct (JS.startsWith _ _) eqn:Hguard; cbn [negb].
    + left. now rewrite Hmap.
    + right. split; [reflexivity|]. now exists relPath.
  - left. unfold FileManager.saveAsset. now rewrite Hdir, Hmap.
Qed.

(** C5, as the code has it.  Once a save call for some bytes has
    returned a record, having written at most one file, every later
    save call of the snapshot with the same bytes writes nothing and
    changes nothing, and returns that very record, unless it is a
    [saveAssetAtPath] whose own path fails the traversal test, which
    returns [null]. *)
Theorem identical_content_stored_once
    (c1 c2 : FileManager.Call) (between : list FileManager.Call)
    (bytes dir : string) (fm fm1 : FileManager.State)
    (r1 : FileManager.AssetRecord) :
  FileManager.snapshotDir fm = Some dir ->
  FileManager.assetBytes c1 = Some bytes ->
  FileManager.assetBytes c2 = Some bytes ->
  run c1 fm = Ok (Some r1, fm1) ->
  Spec.wroteAtMostOne fm fm1
  /\ (run c2 (runAll between fm1) = Ok (Some r1, runAll between fm1)
      \/ (run c2 (runAll between fm1) = Ok (None, runAll between fm1)
          /\ exists relPath,
               c2 = FileManager.SaveAssetAtPath relPath bytes
               /\ JS.startsWith (Path.resolve cwd [dir] ++ Path.sep)
                    (Path.resolve cwd
                       [dir; Path.normalize (JS.stripLeadingSlash relPath)])
                  = false)).
Proof.
  intros Hdir Hb1 Hb2 Hrun.
  destruct (run_persists c1 fm fm1 _ Hrun) as [[Hd1 _] Hw].
  split; [exact Hw|].
  pose proof (run_records c1 bytes fm fm1 r1 Hb1 Hrun) as Hrec.
  destruct (runAll_persists between fm1) as [Hd2 Hm2].
  apply (run_known c2 bytes dir); [congruence|exact Hb2|now apply Hm2].
Qed.

End AssetStore.

Lemma traversal_rejected_witness :
  FileManager.snapshotDir Sample.fileManager
    = Some "/output/2024-01-01_00-00-00"
  /\ Path.resolve Sample.cwd
       ["/output/2024-01-01_00-00-00";
        Path.normalize (JS.stripLeadingSlash "/../../etc/passwd")]
     = "/etc/passwd"
  /\ FileManager.saveAssetAtPath Sample.plainHash Sample.cwd
       "/../../etc/passwd" "root:x:0:0" Sample.fileManager
     = Ok (None, Sample.fileManager).
Proof.
  split; [reflexivity|]. split; [vm_compute; reflexivity|].
  apply (traversal_rejected Sample.plainHash Sample.cwd "/../../etc/passwd"
           "root:x:0:0" Sample.fileManager "/output/2024-01-01_00-00-00").
  - reflexivity.
  - reflexivity.
  - intros (rest & _ & H). vm_compute in H. discriminate.
Defined.

Lemma identical_content_stored_once_witness :
  exists r1 fm1,
    FileManager.run Url.simpleParse Sample.plainHash Sample.cwd
      (FileManager.SaveAssetAtPath "/files/img.png" "PNG")
      Sample.fileManager = Ok (Some r1, fm1)
    /\ r1 = FileManager.AtPath "files/img.png" "PNG"
    /\ FileManager.writes fm1
       = ["/output/2024-01-01_00-00-00/files/img.png"]
    /\ FileManager.run Url.simpleParse Sample.plainHash Sample.cwd
         (FileManager.SaveAsset "https://example.com/copy.png" "PNG"
            "image/png")
         (FileManager.runAll Url.simpleParse Sample.plainHash Sample.cwd
            [FileManager.SavePage "https://example.com/" "<html></html>"]
            fm1)
       = Ok (Some r1,
             FileManager.runAll Url.simpleParse Sample.plainHash Sample.cwd
               [FileManager.SavePage "https://example.com/" "<html></html>"]
               fm1).
Proof.
  destruct (FileManager.run Url.simpleParse Sample.plainHash Sample.cwd
              (FileManager.SaveAssetAtPath "/files/img.png" "PNG")
              Sample.fileManager) as [[[r1|] fm1]|] eqn:Hrun;
    try (vm_compute in Hrun; discriminate).
  exists r1, fm1. split; [reflexivity|].
  assert (r1 = FileManager.AtPath "files/img.png" "PNG"
          /\ FileManager.writes fm1
             = ["/output/2024-01-01_00-00-00/files/img.png"]) as [Hr Hw].
  { vm_compute in Hrun. injection Hrun as <- <-. split; reflexivity. }
  split; [exact Hr|]. split; [exact Hw|].
  destruct (identical_content_stored_once Url.simpleParse Sample.plainHash
              Sample.cwd
              (FileManager.SaveAssetAtPath "/files/img.png" "PNG")
              (FileManager.SaveAsset "https://example.com/copy.png" "PNG"
                 "image/png")
              [FileManager.SavePage "https://example.com/" "<html></html>"]
              "PNG" "/output/2024-01-01_00-00-00" Sample.fileManager fm1 r1
              eq_refl eq_refl eq_refl Hrun)
    as [_ [H|[_ (relPath & Hc & _)]]]; [exact H|discriminate].
Defined.

(** The sentence of the specification fails when a path is rejected:
    the first of two calls with the same bytes, made for an asset URL
    whose path is [/], returns [null], and it is the second that writes
    the file. *)
Lemma dedup_needs_accepted_paths :
  ~ Spec.DedupAlways Url.simpleParse Sample.plainHash Sample.cwd.
Proof.
  intros H.
  assert (FileManager.run Url.simpleParse Sample.plainHash Sample.cwd
            (FileManager.SaveAssetAtPath "/" "PNG")
            Sample.fileManager = Ok (None, Sample.fileManager)) as H1
    by (vm_compute; reflexivity).
  destruct (FileManager.run Url.simpleParse Sample.plainHash Sample.cwd
              (FileManager.SaveAssetAtPath "/files/img.png" "PNG")
              Sample.fileManager) as [[r2 fm2]|] eqn:H2;
    [|vm_compute in H2; discriminate].
  assert (is_Some (FileManager.snapshotDir Sample.fileManager)) as Hdir
    by (now eexists).
  destruct (H (FileManager.SaveAssetAtPath "/" "PNG")
              (FileManager.SaveAssetAtPath "/files/img.png" "PNG")
              "PNG" _ _ _ _ _ Hdir eq_refl eq_refl H1 H2)
    as (_ & [x Hx] & _).
  discriminate.
Qed.

Example rejected_then_written :
  FileManager.writes
    (FileManager.runAll Url.simpleParse Sample.plainHash Sample.cwd
       [ FileManager.SaveAssetAtPath "/" "PNG";
         FileManager.SaveAssetAtPath "/files/img.png" "PNG" ]
       Sample.fileManager)
  = ["/output/2024-01-01_00-00-00/files/img.png"].
Proof. vm_compute. reflexivity. Qed.

(** ** The crawl loop *)

Section CrawlLoop.
#[local] Open Scope list_scope.

Variable parseURL : string -> option Url.URL.
Variable resolveURL : string -> string -> option string.
Variable cheerioSelect : string -> string -> list Dom.Node.
Variable httpGet : list Crawler.Event -> string -> Crawler.NetResult.
Variable config : gmap string JS.JSVal.

#[local] Abbreviation retriesLeft := (Crawler.retriesLeft config).
#[local] Abbreviation iteration :=
  (Crawler.iteration parseURL resolveURL cheerioSelect httpGet config).
#[local] Abbreviation loop :=
  (Crawler.loop parseURL resolveURL cheerioSelect httpGet config).
#[local] Abbreviation VisitOnce := (Spec.VisitOnce (retriesLeft 0)).
#[local] Abbreviation pagesLeft := (Spec.pagesLeft config).

#[local] Ltac simplify_state :=
  repeat first
    [ progress cbn [Crawler.set_log Crawler.set_visitedUrls
                    Crawler.set_queuedUrls Crawler.log Crawler.visitedUrls]
    | rewrite dispatch_log
    | rewrite dispatch_visitedUrls ].

(** What one turn of the loop does to the queue, the visited set and
    the log: it drops the head of the queue, or it visits and fetches
    it. *)
Lemma iteration_effect (st st' : Crawler.State) (n n' : Z) :
  Crawler.queuedUrls st <> [] ->
  iteration st n = Some (st', n') ->
  (Crawler.log st' = Crawler.log st
   /\ Crawler.visitedUrls st' = Crawler.visitedUrls st
   /\ n' = n
   /\ (length (Crawler.queuedUrls st') < length (Crawler.queuedUrls st))%nat)
  \/ (exists url k tail,
        (url ∉ Crawler.visitedUrls st)
        /\ (k <= retriesLeft 0)%nat
        /\ Crawler.log st'
           = Crawler.log st
               ++ (Crawler.EVisit url :: Spec.retryTrace url 0 k ++ tail)
        /\ (tail = [] \/ exists d, tail = [Crawler.ESleep d])
        /\ Crawler.visitedUrls st' = Crawler.visitedUrls st ++ [url]
        /\ n' = n + 1).
Proof.
  unfold Crawler.iteration.
  destruct (Crawler.queuedUrls st) as [|url q] eqn:Hq; [congruence|].
  intros _.
  assert (length (Crawler.delete url (url :: q)) < length (url :: q))%nat
    as Hshorter.
  { unfold Crawler.delete. rewrite filter_cons_False by (now intros H).
    cbn [length]. pose proof (length_filter (fun y => y <> url) q). lia. }
  destruct (_ && _).
  { intros [= <- <-]. left.
    split; [reflexivity|]. split; [reflexivity|].
    split; [reflexivity|exact Hshorter]. }
  cbn [Crawler.set_queuedUrls Crawler.visitedUrls].
  unfold Crawler.has. case_bool_decide as Hvisited.
  { intros [= <- <-]. left.
    split; [reflexivity|]. split; [reflexivity|].
    split; [reflexivity|exact Hshorter]. }
  match goal with
  | |- context [Crawler.fetchPage _ _ ?u ?a ?l] =>
      destruct (fetchPage_returns httpGet config u _ a l eq_refl)
        as (r & k & -> & Hk)
  end.
  intros [= <- <-]. right.
  unfold Crawler.add, Crawler.has. rewrite bool_decide_eq_false_2 by exact Hvisited.
  exists url, k.
  destruct (Config.num config "crawlDelay") as [d|];
    [destruct (Z.ltb 0 d)|].
  - exists [Crawler.ESleep d]. split; [exact Hvisited|]. split; [exact Hk|].
    unfold Crawler.emit. simplify_state.
    split; [now rewrite <- !app_assoc|]. split; [right; now exists d|].
    split; reflexivity.
  - exists []. split; [exact Hvisited|]. split; [exact Hk|].
    unfold Crawler.emit. simplify_state.
    split; [now rewrite <- !app_assoc, app_nil_r|]. split; [now left|].
    split; reflexivity.
  - exists []. split; [exact Hvisited|]. split; [exact Hk|].
    unfold Crawler.emit. simplify_state.
    split; [now rewrite <- !app_assoc, app_nil_r|]. split; [now left|].
    split; reflexivity.
Qed.

Lemma gets_tail (u : string) (tail : list Crawler.Event) :
  tail = [] \/ (exists d, tail = [Crawler.ESleep d]) ->
  Spec.gets u tail = O /\ Spec.visits u tail = O.
Proof. intros [->|[d ->]]; split; reflexivity. Qed.

(** A turn of the loop keeps the invariant. *)
Lemma iteration_VisitOnce (st st' : Crawler.State) (n n' : Z) :
  Crawler.queuedUrls st <> [] ->
  iteration st n = Some (st', n') ->
  VisitOnce st -> VisitOnce st'.
Proof.
  intros Hq Hit Hinv.
  destruct (iteration_effect st st' n n' Hq Hit)
    as [(Hlog & Hvis & _ & _)
       |(url & k & tail & Hnew & Hk & Hlog & Htail & Hvis & _)].
  - intros u. rewrite Hlog, Hvis. apply Hinv.
  - intros u. destruct (Hinv u) as (H1 & H2 & H3).
    destruct (gets_tail u tail Htail) as [Hgt Hvt].
    rewrite Hlog, Hvis.
    rewrite gets_app, visits_app. cbn [Spec.gets Spec.visits].
    rewrite gets_app, visits_app, gets_retryTrace, visits_retryTrace, Hgt, Hvt.
    destruct (decide (url = u)) as [->|Hne].
    + specialize (H2 Hnew). rewrite H2 in *.
      split; [lia|]. split; [|lia].
      intros Hnot. exfalso. apply Hnot, elem_of_app. right.
      now apply list_elem_of_singleton.
    + split; [lia|]. split; [|lia].
      intros Hnot. rewrite H2; [lia|].
      intros Hin. apply Hnot, elem_of_app. now left.
Qed.

Lemma loop_VisitOnce (fuel : nat) :
  forall (st st' : Crawler.State) (n n' : Z),
    loop fuel st n = Some (st', n') ->
    VisitOnce st -> VisitOnce st'.
Proof.
  induction fuel as [|fuel IH]; intros st st' n n'; cbn [Crawler.loop];
    destruct (Crawler.queuedUrls st) as [|url q] eqn:Hq;
    try (intros [= <- <-]; trivial; fail);
    destruct (Config.lt _ _);
    try (intros [= <- <-]; trivial; fail);
    try discriminate.
  destruct (iteration st n) as [[st1 n1]|] eqn:Hit; [|discriminate].
  intros Hloop Hinv. apply (IH _ _ _ _ Hloop).
  apply (iteration_VisitOnce st st1 n n1); [congruence|exact Hit|exact Hinv].
Qed.

(** The loop stops on an empty queue or on the page cap. *)
Lemma loop_exit (fuel : nat) :
  forall (st st' : Crawler.State) (n n' : Z),
    loop fuel st n = Some (st', n') ->
    Crawler.queuedUrls st' = []
    \/ Config.lt (Some n') (Config.num config "maxPages") = false.
Proof.
  induction fuel as [|fuel IH]; intros st st' n n'; cbn [Crawler.loop];
    destruct (Crawler.queuedUrls st) as [|url q] eqn:Hq;
    try (intros [= <- <-]; now left);
    destruct (Config.lt _ _) eqn:Hlt;
    try (intros [= <- <-]; now right);
    try discriminate.
  destruct (iteration st n) as [[st1 n1]|] eqn:Hit; [|discriminate].
  apply IH.
Qed.

Lemma pagesLeft_step (n : Z) :
  Config.lt (Some n) (Config.num config "maxPages") = true ->
  pagesLeft n = S (pagesLeft (n + 1)).
Proof.
  unfold Spec.pagesLeft, Config.lt.
  destruct (Config.num config "maxPages") as [m|]; [|discriminate].
  intros H%Z.ltb_lt. lia.
Qed.

(** The loop terminates: a turn either shortens the queue or uses up
    one of the pages that the cap allows. *)
Lemma loop_terminates (p : nat) :
  forall (q : nat) (st : Crawler.State) (n : Z),
    (pagesLeft n <= p)%nat ->
    (length (Crawler.queuedUrls st) <= q)%nat ->
    exists fuel st' n', loop fuel st n = Some (st', n').
Proof.
  induction p as [|p IHp]; induction q as [|q IHq]; intros st n Hp Hlen.
  all: destruct (Crawler.queuedUrls st) as [|url rest] eqn:Hq;
    [exists O, st, n; cbn [Crawler.loop]; now rewrite Hq|].
  all: try (cbn [length] in Hlen; lia).
  all: destruct (Config.lt (Some n) (Config.num config "maxPages")) eqn:Hlt;
    [|exists O, st, n; cbn [Crawler.loop]; now rewrite Hq, Hlt].
  all: destruct (iteration_completes parseURL resolveURL cheerioSelect
                   httpGet config st n) as (st1 & n1 & Hit).
  all: assert (Crawler.queuedUrls st <> []) as Hne by congruence.
  all: destruct (iteration_effect st st1 n n1 Hne Hit)
         as [(_ & _ & -> & Hshort)|(_ & _ & _ & _ & _ & _ & _ & _ & ->)].
  - rewrite Hq in Hshort. cbn [length] in *.
    destruct (IHq st1 n Hp ltac:(lia)) as (fuel & st' & n' & Hloop).
    exists (S fuel), st', n'. cbn [Crawler.loop].
    now rewrite Hq, Hlt, Hit.
  - rewrite (pagesLeft_step n Hlt) in Hp. lia.
  - rewrite Hq in Hshort. cbn [length] in *.
    destruct (IHq st1 n Hp ltac:(lia)) as (fuel & st' & n' & Hloop).
    exists (S fuel), st', n'. cbn [Crawler.loop].
    now rewrite Hq, Hlt, Hit.
  - rewrite (pagesLeft_step n Hlt) in Hp.
    destruct (IHp (length (Crawler.queuedUrls st1)) st1 (n + 1)
                ltac:(lia) ltac:(lia)) as (fuel & st' & n' & Hloop).
    exists (S fuel), st', n'. cbn [Crawler.loop].
    now rewrite Hq, Hlt, Hit.
Qed.

Lemma seeded_VisitOnce :
  VisitOnce (Crawler.seeded config).
Proof.
  intros u. unfold Crawler.seeded, Crawler.queueUrl.
  destruct (_ && _); cbn; (split; [lia|split; [reflexivity|lia]]).
Qed.

(** C7.  Every crawl terminates; in its log every URL is added to the
    visited set at most once and requested at most [1 + maxRetries]
    times; and it ends with an empty queue unless the page cap stopped
    it.  So a cycle of links cannot keep the crawl going. *)
Theorem crawl_visits_once_and_terminates :
  exists (fuel : nat) (st : Crawler.State) (processedCount : Z),
    loop fuel (Crawler.seeded config) 0 = Some (st, processedCount)
    /\ Crawler.crawl parseURL resolveURL cheerioSelect httpGet config fuel
       = Some (Crawler.result st, st)
    /\ (forall u : string,
          (Spec.visits u (Crawler.log st) <= 1)%nat
          /\ (Spec.gets u (Crawler.log st) <= 1 + retriesLeft 0)%nat
          /\ (forall m : Z,
                Config.num config "maxRetries" = Some m -> 0 <= m ->
                Z.of_nat (Spec.gets u (Crawler.log st)) <= 1 + m))
    /\ (Crawler.queuedUrls st = []
        \/ Config.lt (Some processedCount) (Config.num config "maxPages")
           = false).
Proof.
  destruct (loop_terminates (pagesLeft 0)
              (length (Crawler.queuedUrls (Crawler.seeded config)))
              (Crawler.seeded config) 0 ltac:(lia) ltac:(lia))
    as (fuel & st & n & Hloop).
  exists fuel, st, n. split; [exact Hloop|].
  split; [unfold Crawler.crawl; now rewrite Hloop|].
  split; [|exact (loop_exit fuel _ _ _ _ Hloop)].
  pose proof (loop_VisitOnce fuel _ _ _ _ Hloop seeded_VisitOnce) as Hinv.
  intros u. destruct (Hinv u) as (H1 & _ & H3).
  assert (Spec.gets u (Crawler.log st) <= 1 + retriesLeft 0)%nat as Hgets
    by nia.
  split; [exact H1|]. split; [exact Hgets|].
  intros m Hm Hpos. unfold Crawler.retriesLeft in Hgets.
  rewrite Hm in Hgets. lia.
Qed.

End CrawlLoop.

(** A site whose two pages link to each other is crawled in two
    fetches, when the configuration carries the host name that the
    same-domain test reads; with the configuration that the constructor
    builds, the crawl ends after the start page. *)
Example cycle_site_terminates :
  exists res st,
    Crawler.crawl Url.simpleParse Sample.absoluteOnly Sample.cycleSelect
      Sample.cycleSite Sample.linkedConfig 5 = Some (res, st)
    /\ Crawler.visitedUrls st = [Sample.pageA; Sample.pageB]
    /\ Crawler.queuedUrls st = []
    /\ Crawler.log st
       = [ Crawler.EVisit Sample.pageA; Crawler.EGet Sample.pageA;
           Crawler.EVisit Sample.pageB; Crawler.EGet Sample.pageB ]
    /\ Crawler.pagesCrawled res = 2%nat.
Proof.
  destruct (Crawler.crawl Url.simpleParse Sample.absoluteOnly
              Sample.cycleSelect Sample.cycleSite Sample.linkedConfig 5)
    as [[res st]|] eqn:H; vm_compute in H; [|discriminate].
  injection H as <- <-. eexists _, _. repeat split.
Qed.

(** ** Replacing the flagged elements *)

Section Replacement.
#[local] Open Scope list_scope.

Variable linkedinProfile : string.

#[local] Abbreviation block := (HtmlUtils.replacementNode linkedinProfile).
#[local] Abbreviation replaceJatosForms :=
  (PostProcessor.replaceJatosForms linkedinProfile).

(** Induction on trees, with the hypothesis on all the children. *)
Lemma Node_forall_ind (P : Dom.Node -> Prop) :
  (forall tag attrs children,
     Forall P children -> P (Dom.Element tag attrs children)) ->
  (forall data, P (Dom.Text data)) ->
  (forall data, P (Dom.Comment data)) ->
  forall n, P n.
Proof.
  intros HE HT HC. fix IH 1.
  intros [tag attrs children|data|data]; [|apply HT|apply HC].
  apply HE. induction children as [|c children IHc]; constructor.
  - apply IH.
  - exact IHc.
Qed.

Lemma text_element (tag : string) (attrs : list (string * string))
    (children : list Dom.Node) :
  Dom.text (Dom.Element tag attrs children) = Dom.texts children.
Proof. reflexivity. Qed.

Lemma texts_cons (c : Dom.Node) (l : list Dom.Node) :
  Dom.texts (c :: l) = (Dom.text c ++ Dom.texts l)%string.
Proof. reflexivity. Qed.




(** The markup of the block holds the anchor to the profile. *)
Lemma replacement_markup_links_to_profile :
  exists pre post : string,
    HtmlUtils.createJatosReplacement linkedinProfile
    = (pre ++ "<a href=" ++ HtmlUtils.dq ++ linkedinProfile ++ HtmlUtils.dq
       ++ post)%string.
Proof.
  exists ("<div class=" ++ HtmlUtils.dq ++ "jatos-replacement" ++ HtmlUtils.dq
          ++ " style=" ++ HtmlUtils.dq ++ HtmlUtils.divStyle ++ HtmlUtils.dq
          ++ ">" ++ HtmlUtils.nl
          ++ "  <p style=" ++ HtmlUtils.dq ++ HtmlUtils.pStyle ++ HtmlUtils.dq
          ++ ">" ++ HtmlUtils.nl
          ++ "    <strong>Experiments have concluded.</strong><br>"
          ++ HtmlUtils.nl
          ++ "    For more information, please contact me on" ++ HtmlUtils.nl
          ++ "    ")%string.
  exists (" target=" ++ HtmlUtils.dq ++ "_blank" ++ HtmlUtils.dq
          ++ " rel=" ++ HtmlUtils.dq ++ "noopener noreferrer" ++ HtmlUtils.dq
          ++ " style=" ++ HtmlUtils.dq ++ HtmlUtils.aStyle ++ HtmlUtils.dq
          ++ ">LinkedIn</a>." ++ HtmlUtils.nl
          ++ "  </p>" ++ HtmlUtils.nl
          ++ "</div>")%string.
  reflexivity.
Qed.













End Replacement.



Example capital_markers_kept :
  PostProcessor.replaceJatosForms "https://www.linkedin.com/in/someone"
    [Sample.upperIframe; Sample.upperLink]
  = [Sample.upperIframe; Sample.upperLink].
Proof. vm_compute. reflexivity. Qed.

(* ===================================================================== *)
(** * Further properties of the code *)
(* ===================================================================== *)

(** ** The crawl loop *)

Section CrawlInvariants.
#[local] Open Scope list_scope.

Variable parseURL : string -> option Url.URL.
Variable resolveURL : string -> string -> option string.
Variable cheerioSelect : string -> string -> list Dom.Node.
Variable httpGet : list Crawler.Event -> string -> Crawler.NetResult.
Variable config : gmap string JS.JSVal.

#[local] Abbreviation retriesLeft := (Crawler.retriesLeft config).
#[local] Abbreviation iteration :=
  (Crawler.iteration parseURL resolveURL cheerioSelect httpGet config).
#[local] Abbreviation loop :=
  (Crawler.loop parseURL resolveURL cheerioSelect httpGet config).
#[local] Abbreviation dispatch :=
  (Crawler.dispatch parseURL resolveURL cheerioSelect config).
#[local] Abbreviation extractUrls :=
  (Crawler.extractUrls parseURL resolveURL cheerioSelect config).
#[local] Abbreviation isSameDomain := (Crawler.isSameDomain parseURL config).
#[local] Abbreviation crawl :=
  (Crawler.crawl parseURL resolveURL cheerioSelect httpGet config).

(** What holds at the start of the loop and is kept by each of its turns
    holds when the loop ends. *)
Lemma loop_invariant (Inv : Crawler.State -> Z -> Prop) :
  (forall st n st' n',
     Crawler.queuedUrls st <> [] ->
     Config.lt (Some n) (Config.num config "maxPages") = true ->
     iteration st n = Some (st', n') ->
     Inv st n -> Inv st' n') ->
  forall fuel st n st' n',
    loop fuel st n = Some (st', n') -> Inv st n -> Inv st' n'.
Proof.
  intros Hstep.
  induction fuel as [|fuel IH]; intros st n st' n'; cbn [Crawler.loop];
    destruct (Crawler.queuedUrls st) as [|url q] eqn:Hq;
    try (intros [= <- <-]; trivial; fail);
    destruct (Config.lt _ _) eqn:Hlt;
    try (intros [= <- <-]; trivial; fail);
    try discriminate.
  destruct (iteration st n) as [[st1 n1]|] eqn:Hit; [|discriminate].
  intros Hloop Hinv. apply (IH _ _ _ _ Hloop).
  apply (Hstep st n st1 n1); [congruence|exact Hlt|exact Hit|exact Hinv].
Qed.

(** One turn of the loop, case by case: the head of the queue is
    dropped, or it is visited, fetched and its outcome dispatched, a
    pause following when the configuration asks for one. *)
Lemma iteration_cases (st st' : Crawler.State) (n n' : Z)
    (url : string) (q : list string) :
  Crawler.queuedUrls st = url :: q ->
  iteration st n = Some (st', n') ->
  let st1 := Crawler.set_queuedUrls (Crawler.delete url (url :: q)) st in
  let depth := Crawler.getDepthForUrl url st in
  (st' = st1 /\ n' = n)
  \/ ((url ∉ Crawler.visitedUrls st)
      /\ (Crawler.gt (Config.num config "maxDepth") (Some 0)
          && Crawler.gt (Some depth) (Config.num config "maxDepth")) = false
      /\ n' = n + 1
      /\ exists page k st3,
           (k <= retriesLeft 0)%nat
           /\ st3 = dispatch url depth page
                      (Crawler.set_log
                         (Crawler.log st
                            ++ Crawler.EVisit url :: Spec.retryTrace url 0 k)
                         (Crawler.set_visitedUrls
                            (Crawler.visitedUrls st ++ [url]) st1))
           /\ (st' = st3 \/ exists d, st' = Crawler.emit (Crawler.ESleep d) st3)).
Proof.
  intros Hq. unfold Crawler.iteration. rewrite Hq. cbn zeta.
  change (Crawler.getDepthForUrl url
            (Crawler.set_queuedUrls (Crawler.delete url (url :: q)) st))
    with (Crawler.getDepthForUrl url st).
  destruct (_ && _) eqn:Hdepth.
  { intros [= <- <-]. now left. }
  cbn [Crawler.set_queuedUrls Crawler.visitedUrls].
  unfold Crawler.has. case_bool_decide as Hvisited.
  { intros [= <- <-]. now left. }
  match goal with
  | |- context [Crawler.fetchPage _ _ ?u ?a ?l] =>
      destruct (fetchPage_returns httpGet config u _ a l eq_refl)
        as (r & k & -> & Hk)
  end.
  intros [= <- <-]. right.
  split; [exact Hvisited|]. split; [reflexivity|]. split; [reflexivity|].
  exists r, k. eexists. split; [exact Hk|]. split; [reflexivity|].
  unfold Crawler.add, Crawler.has.
  rewrite bool_decide_eq_false_2 by exact Hvisited.
  unfold Crawler.emit at 2.
  cbn [Crawler.set_log Crawler.set_visitedUrls Crawler.set_queuedUrls
       Crawler.log Crawler.visitedUrls Crawler.queuedUrls
       Crawler.crawledPages Crawler.failedUrls Crawler.assetUrls
       Crawler.urlDepthMap].
  rewrite <- !app_assoc. cbn [app].
  destruct (Config.num config "crawlDelay") as [d|];
    [destruct (Z.ltb 0 d)|]; [right; now exists d|now left..].
Qed.


(** *** The queue and the visited set *)

#[local] Ltac fields :=
  cbn [Crawler.set_log Crawler.set_visitedUrls Crawler.set_queuedUrls
       Crawler.set_crawledPages Crawler.set_failedUrls
       Crawler.set_assetUrls Crawler.set_urlDepthMap Crawler.emit
       Crawler.log Crawler.visitedUrls Crawler.queuedUrls
       Crawler.crawledPages Crawler.failedUrls Crawler.assetUrls
       Crawler.urlDepthMap] in *.

Lemma delete_subset (x u : string) (s : list string) :
  u ∈ Crawler.delete x s -> u ∈ s /\ u <> x.
Proof. unfold Crawler.delete. intros H%list_elem_of_filter. tauto. Qed.

Lemma delete_NoDup (x : string) (s : list string) :
  NoDup s -> NoDup (Crawler.delete x s).
Proof. apply NoDup_filter. Qed.

Lemma add_NoDup (x : string) (s : list string) :
  NoDup s -> NoDup (Crawler.add x s).
Proof.
  intros H. unfold Crawler.add, Crawler.has. case_bool_decide as Hx;
    [exact H|].
  apply NoDup_app. split; [exact H|]. split; [|apply NoDup_singleton].
  intros u Hu ->%list_elem_of_singleton. contradiction.
Qed.

Lemma add_spec (x u : string) (s : list string) :
  u ∈ Crawler.add x s <-> u ∈ s \/ u = x.
Proof.
  unfold Crawler.add, Crawler.has. case_bool_decide as Hx.
  - split; [now left|]. intros [H| ->]; assumption.
  - rewrite elem_of_app, list_elem_of_singleton. reflexivity.
Qed.

(** What [enqueueNew] does to the queue: nothing, or it appends a URL
    that is neither queued nor visited and records its depth. *)
Lemma enqueueNew_cases (depth : Z) (st : Crawler.State) (x : string) :
  Crawler.enqueueNew depth st x = st
  \/ ((x ∉ Crawler.visitedUrls st) /\ (x ∉ Crawler.queuedUrls st)
      /\ Crawler.enqueueNew depth st x
         = Crawler.set_urlDepthMap
             (<[x := depth + 1]> (Crawler.urlDepthMap st))
             (Crawler.set_queuedUrls (Crawler.queuedUrls st ++ [x]) st)).
Proof.
  unfold Crawler.enqueueNew, Crawler.queueUrl, Crawler.add, Crawler.has.
  do 2 case_bool_decide; cbn [negb andb]; try (now left).
  right. split; [assumption|]. split; [assumption|reflexivity].
Qed.

Lemma enqueueNew_Separated (depth : Z) (st : Crawler.State) (x : string) :
  Invariant.Separated st ->
  Invariant.Separated (Crawler.enqueueNew depth st x).
Proof.
  intros (Hq & Hv & Hd).
  destruct (enqueueNew_cases depth st x) as [->|(Hxv & Hxq & ->)];
    [now split|].
  split; [|split]; fields.
  - apply NoDup_app. split; [exact Hq|]. split; [|apply NoDup_singleton].
    intros u Hu ->%list_elem_of_singleton. contradiction.
  - exact Hv.
  - intros u [Hu| ->%list_elem_of_singleton]%elem_of_app;
      [now apply Hd|exact Hxv].
Qed.

Lemma fold_left_preserves {A : Type} (P : Crawler.State -> Prop)
    (f : Crawler.State -> A -> Crawler.State) (l : list A) :
  (forall s x, P s -> P (f s x)) ->
  forall st, P st -> P (fold_left f l st).
Proof.
  intros Hf. induction l as [|x l IH]; intros st H; [exact H|].
  cbn [fold_left]. apply IH, Hf, H.
Qed.

(** A property of the queue and the visited set alone is kept by
    [dispatch] as soon as [enqueueNew] keeps it. *)
Lemma dispatch_preserves (P : Crawler.State -> Prop) url depth page st :
  (forall s s',
     Crawler.queuedUrls s' = Crawler.queuedUrls s ->
     Crawler.visitedUrls s' = Crawler.visitedUrls s ->
     Crawler.urlDepthMap s' = Crawler.urlDepthMap s ->
     P s -> P s') ->
  (forall s x, P s -> P (Crawler.enqueueNew depth s x)) ->
  P st -> P (dispatch url depth page st).
Proof.
  intros Hframe Hen H. unfold Crawler.dispatch.
  repeat case_decide;
    try (revert H; apply Hframe; reflexivity).
  apply fold_left_preserves.
  { intros s x. apply Hframe; reflexivity. }
  apply fold_left_preserves; [intros s x; apply Hen|].
  revert H. apply Hframe; reflexivity.
Qed.

Lemma dispatch_Separated url depth page st :
  Invariant.Separated st ->
  Invariant.Separated (dispatch url depth page st).
Proof.
  apply dispatch_preserves.
  - intros s s' Hq Hv _. unfold Invariant.Separated. now rewrite Hq, Hv.
  - intros s x. apply enqueueNew_Separated.
Qed.

Lemma iteration_Separated (st st' : Crawler.State) (n n' : Z) :
  Crawler.queuedUrls st <> [] ->
  iteration st n = Some (st', n') ->
  Invariant.Separated st -> Invariant.Separated st'.
Proof.
  intros Hne Hit (Hq & Hv & Hd).
  destruct (Crawler.queuedUrls st) as [|url q] eqn:Hqueue; [congruence|].
  assert (Invariant.Separated
            (Crawler.set_queuedUrls (Crawler.delete url (url :: q)) st))
    as Hst1.
  { split; [|split]; fields.
    - now apply delete_NoDup.
    - exact Hv.
    - intros u [Hu _]%delete_subset. now apply Hd. }
  destruct (iteration_cases st st' n n' url q Hqueue Hit)
    as [[-> _]|(Hnew & _ & _ & page & k & st3 & _ & -> & Hst')];
    [exact Hst1|].
  assert (Invariant.Separated
            (dispatch url (Crawler.getDepthForUrl url st) page
               (Crawler.set_log
                  (Crawler.log st
                     ++ Crawler.EVisit url :: Spec.retryTrace url 0 k)
                  (Crawler.set_visitedUrls (Crawler.visitedUrls st ++ [url])
                     (Crawler.set_queuedUrls
                        (Crawler.delete url (url :: q)) st))))) as Hst3.
  { apply dispatch_Separated. destruct Hst1 as (Hq1 & Hv1 & Hd1).
    split; [|split]; fields.
    - exact Hq1.
    - apply NoDup_app. split; [exact Hv|]. split; [|apply NoDup_singleton].
      intros u Hu ->%list_elem_of_singleton. contradiction.
    - intros u Hu [Huv| ->%list_elem_of_singleton]%elem_of_app.
      + now apply (Hd1 u).
      + apply delete_subset in Hu. now destruct Hu. }
  destruct Hst' as [->|[d ->]]; exact Hst3.
Qed.

Lemma seeded_Separated : Invariant.Separated (Crawler.seeded config).
Proof.
  unfold Crawler.seeded, Crawler.queueUrl.
  cbn. split; [|split].
  - apply NoDup_singleton.
  - apply NoDup_nil_2.
  - intros u _ H. inversion H.
Qed.

Lemma crawl_loop (fuel : nat) (res : Crawler.CrawlResult)
    (st : Crawler.State) :
  crawl fuel = Some (res, st) ->
  res = Crawler.result st
  /\ exists n, loop fuel (Crawler.seeded config) 0 = Some (st, n).
Proof.
  unfold Crawler.crawl.
  destruct (loop fuel (Crawler.seeded config) 0) as [[st' n']|] eqn:Hloop;
    [|discriminate].
  intros [= <- <-]. split; [reflexivity|now exists n'].
Qed.

Lemma crawl_Separated (fuel : nat) (res : Crawler.CrawlResult)
    (st : Crawler.State) :
  crawl fuel = Some (res, st) -> Invariant.Separated st.
Proof.
  intros [_ [n Hloop]]%crawl_loop.
  exact (loop_invariant (fun s _ => Invariant.Separated s)
           ltac:(intros s k s' k' Hne _ Hit;
                 now apply (iteration_Separated s s' k k'))
           fuel _ _ _ _ Hloop seeded_Separated).
Qed.

(** X1.  When a crawl ends, the queue and the visited set are free of
    duplicates and share no URL: a URL that has been visited is never
    queued again. *)
Theorem queue_and_visited_stay_apart (fuel : nat) (res : Crawler.CrawlResult)
    (st : Crawler.State) :
  crawl fuel = Some (res, st) ->
  NoDup (Crawler.queuedUrls st)
  /\ NoDup (Crawler.visitedUrls st)
  /\ (forall u, u ∈ Crawler.queuedUrls st -> u ∉ Crawler.visitedUrls st).
Proof. apply crawl_Separated. Qed.

(** *** What [extractUrls] returns *)

#[local] Abbreviation OnSite := (fun u : string => isSameDomain u = true).

Lemma add_Forall (P : string -> Prop) (x : string) (s : list string) :
  P x -> Forall P s -> Forall P (Crawler.add x s).
Proof.
  intros Hx Hs. apply Forall_forall. intros u [Hu| ->]%add_spec;
    [|exact Hx].
  exact (proj1 (Forall_forall P s) Hs u Hu).
Qed.

(** The pair of sets that the three passes of [extractUrls] build. *)
Lemma visitors_keep (pageUrl : string) (acc : list string * list string)
    (elem : Dom.Node)
    (Good := fun a : list string * list string =>
               (Forall OnSite (fst a) /\ NoDup (fst a))
               /\ (Forall OnSite (snd a) /\ NoDup (snd a))) :
  Good acc ->
  Good (Crawler.visitAnchor parseURL resolveURL config pageUrl acc elem)
  /\ Good (Crawler.visitAsset parseURL resolveURL config pageUrl acc elem)
  /\ Good (Crawler.visitForm parseURL resolveURL config pageUrl acc elem).
Proof.
  destruct acc as [urls assets]. intros [[Hu Hnu] [Ha Hna]].
  unfold Good, Crawler.visitAnchor, Crawler.visitAsset, Crawler.visitForm.
  split; [|split].
  - destruct (isSameDomain _) eqn:Hsame; cbn [negb];
      [|now repeat split].
    destruct (parseURL _) as [u|]; [destruct (Crawler.isBinaryExtension _)|];
      cbn [fst snd]; repeat split;
      auto using add_Forall, add_NoDup.
  - destruct (isSameDomain _) eqn:Hsame; cbn [fst snd]; repeat split;
      auto using add_Forall, add_NoDup.
  - destruct (isSameDomain _) eqn:Hsame; cbn [fst snd]; repeat split;
      auto using add_Forall, add_NoDup.
Qed.

Lemma fold_left_keeps {A S : Type} (P : S -> Prop) (f : S -> A -> S)
    (l : list A) :
  (forall s x, P s -> P (f s x)) -> forall s, P s -> P (fold_left f l s).
Proof.
  intros Hf. induction l as [|x l IH]; intros s H; [exact H|].
  cbn [fold_left]. apply IH, Hf, H.
Qed.

Lemma extractUrls_good (html pageUrl : string) :
  (Forall OnSite (fst (extractUrls html pageUrl))
   /\ NoDup (fst (extractUrls html pageUrl)))
  /\ (Forall OnSite (snd (extractUrls html pageUrl))
      /\ NoDup (snd (extractUrls html pageUrl))).
Proof.
  unfold Crawler.extractUrls.
  apply (fold_left_keeps
           (fun a => (Forall OnSite (fst a) /\ NoDup (fst a))
                     /\ (Forall OnSite (snd a) /\ NoDup (snd a)))).
  { intros a x H. apply (visitors_keep pageUrl a x H). }
  apply (fold_left_keeps
           (fun a => (Forall OnSite (fst a) /\ NoDup (fst a))
                     /\ (Forall OnSite (snd a) /\ NoDup (snd a)))).
  { intros a x H. apply (visitors_keep pageUrl a x H). }
  apply (fold_left_keeps
           (fun a => (Forall OnSite (fst a) /\ NoDup (fst a))
                     /\ (Forall OnSite (snd a) /\ NoDup (snd a)))).
  { intros a x H. apply (visitors_keep pageUrl a x H). }
  cbn [fst snd]. repeat split; auto using NoDup_nil_2.
Qed.

(** X2.  Every URL that [extractUrls] returns, as a page to follow or
    as an asset, passes the same-domain test, and neither list holds a
    URL twice. *)
Theorem extractUrls_returns_site_urls_once (html pageUrl : string) :
  (Forall (fun u => isSameDomain u = true) (fst (extractUrls html pageUrl))
   /\ NoDup (fst (extractUrls html pageUrl)))
  /\ (Forall (fun u => isSameDomain u = true) (snd (extractUrls html pageUrl))
      /\ NoDup (snd (extractUrls html pageUrl))).
Proof. exact (extractUrls_good html pageUrl). Qed.


(** *** The crawl stays on the site *)

#[local] Abbreviation Allowed := (Invariant.Allowed parseURL config).

Lemma requested_app (l1 l2 : list Crawler.Event) :
  Invariant.requested (l1 ++ l2)
    = Invariant.requested l1 ++ Invariant.requested l2.
Proof.
  induction l1 as [|[v|ms|v] l1 IH]; cbn [app Invariant.requested];
    [reflexivity| |assumption..].
  now rewrite IH.
Qed.

Lemma requested_retryTrace (url : string) (k : nat) (attempt : Z) :
  Invariant.requested (Spec.retryTrace url attempt k) = replicate (S k) url.
Proof.
  revert attempt. induction k as [|k IH]; intros attempt; [reflexivity|].
  cbn [Spec.retryTrace Invariant.requested]. now rewrite IH.
Qed.

Lemma fold_enqueueNew_queue (depth : Z) (l : list string) :
  forall (st : Crawler.State) (u : string),
    u ∈ Crawler.queuedUrls (fold_left (Crawler.enqueueNew depth) l st) ->
    u ∈ Crawler.queuedUrls st \/ u ∈ l.
Proof.
  induction l as [|x l IH]; intros st u; cbn [fold_left]; [now left|].
  intros [H|H]%IH; [|right; now apply list_elem_of_further].
  destruct (enqueueNew_cases depth st x) as [E|(_ & _ & E)];
    rewrite E in H; [now left|].
  fields. apply elem_of_app in H as [H| ->%list_elem_of_singleton];
    [now left|right; apply list_elem_of_here].
Qed.

Lemma fold_addAsset_assets (l : list string) :
  forall (st : Crawler.State) (u : string),
    u ∈ Crawler.assetUrls (fold_left Crawler.addAsset l st) ->
    u ∈ Crawler.assetUrls st \/ u ∈ l.
Proof.
  induction l as [|x l IH]; intros st u; cbn [fold_left]; [now left|].
  intros [H|H]%IH; [|right; now apply list_elem_of_further].
  unfold Crawler.addAsset in H. fields.
  apply add_spec in H as [H| ->]; [now left|right; apply list_elem_of_here].
Qed.

Lemma dispatch_queue url depth page st (u : string) :
  u ∈ Crawler.queuedUrls (dispatch url depth page st) ->
  u ∈ Crawler.queuedUrls st
  \/ u ∈ fst (extractUrls (Crawler.html page) url).
Proof.
  unfold Crawler.dispatch.
  destruct (decide (Crawler.status page = Crawler.SNum 200));
    [|destruct (decide _); now left].
  rewrite (fold_left_frame Crawler.queuedUrls) by reflexivity.
  intros [Hu|Hu]%fold_enqueueNew_queue; [now left|now right].
Qed.

Lemma dispatch_assets url depth page st (u : string) :
  u ∈ Crawler.assetUrls (dispatch url depth page st) ->
  u ∈ Crawler.assetUrls st \/ u = url
  \/ u ∈ snd (extractUrls (Crawler.html page) url).
Proof.
  unfold Crawler.dispatch.
  destruct (decide (Crawler.status page = Crawler.SNum 200));
    [|destruct (decide _)].
  - intros [Hu|Hu]%fold_addAsset_assets; [left|now right; right].
    rewrite (fold_left_frame Crawler.assetUrls) in Hu
      by (now apply enqueueNew_frame).
    exact Hu.
  - unfold Crawler.addAsset. fields.
    intros [Hu| ->]%add_spec; [now left|now right; left].
  - now left.
Qed.

Lemma extracted_allowed (html pageUrl u : string) :
  u ∈ fst (extractUrls html pageUrl) \/ u ∈ snd (extractUrls html pageUrl) ->
  Allowed u.
Proof.
  destruct (extractUrls_good html pageUrl)
    as [[Hu _] [Ha _]].
  intros [H|H]; right.
  - exact (proj1 (Forall_forall _ _) Hu u H).
  - exact (proj1 (Forall_forall _ _) Ha u H).
Qed.


Lemma iteration_OnSite (st st' : Crawler.State) (n n' : Z) :
  Crawler.queuedUrls st <> [] ->
  iteration st n = Some (st', n') ->
  Invariant.OnSite parseURL config st ->
  Invariant.OnSite parseURL config st'.
Proof.
  intros Hne Hit (Hq & Hv & Hl & Ha).
  destruct (Crawler.queuedUrls st) as [|url q] eqn:Hqueue; [congruence|].
  assert (Allowed url) as Hurl.
  { apply (proj1 (Forall_forall _ _) Hq). apply list_elem_of_here. }
  assert (Forall Allowed (Crawler.delete url (url :: q))) as Hq1.
  { apply Forall_forall. intros u [Hu _]%delete_subset.
    exact (proj1 (Forall_forall _ _) Hq u Hu). }
  destruct (iteration_cases st st' n n' url q Hqueue Hit)
    as [[-> _]|(Hnew & _ & _ & page & k & st3 & _ & -> & Hst')].
  { split; [|split; [|split]]; fields; assumption. }
  assert (Invariant.OnSite parseURL config
            (dispatch url (Crawler.getDepthForUrl url st) page
               (Crawler.set_log
                  (Crawler.log st
                     ++ Crawler.EVisit url :: Spec.retryTrace url 0 k)
                  (Crawler.set_visitedUrls (Crawler.visitedUrls st ++ [url])
                     (Crawler.set_queuedUrls
                        (Crawler.delete url (url :: q)) st))))) as Hst3.
  { split; [|split; [|split]].
    - apply Forall_forall. intros u [Hu|Hu]%dispatch_queue.
      + fields. exact (proj1 (Forall_forall _ _) Hq1 u Hu).
      + apply (extracted_allowed (Crawler.html page) url). now left.
    - rewrite dispatch_visitedUrls. fields.
      apply Forall_app. split; [exact Hv|]. now apply Forall_singleton.
    - rewrite dispatch_log. fields.
      rewrite requested_app. cbn [Invariant.requested].
      rewrite requested_retryTrace.
      apply Forall_app. split; [exact Hl|].
      apply Forall_forall. now intros u ->%elem_of_replicate_inv.
    - apply Forall_forall. intros u [Hu|[->|Hu]]%dispatch_assets.
      + fields. exact (proj1 (Forall_forall _ _) Ha u Hu).
      + exact Hurl.
      + apply (extracted_allowed (Crawler.html page) url). now right. }
  destruct Hst' as [->|[d ->]]; [exact Hst3|].
  destruct Hst3 as (H1 & H2 & H3 & H4).
  split; [|split; [|split]]; fields; try assumption.
  rewrite requested_app. cbn [Invariant.requested]. now rewrite app_nil_r.
Qed.

Lemma seeded_OnSite : Invariant.OnSite parseURL config (Crawler.seeded config).
Proof.
  unfold Crawler.seeded, Crawler.queueUrl. cbn.
  split; [|split; [|split]]; try apply Forall_nil_2.
  apply Forall_singleton. now left.
Qed.

Lemma crawl_OnSite (fuel : nat) (res : Crawler.CrawlResult)
    (st : Crawler.State) :
  crawl fuel = Some (res, st) -> Invariant.OnSite parseURL config st.
Proof.
  intros [_ [n Hloop]]%crawl_loop.
  exact (loop_invariant (fun s _ => Invariant.OnSite parseURL config s)
           ltac:(intros s k s' k' Hne _ Hit;
                 now apply (iteration_OnSite s s' k k'))
           fuel _ _ _ _ Hloop seeded_OnSite).
Qed.

(** X3.  A crawl requests, and lists as assets, only the start URL and
    URLs that pass the same-domain test. *)
Theorem crawl_stays_on_site (fuel : nat) (res : Crawler.CrawlResult)
    (st : Crawler.State) :
  crawl fuel = Some (res, st) ->
  forall u : string,
    u ∈ Invariant.requested (Crawler.log st) \/ u ∈ Crawler.assets res ->
    u = (Config.getSiteUrl config ++ "/")%string \/ isSameDomain u = true.
Proof.
  intros H. destruct (crawl_OnSite fuel res st H) as (_ & _ & Hl & Ha).
  apply crawl_loop in H as [-> _].
  intros u [Hu|Hu].
  - exact (proj1 (Forall_forall _ _) Hl u Hu).
  - exact (proj1 (Forall_forall _ _) Ha u Hu).
Qed.

(** *** The records of a crawl *)

Lemma dispatch_cases url depth page st :
  (Crawler.status page = Crawler.SNum 200
   /\ Crawler.crawledPages (dispatch url depth page st)
      = Crawler.crawledPages st
        ++ [ {| Crawler.page_url := url;
                Crawler.page_html := Crawler.html page;
                Crawler.page_status := Crawler.SNum 200;
                Crawler.page_depth := depth |} ]
   /\ Crawler.failedUrls (dispatch url depth page st)
      = Crawler.failedUrls st)
  \/ (Crawler.status page = Crawler.SStr "binary-asset"
      /\ Crawler.crawledPages (dispatch url depth page st)
         = Crawler.crawledPages st
      /\ Crawler.failedUrls (dispatch url depth page st)
         = Crawler.failedUrls st)
  \/ (Crawler.status page <> Crawler.SNum 200
      /\ Crawler.status page <> Crawler.SStr "binary-asset"
      /\ Crawler.crawledPages (dispatch url depth page st)
         = Crawler.crawledPages st
      /\ Crawler.failedUrls (dispatch url depth page st)
         = Crawler.failedUrls st
           ++ [ {| Crawler.failed_url := url;
                   Crawler.failed_status := Crawler.status page;
                   Crawler.failed_error := Crawler.error page |} ]).
Proof.
  destruct (decide (Crawler.status page = Crawler.SNum 200)) as [H200|H200];
    [|destruct (decide (Crawler.status page = Crawler.SStr "binary-asset"))
        as [Hbin|Hbin]].
  - left. split; [exact H200|].
    split; [now apply dispatch_page_crawledPages
           |now apply dispatch_page_failedUrls].
  - right; left. rewrite (dispatch_binary _ _ _ _ _ _ _ _ Hbin).
    now repeat split.
  - right; right. rewrite (dispatch_failure _ _ _ _ _ _ _ _ H200 Hbin).
    now repeat split.
Qed.

Lemma iteration_RecordsOk (st st' : Crawler.State) (n n' : Z) :
  Crawler.queuedUrls st <> [] ->
  iteration st n = Some (st', n') ->
  Invariant.RecordsOk st -> Invariant.RecordsOk st'.
Proof.
  intros Hne Hit (Hnd & Hsub & Hp & Hf).
  destruct (Crawler.queuedUrls st) as [|url q] eqn:Hqueue; [congruence|].
  destruct (iteration_cases st st' n n' url q Hqueue Hit)
    as [[-> _]|(Hnew & _ & _ & page & k & st3 & _ & -> & Hst')].
  { split; [|split; [|split]]; assumption. }
  match type of Hst' with
  | _ = ?d \/ _ => assert (Invariant.RecordsOk d) as Hst3
  end.
  { unfold Invariant.RecordsOk, Invariant.recorded.
    rewrite dispatch_visitedUrls.
    assert (url ∉ Invariant.recorded st) as Hfresh
      by (intros H; apply Hnew, Hsub, H).
    destruct (dispatch_cases url (Crawler.getDepthForUrl url st) page
                (Crawler.set_log
                   (Crawler.log st
                      ++ Crawler.EVisit url :: Spec.retryTrace url 0 k)
                   (Crawler.set_visitedUrls
                      (Crawler.visitedUrls st ++ [url])
                      (Crawler.set_queuedUrls
                         (Crawler.delete url (url :: q)) st))))
      as [(H200 & -> & ->)|[(Hbin & -> & ->)|(Hn200 & Hnbin & -> & ->)]];
      fields.
    - rewrite map_app. cbn [map Crawler.page_url].
      rewrite <- app_assoc. cbn [app].
      split; [|split; [|split]].
      + rewrite <- Permutation_middle. apply NoDup_cons. now split.
      + intros u Hu. apply elem_of_app.
        rewrite <- Permutation_middle in Hu.
        apply elem_of_cons in Hu as [->|Hu];
          [right; now apply list_elem_of_singleton|left; now apply Hsub].
      + apply Forall_app. split; [exact Hp|]. now apply Forall_singleton.
      + exact Hf.
    - split; [exact Hnd|]. split; [|now split].
      intros u Hu. apply elem_of_app. left. now apply Hsub.
    - rewrite map_app. cbn [map Crawler.failed_url].
      rewrite app_assoc.
      split; [|split; [|split]].
      + rewrite <- Permutation_cons_append. apply NoDup_cons. now split.
      + intros u Hu. apply elem_of_app.
        rewrite <- Permutation_cons_append in Hu.
        apply elem_of_cons in Hu as [->|Hu];
          [right; now apply list_elem_of_singleton|left; now apply Hsub].
      + exact Hp.
      + apply Forall_app. split; [exact Hf|]. now apply Forall_singleton. }
  destruct Hst' as [->|[d ->]]; exact Hst3.
Qed.

Lemma seeded_RecordsOk : Invariant.RecordsOk (Crawler.seeded config).
Proof.
  unfold Crawler.seeded, Crawler.queueUrl. cbn.
  split; [apply NoDup_nil_2|]. split; [intros u H; inversion H|].
  split; apply Forall_nil_2.
Qed.

Lemma iteration_Counted (st st' : Crawler.State) (n n' : Z) :
  Crawler.queuedUrls st <> [] ->
  Config.lt (Some n) (Config.num config "maxPages") = true ->
  iteration st n = Some (st', n') ->
  Invariant.Counted config st n -> Invariant.Counted config st' n'.
Proof.
  intros Hne Hlt Hit [Hlen Hcap].
  destruct (Crawler.queuedUrls st) as [|url q] eqn:Hqueue; [congruence|].
  destruct (iteration_cases st st' n n' url q Hqueue Hit)
    as [[-> ->]|(Hnew & _ & -> & page & k & st3 & _ & -> & Hst')].
  { now split. }
  split.
  - destruct Hst' as [->|[d ->]]; fields; rewrite dispatch_visitedUrls;
      fields; rewrite length_app; cbn [length]; lia.
  - right. unfold Config.lt in Hlt.
    destruct (Config.num config "maxPages") as [m|]; [|discriminate].
    exists m. split; [reflexivity|]. apply Z.ltb_lt in Hlt. lia.
Qed.

Lemma seeded_Counted : Invariant.Counted config (Crawler.seeded config) 0.
Proof.
  unfold Crawler.seeded, Crawler.queueUrl. cbn. split; [reflexivity|now left].
Qed.

(** *** The depth of the pages *)

Lemma enqueueNew_depths (depth : Z) (st : Crawler.State) (x : string) :
  0 <= depth ->
  (forall u d, Crawler.urlDepthMap st !! u = Some d -> 0 <= d) ->
  forall u d,
    Crawler.urlDepthMap (Crawler.enqueueNew depth st x) !! u = Some d ->
    0 <= d.
Proof.
  intros Hdepth H u d.
  destruct (enqueueNew_cases depth st x) as [->|(_ & _ & ->)]; [apply H|].
  fields. destruct (decide (x = u)) as [->|Hne].
  - rewrite lookup_insert_eq. intros [= <-]. lia.
  - rewrite lookup_insert_ne by exact Hne. apply H.
Qed.

Lemma iteration_DepthsOk (st st' : Crawler.State) (n n' : Z) :
  Crawler.queuedUrls st <> [] ->
  iteration st n = Some (st', n') ->
  Invariant.DepthsOk config st -> Invariant.DepthsOk config st'.
Proof.
  intros Hne Hit [Hmap Hpages].
  destruct (Crawler.queuedUrls st) as [|url q] eqn:Hqueue; [congruence|].
  destruct (iteration_cases st st' n n' url q Hqueue Hit)
    as [[-> _]|(Hnew & Hdepth & _ & page & k & st3 & _ & -> & Hst')].
  { now split. }
  assert (0 <= Crawler.getDepthForUrl url st) as Hpos.
  { unfold Crawler.getDepthForUrl.
    destruct (Crawler.urlDepthMap st !! url) as [d|] eqn:Hd; cbn; [|lia].
    exact (Hmap url d Hd). }
  match type of Hst' with
  | _ = ?d \/ _ => assert (Invariant.DepthsOk config d) as Hst3
  end.
  { split.
    - apply (dispatch_preserves
               (fun s => forall u d,
                    Crawler.urlDepthMap s !! u = Some d -> 0 <= d)).
      + intros s s' _ _ E. now rewrite E.
      + intros s x. now apply enqueueNew_depths.
      + exact Hmap.
    - match goal with
      | |- context [dispatch ?u ?d ?p ?s] =>
          destruct (dispatch_cases u d p s)
            as [(H200 & -> & _)|[(Hbin & -> & _)|(_ & _ & -> & _)]]
      end; fields; try exact Hpages.
      apply Forall_app. split; [exact Hpages|]. apply Forall_singleton.
      cbn [Crawler.page_depth]. split; [exact Hpos|].
      intros m Hm Hmpos. rewrite Hm in Hdepth.
      unfold Crawler.gt, Config.lt in Hdepth.
      apply andb_false_iff in Hdepth as [H|H]; apply Z.ltb_ge in H; lia. }
  destruct Hst' as [->|[d ->]]; exact Hst3.
Qed.

Lemma seeded_eq :
  Crawler.seeded config
  = Crawler.set_urlDepthMap
      (<[(Config.getSiteUrl config ++ "/")%string := 0]> ∅)
      (Crawler.set_queuedUrls [(Config.getSiteUrl config ++ "/")%string]
         Crawler.initial).
Proof. reflexivity. Qed.

Lemma seeded_DepthsOk : Invariant.DepthsOk config (Crawler.seeded config).
Proof.
  rewrite seeded_eq.
  generalize (Config.getSiteUrl config ++ "/")%string. intros seed.
  split; fields; [|apply Forall_nil_2].
  intros u d. destruct (decide (seed = u)) as [->|Hne].
  - rewrite lookup_insert_eq. intros [= <-]. lia.
  - rewrite lookup_insert_ne by exact Hne. now rewrite lookup_empty.
Qed.

(** X4.  With a positive [maxDepth], no page of the result lies deeper
    than [maxDepth], and no depth is negative. *)
Theorem pages_within_maxDepth (fuel : nat) (res : Crawler.CrawlResult)
    (st : Crawler.State) (m : Z) :
  Config.num config "maxDepth" = Some m -> 0 < m ->
  crawl fuel = Some (res, st) ->
  Forall (fun p => 0 <= Crawler.page_depth p <= m) (Crawler.pages res).
Proof.
  intros Hm Hpos [-> [n Hloop]]%crawl_loop.
  destruct (loop_invariant (fun s _ => Invariant.DepthsOk config s)
              ltac:(intros s k s' k' Hne _ Hit;
                    now apply (iteration_DepthsOk s s' k k'))
              fuel _ _ _ _ Hloop seeded_DepthsOk) as [_ Hpages].
  cbn [Crawler.result Crawler.pages].
  eapply Forall_impl; [exact Hpages|].
  intros p [H0 H]. split; [exact H0|now apply (H m)].
Qed.

Lemma crawl_RecordsOk (fuel : nat) (res : Crawler.CrawlResult)
    (st : Crawler.State) :
  crawl fuel = Some (res, st) -> Invariant.RecordsOk st.
Proof.
  intros [_ [n Hloop]]%crawl_loop.
  exact (loop_invariant (fun s _ => Invariant.RecordsOk s)
           ltac:(intros s k s' k' Hne _ Hit;
                 now apply (iteration_RecordsOk s s' k k'))
           fuel _ _ _ _ Hloop seeded_RecordsOk).
Qed.

(** The records are no more than the visited URLs. *)
Lemma crawl_records_bound (fuel : nat) (res : Crawler.CrawlResult)
    (st : Crawler.State) :
  crawl fuel = Some (res, st) ->
  (Crawler.pagesCrawled res + Crawler.failureCount res
     <= length (Crawler.visitedUrls st))%nat.
Proof.
  intros H. destruct (crawl_RecordsOk fuel res st H) as (Hnd & Hsub & _ & _).
  apply crawl_loop in H as [-> _].
  cbn [Crawler.result Crawler.pagesCrawled Crawler.failureCount].
  assert (length (Invariant.recorded st)
            <= length (Crawler.visitedUrls st))%nat as Hle.
  { apply submseteq_length, NoDup_submseteq; assumption. }
  unfold Invariant.recorded in Hle.
  now rewrite length_app, !length_map in Hle.
Qed.

(** X5.  No URL has two records in the result of a crawl, be it as a
    page or as a failure; every record is of a visited URL; the pages
    carry status 200, and the failures a status that is neither 200 nor
    [binary-asset]. *)
Theorem one_record_per_visited_url (fuel : nat) (res : Crawler.CrawlResult)
    (st : Crawler.State) :
  crawl fuel = Some (res, st) ->
  NoDup (map Crawler.page_url (Crawler.pages res)
         ++ map Crawler.failed_url (Crawler.failed res))
  /\ (forall u,
        u ∈ map Crawler.page_url (Crawler.pages res)
            ++ map Crawler.failed_url (Crawler.failed res) ->
        u ∈ Crawler.visitedUrls st)
  /\ Forall (fun p => Crawler.page_status p = Crawler.SNum 200)
       (Crawler.pages res)
  /\ Forall (fun f => Crawler.failed_status f <> Crawler.SNum 200
                      /\ Crawler.failed_status f
                         <> Crawler.SStr "binary-asset")
       (Crawler.failed res).
Proof.
  intros H. pose proof (crawl_RecordsOk fuel res st H) as Hrec.
  apply crawl_loop in H as [-> _]. exact Hrec.
Qed.

(** X6.  The pages and failures of a crawl are no more than the URLs
    visited, and these are no more than [maxPages]; with a [maxPages]
    that is not a number, nothing is visited. *)
Theorem visited_within_maxPages (fuel : nat) (res : Crawler.CrawlResult)
    (st : Crawler.State) :
  crawl fuel = Some (res, st) ->
  (Crawler.pagesCrawled res + Crawler.failureCount res
     <= length (Crawler.visitedUrls st))%nat
  /\ match Config.num config "maxPages" with
     | Some m => Z.of_nat (length (Crawler.visitedUrls st)) <= Z.max 0 m
     | None => Crawler.visitedUrls st = []
     end.
Proof.
  intros H. split; [exact (crawl_records_bound fuel res st H)|].
  apply crawl_loop in H as [_ [n Hloop]].
  destruct (loop_invariant (Invariant.Counted config)
              ltac:(intros s k s' k'; apply iteration_Counted)
              fuel _ _ _ _ Hloop seeded_Counted)
    as [Hlen Hcap].
  destruct Hcap as [->|(m & -> & Hm)].
  - destruct (Config.num config "maxPages"); [lia|].
    now apply nil_length_inv, Nat2Z.inj.
  - lia.
Qed.

End CrawlInvariants.



Lemma queue_and_visited_stay_apart_witness :
  exists res st,
    Crawler.crawl Url.simpleParse Sample.absoluteOnly Sample.cycleSelect
      Sample.cycleSite Sample.linkedConfig 5 = Some (res, st)
    /\ Crawler.visitedUrls st = [Sample.pageA; Sample.pageB]
    /\ NoDup (Crawler.queuedUrls st)
    /\ NoDup (Crawler.visitedUrls st)
    /\ (forall u, u ∈ Crawler.queuedUrls st -> u ∉ Crawler.visitedUrls st).
Proof.
  destruct (Crawler.crawl Url.simpleParse Sample.absoluteOnly
              Sample.cycleSelect Sample.cycleSite Sample.linkedConfig 5)
    as [[res st]|] eqn:H; [|vm_compute in H; discriminate].
  exists res, st. split; [reflexivity|].
  split; [vm_compute in H; injection H as <- <-; reflexivity|].
  exact (queue_and_visited_stay_apart Url.simpleParse Sample.absoluteOnly
           Sample.cycleSelect Sample.cycleSite Sample.linkedConfig 5 res st H).
Defined.

Lemma crawl_stays_on_site_witness :
  exists res st,
    Crawler.crawl Url.simpleParse Sample.absoluteOnly Sample.cycleSelect
      Sample.cycleSite Sample.linkedConfig 5 = Some (res, st)
    /\ Sample.pageB ∈ Invariant.requested (Crawler.log st)
    /\ (Sample.pageB
          = (Config.getSiteUrl Sample.linkedConfig ++ "/")%string
        \/ Crawler.isSameDomain Url.simpleParse Sample.linkedConfig
             Sample.pageB = true).
Proof.
  destruct (Crawler.crawl Url.simpleParse Sample.absoluteOnly
              Sample.cycleSelect Sample.cycleSite Sample.linkedConfig 5)
    as [[res st]|] eqn:H; [|vm_compute in H; discriminate].
  exists res, st. split; [reflexivity|].
  assert (Sample.pageB ∈ Invariant.requested (Crawler.log st)) as Hin.
  { vm_compute in H. injection H as <- <-.
    cbn [Crawler.log Invariant.requested].
    apply list_elem_of_further, list_elem_of_here. }
  split; [exact Hin|].
  exact (crawl_stays_on_site Url.simpleParse Sample.absoluteOnly
           Sample.cycleSelect Sample.cycleSite Sample.linkedConfig 5 res st H
           Sample.pageB (or_introl Hin)).
Defined.

Lemma pages_within_maxDepth_witness :
  exists res st,
    Config.num Sample.shallowConfig "maxDepth" = Some 1
    /\ Crawler.crawl Url.simpleParse Sample.absoluteOnly Sample.chainSelect
         Sample.chainSite Sample.shallowConfig 5 = Some (res, st)
    /\ map Crawler.page_url (Crawler.pages res) = [Sample.pageA; Sample.pageB]
    /\ Forall (fun p => 0 <= Crawler.page_depth p <= 1) (Crawler.pages res).
Proof.
  destruct (Crawler.crawl Url.simpleParse Sample.absoluteOnly
              Sample.chainSelect Sample.chainSite Sample.shallowConfig 5)
    as [[res st]|] eqn:H; [|vm_compute in H; discriminate].
  exists res, st. split; [vm_compute; reflexivity|]. split; [reflexivity|].
  split; [vm_compute in H; injection H as <- <-; reflexivity|].
  apply (pages_within_maxDepth Url.simpleParse Sample.absoluteOnly
           Sample.chainSelect Sample.chainSite Sample.shallowConfig 5 res
           st 1); [vm_compute; reflexivity|lia|exact H].
Defined.

Lemma one_record_per_visited_url_witness :
  exists res st,
    Crawler.crawl Url.simpleParse Sample.absoluteOnly Sample.cycleSelect
      Sample.cycleSite Sample.linkedConfig 5 = Some (res, st)
    /\ map Crawler.page_url (Crawler.pages res) = [Sample.pageA; Sample.pageB]
    /\ NoDup (map Crawler.page_url (Crawler.pages res)
              ++ map Crawler.failed_url (Crawler.failed res)).
Proof.
  destruct (Crawler.crawl Url.simpleParse Sample.absoluteOnly
              Sample.cycleSelect Sample.cycleSite Sample.linkedConfig 5)
    as [[res st]|] eqn:H; [|vm_compute in H; discriminate].
  exists res, st. split; [reflexivity|].
  split; [vm_compute in H; injection H as <- <-; reflexivity|].
  exact (proj1 (one_record_per_visited_url Url.simpleParse
                  Sample.absoluteOnly Sample.cycleSelect Sample.cycleSite
                  Sample.linkedConfig 5 res st H)).
Defined.

Lemma visited_within_maxPages_witness :
  exists res st,
    Crawler.crawl Url.simpleParse Sample.absoluteOnly Sample.cycleSelect
      Sample.cycleSite Sample.linkedConfig 5 = Some (res, st)
    /\ Config.num Sample.linkedConfig "maxPages" = Some 10000
    /\ (Crawler.pagesCrawled res + Crawler.failureCount res
          <= length (Crawler.visitedUrls st))%nat
    /\ Z.of_nat (length (Crawler.visitedUrls st)) <= 10000.
Proof.
  destruct (Crawler.crawl Url.simpleParse Sample.absoluteOnly
              Sample.cycleSelect Sample.cycleSite Sample.linkedConfig 5)
    as [[res st]|] eqn:H; [|vm_compute in H; discriminate].
  exists res, st. split; [reflexivity|].
  assert (Config.num Sample.linkedConfig "maxPages" = Some 10000) as Hm
    by (vm_compute; reflexivity).
  split; [exact Hm|].
  destruct (visited_within_maxPages Url.simpleParse Sample.absoluteOnly
              Sample.cycleSelect Sample.cycleSite Sample.linkedConfig 5 res
              st H) as [Hle Hcap].
  split; [exact Hle|]. rewrite Hm in Hcap. lia.
Defined.

(** ** The configuration *)

Section Configuration.

Lemma envOr_truthy (env : gmap string string) (name fallback : string) :
  JS.truthy fallback = true ->
  JS.truthy (Config.envOr env name fallback) = true.
Proof.
  intros H. unfold Config.envOr, JS.orElse.
  destruct (env !! name) as [v|]; [|exact H].
  destruct (JS.truthy v) eqn:Hv; [exact Hv|exact H].
Qed.

Lemma assign_num (env : gmap string string) :
  Config.num (Config.assign env) "crawlDelay"
    = Config.parseInt (Config.envOr env "CRAWL_DELAY" "500")
  /\ Config.num (Config.assign env) "maxDepth"
     = Config.parseInt (Config.envOr env "MAX_DEPTH" "0")
  /\ Config.num (Config.assign env) "maxPages"
     = Config.parseInt (Config.envOr env "MAX_PAGES" "10000")
  /\ Config.num (Config.assign env) "connectTimeout"
     = Config.parseInt (Config.envOr env "CONNECT_TIMEOUT" "10000")
  /\ Config.num (Config.assign env) "readTimeout"
     = Config.parseInt (Config.envOr env "READ_TIMEOUT" "30000")
  /\ Config.num (Config.assign env) "maxRetries"
     = Config.parseInt (Config.envOr env "MAX_RETRIES" "3").
Proof.
  unfold Config.num, Config.get, Config.assign.
  repeat split;
    repeat (rewrite lookup_insert_ne by discriminate);
    now rewrite lookup_insert_eq.
Qed.

Lemma assign_hosts (env : gmap string string) :
  Config.get (Config.assign env) "siteHost"
    = JS.JStr (Config.envOr env "SITE_HOST" "localhost")
  /\ Config.get (Config.assign env) "siteIp"
     = JS.JStr (Config.envOr env "SITE_IP" "127.0.0.1").
Proof.
  unfold Config.get, Config.assign.
  split;
    repeat (rewrite lookup_insert_ne by discriminate);
    now rewrite lookup_insert_eq.
Qed.

(** X7.  The constructor throws only for a crawl delay or a number of
    retries that is a negative number.  The two tests of the host never
    fail, for an empty host falls back on its default; and a setting
    that is not a number is accepted. *)
Theorem constructor_rejects_negative_numbers_only
    (env : gmap string string) :
  Config.CrawlerConfig env
  = if Config.lt (Config.parseInt (Config.envOr env "CRAWL_DELAY" "500"))
         (Some 0)
    then Throw "CRAWL_DELAY must be >= 0"
    else if Config.lt (Config.parseInt (Config.envOr env "MAX_RETRIES" "3"))
              (Some 0)
    then Throw "MAX_RETRIES must be >= 0"
    else Ok (Config.assign env).
Proof.
  unfold Config.CrawlerConfig, Config.validate.
  destruct (assign_hosts env) as [-> ->].
  destruct (assign_num env) as (-> & _ & _ & _ & _ & ->).
  cbn [Config.falsy].
  rewrite !envOr_truthy by reflexivity. cbn [negb].
  repeat destruct (Config.lt _ _); reflexivity.
Qed.

(** *** Reading a number back *)

Lemma isDigit_char (d : N) :
  (d < 10)%N ->
  Config.isDigit (pretty_N_char d) = true
  /\ Z.of_nat (JS.code (pretty_N_char d) - 48) = Z.of_N d.
Proof.
  intros H.
  destruct d as [|p]; [now split|].
  do 4 (destruct p as [p|p|]; try (now split); try lia).
Qed.

Lemma parseDigits_pretty (x : N) :
  forall (s : string) (acc : option Z),
    (0 < x)%N -> default 0 acc = 0 ->
    Config.parseDigits acc (pretty_N_go x s)
      = Config.parseDigits (Some (Z.of_N x)) s.
Proof.
  induction x as [x IH] using (well_founded_induction N.lt_wf_0).
  intros s acc Hx Hacc.
  rewrite pretty_N_go_step by exact Hx.
  destruct (isDigit_char (x `mod` 10)) as [Hd Hv];
    [now apply N.mod_lt|].
  assert (Z.of_N x = 10 * Z.of_N (x `div` 10) + Z.of_N (x `mod` 10)) as Hx10.
  { rewrite (N.div_mod x 10) at 1 by lia.
    rewrite N2Z.inj_add, N2Z.inj_mul. reflexivity. }
  destruct (decide (x `div` 10 = 0)%N) as [H0|H0].
  - rewrite H0, pretty_N_go_0. cbn [Config.parseDigits].
    rewrite Hd, Hacc, Hv, Hx10, H0. reflexivity.
  - rewrite (IH (x `div` 10)%N);
      [| |now apply N.neq_0_lt_0|exact Hacc].
    + cbn [Config.parseDigits]. rewrite Hd. cbn [default].
      now rewrite Hv, Hx10.
    + apply N.div_lt; lia.
Qed.

Lemma pretty_N_go_head (x : N) :
  forall s : string,
    (0 < x)%N ->
    exists c r, pretty_N_go x s = String c r /\ Config.isDigit c = true.
Proof.
  induction x as [x IH] using (well_founded_induction N.lt_wf_0).
  intros s Hx. rewrite pretty_N_go_step by exact Hx.
  destruct (decide (x `div` 10 = 0)%N) as [H0|H0].
  - rewrite H0, pretty_N_go_0. eexists _, _. split; [reflexivity|].
    apply isDigit_char. now apply N.mod_lt.
  - apply IH; [apply N.div_lt; lia|now apply N.neq_0_lt_0].
Qed.

Lemma digit_plain (c : ascii) :
  Config.isDigit c = true ->
  JS.isSpace c = false /\ Ascii.eqb c "-" = false /\ Ascii.eqb c "+" = false.
Proof.
  unfold Config.isDigit, JS.isSpace, JS.between, JS.code.
  intros [H1%Nat.leb_le H2%Nat.leb_le]%andb_true_iff.
  repeat split.
  - repeat (apply orb_false_iff; split);
      try (apply andb_false_iff; right); try apply Nat.leb_gt;
      try apply Nat.eqb_neq; lia.
  - apply Ascii.eqb_neq. intros ->. apply Nat.leb_le in H1.
    vm_compute in H1. discriminate.
  - apply Ascii.eqb_neq. intros ->. apply Nat.leb_le in H1.
    vm_compute in H1. discriminate.
Qed.

Lemma parseInt_pretty_N (x : N) :
  Config.parseInt (pretty x) = Some (Z.of_N x).
Proof.
  unfold pretty, pretty_N. case_decide as H0; [now subst|].
  destruct (pretty_N_go_head x "" ltac:(lia)) as (c & r & E & Hc).
  destruct (digit_plain c Hc) as (Hs & Hm & Hp).
  unfold Config.parseInt. rewrite E. cbn [JS.trimStart].
  rewrite Hs, Hm, Hp, <- E.
  rewrite (parseDigits_pretty x "" None) by (reflexivity || lia).
  reflexivity.
Qed.

Lemma pretty_pos (p : positive) :
  pretty (N.pos p) = pretty_N_go (N.pos p) "".
Proof. unfold pretty, pretty_N. now rewrite decide_False. Qed.

Lemma parseInt_pretty (n : Z) : Config.parseInt (pretty n) = Some n.
Proof.
  destruct n as [|p|p]; [reflexivity|exact (parseInt_pretty_N (N.pos p))|].
  change (pretty (Z.neg p)) with (String "-" (pretty (N.pos p))).
  unfold Config.parseInt. cbn [JS.trimStart].
  change (JS.isSpace "-") with false. cbv iota.
  change (Ascii.eqb "-" "-") with true. cbv iota.
  rewrite pretty_pos.
  rewrite (parseDigits_pretty (N.pos p) "" None) by (reflexivity || lia).
  reflexivity.
Qed.

Lemma pretty_truthy (n : Z) : JS.truthy (pretty n) = true.
Proof.
  destruct n as [|p|p]; [reflexivity| |reflexivity].
  change (pretty (Z.pos p)) with (pretty (N.pos p)). rewrite pretty_pos.
  destruct (pretty_N_go_head (N.pos p) "" ltac:(lia)) as (c & r & -> & _).
  reflexivity.
Qed.

(** X8.  Each numeric setting is read back from the decimal numeral of
    an integer as that integer, within the range in which the numbers
    of the language are exact. *)
Theorem numeric_settings_read_back (env : gmap string string) (n : Z) :
  Z.abs n <= 2 ^ 53 ->
  Forall
    (fun setting =>
       Config.num (Config.assign (<[fst setting := pretty n]> env))
         (snd setting) = Some n)
    Invariant.numericSettings.
Proof.
  intros _.
  assert (forall name fallback,
            Config.parseInt
              (Config.envOr (<[name := pretty n]> env) name fallback)
            = Some n) as Hread.
  { intros name fallback. unfold Config.envOr, JS.orElse.
    rewrite lookup_insert_eq, pretty_truthy. apply parseInt_pretty. }
  unfold Invariant.numericSettings.
  repeat (apply Forall_cons; split); [..|apply Forall_nil_2];
    cbn [fst snd].
  - destruct (assign_num (<["CRAWL_DELAY" := pretty n]> env))
      as (-> & _). apply Hread.
  - destruct (assign_num (<["MAX_DEPTH" := pretty n]> env))
      as (_ & -> & _). apply Hread.
  - destruct (assign_num (<["MAX_PAGES" := pretty n]> env))
      as (_ & _ & -> & _). apply Hread.
  - destruct (assign_num (<["CONNECT_TIMEOUT" := pretty n]> env))
      as (_ & _ & _ & -> & _). apply Hread.
  - destruct (assign_num (<["READ_TIMEOUT" := pretty n]> env))
      as (_ & _ & _ & _ & -> & _). apply Hread.
  - destruct (assign_num (<["MAX_RETRIES" := pretty n]> env))
      as (_ & _ & _ & _ & _ & ->). apply Hread.
Qed.

End Configuration.

Lemma numeric_settings_read_back_witness :
  Z.abs 250 <= 2 ^ 53
  /\ pretty 250 = "250"
  /\ Config.num (Config.assign (<["CRAWL_DELAY" := "250"]> Sample.env))
       "crawlDelay" = Some 250.
Proof.
  assert (Z.abs 250 <= 2 ^ 53) as H by (vm_compute; discriminate).
  split; [exact H|]. split; [reflexivity|].
  exact (Forall_inv (numeric_settings_read_back Sample.env 250 H)).
Defined.

(** ** The crawl that the program runs *)

Section ProgramCrawl.
#[local] Open Scope list_scope.

Variable parseURL : string -> option Url.URL.
Variable resolveURL : string -> string -> option string.
Variable cheerioSelect : string -> string -> list Dom.Node.
Variable httpGet : list Crawler.Event -> string -> Crawler.NetResult.

Lemma NoDup_constant (x : string) (l : list string) :
  NoDup l -> Forall (fun u => u = x) l -> (length l <= 1)%nat.
Proof.
  destruct l as [|a [|b l]]; cbn [length]; [lia..|].
  intros Hnd Hall. exfalso.
  apply NoDup_cons in Hnd as [Hnot _].
  apply Forall_cons in Hall as [-> Hall].
  apply Forall_cons in Hall as [-> _].
  apply Hnot, list_elem_of_here.
Qed.

(** X9.  With the configuration that the constructor builds, a crawl
    requests no URL but the start URL: it visits at most one URL and its
    result holds at most one record, whatever the pages link to. *)
Theorem configured_crawl_stops_at_start_page (env : gmap string string)
    (cfg : gmap string JS.JSVal) (fuel : nat) (res : Crawler.CrawlResult)
    (st : Crawler.State) :
  Config.CrawlerConfig env = Ok cfg ->
  Crawler.crawl parseURL resolveURL cheerioSelect httpGet cfg fuel
    = Some (res, st) ->
  Forall (fun u => u = (Config.getSiteUrl cfg ++ "/")%string)
    (Invariant.requested (Crawler.log st) ++ Crawler.assets res)
  /\ (length (Crawler.visitedUrls st) <= 1)%nat
  /\ (Crawler.pagesCrawled res + Crawler.failureCount res <= 1)%nat.
Proof.
  intros Hcfg Hcrawl. rewrite (CrawlerConfig_assign env cfg Hcfg) in *.
  assert (forall l, Forall (Invariant.Allowed parseURL (Config.assign env)) l ->
                    Forall (fun u => u = (Config.getSiteUrl (Config.assign env)
                                            ++ "/")%string) l) as Hseed.
  { intros l H. apply (Forall_impl _ _ _ H). intros u [Hu|Hu]; [exact Hu|].
    now rewrite isSameDomain_without_siteHostname in Hu. }
  destruct (crawl_OnSite _ _ _ _ _ _ _ _ Hcrawl) as (_ & Hv & Hl & Ha).
  destruct (crawl_Separated _ _ _ _ _ _ _ _ Hcrawl) as (_ & Hnd & _).
  pose proof (crawl_records_bound _ _ _ _ _ _ _ _ Hcrawl) as Hrec.
  pose proof (NoDup_constant _ _ Hnd (Hseed _ Hv)) as Hone.
  split; [|split; [exact Hone|lia]].
  apply Forall_app. split; [exact (Hseed _ Hl)|].
  apply crawl_loop in Hcrawl as [-> _]. exact (Hseed _ Ha).
Qed.

End ProgramCrawl.

Lemma configured_crawl_stops_at_start_page_witness :
  exists res st,
    Config.CrawlerConfig Sample.env = Ok Sample.config
    /\ Crawler.crawl Url.simpleParse Sample.absoluteOnly Sample.cycleSelect
         Sample.cycleSite Sample.config 5 = Some (res, st)
    /\ Crawler.visitedUrls st = [Sample.pageA]
    /\ (Crawler.pagesCrawled res + Crawler.failureCount res <= 1)%nat.
Proof.
  assert (Config.CrawlerConfig Sample.env = Ok Sample.config) as Hcfg
    by (vm_compute; reflexivity).
  destruct (Crawler.crawl Url.simpleParse Sample.absoluteOnly
              Sample.cycleSelect Sample.cycleSite Sample.config 5)
    as [[res st]|] eqn:H; [|vm_compute in H; discriminate].
  exists res, st. split; [exact Hcfg|]. split; [reflexivity|].
  split; [vm_compute in H; injection H as <- <-; reflexivity|].
  exact (proj2 (proj2 (configured_crawl_stops_at_start_page Url.simpleParse
                         Sample.absoluteOnly Sample.cycleSelect
                         Sample.cycleSite Sample.env Sample.config 5 res st
                         Hcfg H))).
Defined.

(** ** The logger *)

Section Logging.

(** X10.  No logger prints a [debug] message, whatever level it was
    made with: level [DEBUG] is 0, which the constructor takes for a
    missing level and replaces by [INFO]. *)
Theorem debug_never_prints (constructedWith : string) :
  Logger.debug constructedWith = false
  /\ forall level : string,
       Logger.prints "DEBUG" level = Logger.prints "INFO" level.
Proof.
  split; [|reflexivity].
  unfold Logger.debug, Logger.prints, Logger.threshold.
  change (Logger.ownLevel "DEBUG") with (Some 0).
  destruct (Logger.ownLevel constructedWith) as [n|] eqn:Hn.
  - destruct (Z.eqb n 0) eqn:H0; [reflexivity|].
    unfold Logger.ownLevel in Hn.
    repeat (destruct (String.eqb constructedWith _);
            [injection Hn as <-; try reflexivity; discriminate|]).
    discriminate.
  - now case_bool_decide.
Qed.

End Logging.

(** ** The file manager *)

Section Store.

Variable parseURL : string -> option Url.URL.
Variable md5hex : string -> string.
Variable cwd : string.

#[local] Abbreviation savePage := (FileManager.savePage parseURL md5hex).
#[local] Abbreviation saveAssetAtPath :=
  (FileManager.saveAssetAtPath md5hex cwd).
#[local] Abbreviation saveAsset := (FileManager.saveAsset parseURL md5hex).
#[local] Abbreviation getPageFilePath :=
  (FileManager.getPageFilePath parseURL md5hex).
#[local] Abbreviation run := (FileManager.run parseURL md5hex cwd).
#[local] Abbreviation runAll := (FileManager.runAll parseURL md5hex cwd).

#[local] Ltac store_fields :=
  cbn [FileManager.recordAsset FileManager.writeFileSync
       FileManager.countPage FileManager.initializeSnapshot
       FileManager.create
       FileManager.assetMap FileManager.assetCount FileManager.pageCount
       FileManager.writes FileManager.disk FileManager.snapshotDir
       FileManager.outputDir] in *.

Lemma recordAsset_StoreOk (h path data : string)
    (r : FileManager.AssetRecord) (fm : FileManager.State) :
  FileManager.assetMap fm !! h = None ->
  FileManager.recordHash r = h ->
  Invariant.StoreOk fm ->
  Invariant.StoreOk
    (FileManager.recordAsset h r (FileManager.writeFileSync path data fm)).
Proof.
  intros Hfresh Hr (Hsize & Hkeys & Hwrites).
  split; [|split]; store_fields.
  - rewrite map_size_insert_None by exact Hfresh. lia.
  - apply map_Forall_insert_2; assumption.
  - rewrite length_app. cbn [length]. lia.
Qed.

Lemma run_StoreOk (c : FileManager.Call) (fm fm' : FileManager.State)
    (r : option FileManager.AssetRecord) :
  run c fm = Ok (r, fm') ->
  Invariant.StoreOk fm -> Invariant.StoreOk fm'.
Proof.
  intros Hrun Hok.
  destruct c as [url html|relPath fileBuffer|assetUrl fileBuffer mimeType];
    cbn [FileManager.run] in Hrun.
  - unfold FileManager.savePage in Hrun.
    destruct (FileManager.snapshotDir fm); [|discriminate].
    injection Hrun as _ <-. destruct Hok as (Hsize & Hkeys & Hwrites).
    split; [|split]; store_fields; [assumption..|].
    rewrite length_app. cbn [length]. lia.
  - unfold FileManager.saveAssetAtPath in Hrun.
    destruct (FileManager.snapshotDir fm); [|discriminate].
    destruct (negb _); [now injection Hrun as _ <-|].
    destruct (FileManager.assetMap fm !! md5hex fileBuffer) eqn:Hm;
      injection Hrun as _ <-; [exact Hok|].
    now apply recordAsset_StoreOk.
  - unfold FileManager.saveAsset in Hrun.
    destruct (FileManager.snapshotDir fm); [|discriminate].
    destruct (FileManager.assetMap fm !! md5hex fileBuffer) eqn:Hm;
      injection Hrun as _ <-; [exact Hok|].
    now apply recordAsset_StoreOk.
Qed.

Lemma runAll_StoreOk (cs : list FileManager.Call) :
  forall fm : FileManager.State,
    Invariant.StoreOk fm -> Invariant.StoreOk (runAll cs fm).
Proof.
  induction cs as [|c cs IH]; intros fm Hok; [exact Hok|].
  cbn [FileManager.runAll fold_left]. apply IH.
  unfold FileManager.runCaught.
  destruct (run c fm) as [[r fm']|m] eqn:Hrun; [|exact Hok].
  exact (run_StoreOk c fm fm' r Hrun Hok).
Qed.

(** X11.  Whatever calls a file manager receives after its snapshot
    was initialised, the asset count of its summary equals the size of
    the asset map, every record is kept under its own content hash, and
    the files written are as many as the pages and assets counted. *)
Theorem summary_counts_agree (dir timestamp : string)
    (files : gmap string string) (cs : list FileManager.Call) :
  let summary :=
    FileManager.getSummary
      (runAll cs
         (FileManager.initializeSnapshot timestamp
            (FileManager.create dir files))) in
  FileManager.assetsCount summary = Z.of_nat (FileManager.totalAssets summary)
  /\ map_Forall (fun h r => FileManager.recordHash r = h)
       (FileManager.assetMap
          (runAll cs
             (FileManager.initializeSnapshot timestamp
                (FileManager.create dir files))))
  /\ Z.of_nat
       (length
          (FileManager.writes
             (runAll cs
                (FileManager.initializeSnapshot timestamp
                   (FileManager.create dir files)))))
     = FileManager.pagesCount summary + FileManager.assetsCount summary.
Proof.
  destruct (runAll_StoreOk cs
              (FileManager.initializeSnapshot timestamp
                 (FileManager.create dir files)))
    as (Hsize & Hkeys & Hwrites).
  { split; [|split]; store_fields; [reflexivity| |reflexivity].
    apply map_Forall_empty. }
  cbn zeta.
  cbn [FileManager.getSummary FileManager.assetsCount
       FileManager.totalAssets FileManager.pagesCount].
  split; [now rewrite Hsize|]. split; [exact Hkeys|exact Hwrites].
Qed.

(** *** Two pages, one file *)



(** *** Two contents, one path *)

(** X13.  When [saveAssetAtPath] stores new content at a path at which
    it has stored other content before, the file is overwritten while
    the record of the earlier content stays in the asset map, and both
    are counted. *)
Theorem later_content_replaces_recorded_file
    (relPath bytes1 bytes2 : string) (fm fm1 : FileManager.State)
    (r1 : FileManager.AssetRecord) :
  FileManager.assetMap fm !! md5hex bytes1 = None ->
  FileManager.assetMap fm !! md5hex bytes2 = None ->
  md5hex bytes1 <> md5hex bytes2 ->
  saveAssetAtPath relPath bytes1 fm = Ok (Some r1, fm1) ->
  exists (file : string) (r2 : FileManager.AssetRecord)
         (fm2 : FileManager.State),
    FileManager.writes fm1 = (FileManager.writes fm ++ [file])%list
    /\ FileManager.disk fm1 !! file = Some bytes1
    /\ saveAssetAtPath relPath bytes2 fm1 = Ok (Some r2, fm2)
    /\ FileManager.writes fm2 = (FileManager.writes fm1 ++ [file])%list
    /\ FileManager.disk fm2 !! file = Some bytes2
    /\ FileManager.assetMap fm2 !! md5hex bytes1 = Some r1
    /\ FileManager.assetCount fm2 = FileManager.assetCount fm + 2.
Proof.
  intros Hfresh1 Hfresh2 Hne. unfold FileManager.saveAssetAtPath.
  destruct (FileManager.snapshotDir fm) as [dir|] eqn:Hdir; [|discriminate].
  destruct (negb _) eqn:Hguard; [discriminate|].
  rewrite Hfresh1. intros [= <- <-]. store_fields.
  rewrite Hdir, Hguard.
  rewrite lookup_insert_ne by exact Hne. rewrite Hfresh2.
  eexists _, _, _. split; [reflexivity|].
  split; [apply lookup_insert_eq|]. split; [reflexivity|].
  store_fields. split; [reflexivity|].
  split; [apply lookup_insert_eq|].
  split; [|lia].
  rewrite lookup_insert_ne by (intros E; apply Hne; now symmetry).
  apply lookup_insert_eq.
Qed.

End Store.


Lemma later_content_replaces_recorded_file_witness :
  exists r1 fm1 r2 fm2,
    FileManager.saveAssetAtPath Sample.plainHash Sample.cwd "/files/logo.png"
      "old" Sample.fileManager = Ok (Some r1, fm1)
    /\ FileManager.saveAssetAtPath Sample.plainHash Sample.cwd
         "/files/logo.png" "new" fm1 = Ok (Some r2, fm2)
    /\ FileManager.assetMap fm2 !! "old" = Some r1
    /\ r1 = FileManager.AtPath "files/logo.png" "old"
    /\ FileManager.disk fm2 !! "/output/2024-01-01_00-00-00/files/logo.png"
       = Some "new".
Proof.
  destruct (FileManager.saveAssetAtPath Sample.plainHash Sample.cwd
              "/files/logo.png" "old" Sample.fileManager)
    as [[[r1|] fm1]|] eqn:H1; try (vm_compute in H1; discriminate).
  destruct (later_content_replaces_recorded_file Sample.plainHash Sample.cwd
              "/files/logo.png" "old" "new" Sample.fileManager fm1 r1
              eq_refl eq_refl ltac:(discriminate) H1)
    as (file & r2 & fm2 & Hw1 & _ & H2 & _ & Hdisk & Hmap & _).
  exists r1, fm1, r2, fm2. split; [reflexivity|]. split; [exact H2|].
  split; [exact Hmap|].
  assert (r1 = FileManager.AtPath "files/logo.png" "old"
          /\ file = "/output/2024-01-01_00-00-00/files/logo.png")
    as [Hr Hfile].
  { vm_compute in H1. injection H1 as <- <-.
    cbn [FileManager.writes app] in Hw1. injection Hw1 as <-.
    split; reflexivity. }
  split; [exact Hr|]. now rewrite <- Hfile.
Defined.

(** *** Names of snapshots *)

Section Snapshots.

Lemma matchesPattern_app (p1 p2 : list FileManager.Pat) :
  forall s1 s2 : string,
    FileManager.matchesPattern p1 s1 = true ->
    FileManager.matchesPattern p2 s2 = true ->
    FileManager.matchesPattern (p1 ++ p2) (s1 ++ s2) = true.
Proof.
  induction p1 as [|[|a] p1 IH]; intros [|c s1] s2;
    cbn [FileManager.matchesPattern app String.append];
    try discriminate; try (intros _ H; exact H).
  - intros [-> H]%andb_true_iff. cbn [andb]. now apply IH.
  - intros [-> H]%andb_true_iff. cbn [andb]. now apply IH.
Qed.

Lemma below (bound : nat) (P : N -> bool) (n : N) :
  forallb P (map N.of_nat (seq 0 bound)) = true ->
  (n < N.of_nat bound)%N -> P n = true.
Proof.
  intros Hall Hn. rewrite forallb_forall in Hall. apply Hall.
  apply in_map_iff. exists (N.to_nat n). split; [apply N2Nat.id|].
  apply in_seq. lia.
Qed.

Lemma pad2_digits (n : N) :
  (n < 100)%N ->
  FileManager.matchesPattern [FileManager.PDigit; FileManager.PDigit]
    (FileManager.pad2 n) = true.
Proof.
  apply (below 100
           (fun n => FileManager.matchesPattern
                       [FileManager.PDigit; FileManager.PDigit]
                       (FileManager.pad2 n))).
  vm_compute. reflexivity.
Qed.

Lemma year_digits (y : N) :
  (1000 <= y <= 9999)%N ->
  FileManager.matchesPattern
    [FileManager.PDigit; FileManager.PDigit; FileManager.PDigit;
     FileManager.PDigit] (pretty y) = true.
Proof.
  intros [Hlo Hhi].
  replace y with (1000 + (y - 1000))%N by lia.
  apply (below (90 * 100)
           (fun d => FileManager.matchesPattern
                       [FileManager.PDigit; FileManager.PDigit;
                        FileManager.PDigit; FileManager.PDigit]
                       (pretty (1000 + d)%N))); [|lia].
  vm_compute. reflexivity.
Qed.

Lemma separator (c : ascii) :
  FileManager.matchesPattern [FileManager.PChar c] (String c "") = true.
Proof. cbn. now rewrite Ascii.eqb_refl. Qed.

(** X14.  The name that [getTimestamp] gives to a snapshot, for a date
    of the calendar in a year of four digits, matches the pattern by
    which [listSnapshots] recognises snapshots. *)
Theorem new_snapshot_is_listed (now : FileManager.Date) :
  Invariant.ValidDate now ->
  FileManager.isSnapshotName (FileManager.getTimestamp now) = true.
Proof.
  intros (Hy & Hm & Hd & Hh & Hmin & Hs).
  unfold FileManager.isSnapshotName, FileManager.getTimestamp.
  change FileManager.snapshotPattern
    with ([FileManager.PDigit; FileManager.PDigit; FileManager.PDigit;
           FileManager.PDigit]
          ++ [FileManager.PChar "-"]
          ++ [FileManager.PDigit; FileManager.PDigit]
          ++ [FileManager.PChar "-"]
          ++ [FileManager.PDigit; FileManager.PDigit]
          ++ [FileManager.PChar "_"]
          ++ [FileManager.PDigit; FileManager.PDigit]
          ++ [FileManager.PChar "-"]
          ++ [FileManager.PDigit; FileManager.PDigit]
          ++ [FileManager.PChar "-"]
          ++ [FileManager.PDigit; FileManager.PDigit])%list.
  repeat (apply matchesPattern_app;
          [first [now apply year_digits | apply pad2_digits; lia
                 | apply separator]|]).
  apply pad2_digits; lia.
Qed.

Lemma snapshot_not_temp (entry : string) :
  FileManager.isSnapshotName entry = true -> CleanMode.isTemp entry = false.
Proof.
  destruct entry as [|c entry]; [discriminate|].
  unfold FileManager.isSnapshotName.
  cbn [FileManager.matchesPattern FileManager.snapshotPattern].
  intros [Hc _]%andb_true_iff.
  unfold CleanMode.isTemp, CleanMode.tempPrefixes.
  cbn [existsb String.prefix].
  destruct c as [[] [] [] [] [] [] [] []]; try discriminate Hc; reflexivity.
Qed.

(** X15.  The sweep of temporary files removes no entry that has the
    name of a snapshot: the snapshots listed after the sweep are those
    listed before it. *)
Theorem clean_keeps_snapshots (entries : list string) :
  FileManager.snapshotEntries (CleanMode.left entries)
    = FileManager.snapshotEntries entries
  /\ FileManager.snapshotEntries (CleanMode.removed entries) = [].
Proof.
  unfold FileManager.snapshotEntries, CleanMode.left, CleanMode.removed.
  induction entries as [|e entries [IH1 IH2]]; [now split|].
  cbn [List.filter].
  destruct (FileManager.isSnapshotName e) eqn:Hname.
  - rewrite (snapshot_not_temp e Hname). cbn [negb List.filter].
    rewrite Hname, IH1. now split.
  - destruct (CleanMode.isTemp e); cbn [negb List.filter];
      rewrite ?Hname; now split.
Qed.

End Snapshots.

Lemma new_snapshot_is_listed_witness :
  Invariant.ValidDate
    {| FileManager.fullYear := 2024; FileManager.month := 0;
       FileManager.date := 1; FileManager.hours := 0;
       FileManager.minutes := 0; FileManager.seconds := 0 |}
  /\ FileManager.getTimestamp
       {| FileManager.fullYear := 2024; FileManager.month := 0;
          FileManager.date := 1; FileManager.hours := 0;
          FileManager.minutes := 0; FileManager.seconds := 0 |}
     = "2024-01-01_00-00-00"
  /\ FileManager.isSnapshotName "2024-01-01_00-00-00" = true.
Proof.
  assert (Invariant.ValidDate
            {| FileManager.fullYear := 2024; FileManager.month := 0;
               FileManager.date := 1; FileManager.hours := 0;
               FileManager.minutes := 0; FileManager.seconds := 0 |}) as H
    by (unfold Invariant.ValidDate; cbn; lia).
  split; [exact H|]. split; [vm_compute; reflexivity|].
  exact (new_snapshot_is_listed _ H).
Defined.

(** *** The file name of an asset *)

Section AssetNames.

Variable parseURL : string -> option Url.URL.
Variable md5hex : string -> string.

Lemma safeChar_safe (c : ascii) :
  FileManager.safeChar (FileManager.safeChar c) = FileManager.safeChar c
  /\ Ascii.eqb (FileManager.safeChar c) "/" = false.
Proof. destruct c as [[] [] [] [] [] [] [] []]; split; reflexivity. Qed.

Lemma sanitize_safe (s : string) :
  FileManager.sanitize (FileManager.sanitize s) = FileManager.sanitize s
  /\ Spec.slashFree (FileManager.sanitize s) = true
  /\ (s <> "" -> FileManager.sanitize s <> "").
Proof.
  induction s as [|c s (IH1 & IH2 & _)]; [now repeat split|].
  cbn [FileManager.sanitize Spec.slashFree].
  destruct (safeChar_safe c) as [-> ->]. rewrite IH1, IH2.
  repeat split. discriminate.
Qed.

(** X16.  For an asset whose URL parses, the file name that
    [getAssetFilename] returns is not empty and holds only letters,
    digits, dots, underscores and hyphens, hence no path separator. *)
Theorem asset_filename_is_one_safe_segment (url mimeType : string)
    (u : Url.URL) :
  parseURL url = Some u ->
  Spec.isSegment (FileManager.getAssetFilename parseURL md5hex url mimeType)
  /\ FileManager.sanitize
       (FileManager.getAssetFilename parseURL md5hex url mimeType)
     = FileManager.getAssetFilename parseURL md5hex url mimeType.
Proof.
  intros Hu. unfold FileManager.getAssetFilename, Spec.isSegment. rewrite Hu.
  match goal with
  | |- context [FileManager.sanitize ?f] =>
      destruct (sanitize_safe f) as (Hidem & Hfree & Hne)
  end.
  split; [split|]; [|exact Hfree|exact Hidem].
  apply Hne.
  destruct (JS.truthy (Path.basename (Url.pathname u))) eqn:Ht;
    cbn [negb]; [|discriminate].
  unfold JS.truthy in Ht. intros E. now rewrite E in Ht.
Qed.

End AssetNames.

Lemma asset_filename_is_one_safe_segment_witness :
  exists u,
    Url.simpleParse "https://example.com/img/my logo (1).png" = Some u
    /\ FileManager.getAssetFilename Url.simpleParse Sample.plainHash
         "https://example.com/img/my logo (1).png" "image/png"
       = "my_logo__1_.png"
    /\ Spec.isSegment "my_logo__1_.png".
Proof.
  destruct (Url.simpleParse "https://example.com/img/my logo (1).png")
    as [u|] eqn:Hu; [|vm_compute in Hu; discriminate].
  exists u. split; [reflexivity|].
  assert (FileManager.getAssetFilename Url.simpleParse Sample.plainHash
            "https://example.com/img/my logo (1).png" "image/png"
          = "my_logo__1_.png") as Hname by (vm_compute; reflexivity).
  split; [exact Hname|]. rewrite <- Hname.
  exact (proj1 (asset_filename_is_one_safe_segment Url.simpleParse
                  Sample.plainHash "https://example.com/img/my logo (1).png"
                  "image/png" u Hu)).
Defined.

(** *** Counting the downloads *)

Section Downloads.

Variable parseURL : string -> option Url.URL.
Variable md5hex : string -> string.
Variable cwd : string.



End Downloads.

(** Two URLs that serve the same bytes are both counted as downloaded,
    and one file is stored. *)
Example two_downloads_one_file :
  let after :=
    CrawlMode.saveAll Url.simpleParse Sample.plainHash Sample.cwd
      [ ("https://example.com/files/a.png", Some (200, "PNG"));
        ("https://example.com/files/b.png", Some (200, "PNG"));
        ("https://example.com/files/c.png", Some (404, "Not Found")) ]
      Sample.fileManager 0 in
  snd after = 2
  /\ FileManager.assetCount (fst after) = 1
  /\ FileManager.writes (fst after)
     = ["/output/2024-01-01_00-00-00/files/a.png"].
Proof. vm_compute. repeat split. Qed.

(** ** Rewriting the paths of Drupal *)

Section DrupalPaths.

Lemma replaceAll_absent (pat rep s : string) :
  JS.includes pat s = false -> JS.replaceAll pat rep s = s.
Proof.
  unfold JS.replaceAll.
  induction s as [|c s IH]; [reflexivity|].
  cbn [JS.includes JS.replaceAll_from].
  intros [-> H]%orb_false_iff. now rewrite IH.
Qed.

Lemma replaceAll_skip (pat rep p s : string) :
  JS.replaceAll_from (String.length p) pat rep (p ++ s)
    = JS.replaceAll_from O pat rep s.
Proof.
  induction p as [|c p IH]; [reflexivity|].
  cbn [String.length String.append JS.replaceAll_from]. exact IH.
Qed.

Lemma replaceAll_head (c : ascii) (pat rep s : string) :
  JS.replaceAll (String c pat) rep (String c pat ++ s)
    = rep ++ JS.replaceAll (String c pat) rep s.
Proof.
  unfold JS.replaceAll. cbn [String.append JS.replaceAll_from].
  rewrite (proj2 (prefix_iff (String c pat) (String c (pat ++ s))))
    by (exists s; reflexivity).
  replace (String.length (String c pat) - 1)%nat with (String.length pat)
    by (cbn [String.length]; lia).
  f_equal. apply replaceAll_skip.
Qed.

(** X18.  A path under the files directory of Drupal is rewritten to
    the same path under [/files/], and a path in which that directory
    does not occur is left as it is. *)
Theorem drupal_prefix_becomes_files (rest : string) :
  JS.includes "/sites/default/files/" rest = false ->
  HtmlUtils.rewriteDrupalPaths ("/sites/default/files/" ++ rest)
    = "/files/" ++ rest
  /\ HtmlUtils.rewriteDrupalPaths rest = rest.
Proof.
  intros H. unfold HtmlUtils.rewriteDrupalPaths.
  rewrite (replaceAll_head "/" "sites/default/files/" "/files/" rest).
  rewrite (replaceAll_absent "/sites/default/files/" "/files/" rest H).
  split; reflexivity.
Qed.

End DrupalPaths.

Lemma drupal_prefix_becomes_files_witness :
  JS.includes "/sites/default/files/" "2023/logo.png" = false
  /\ HtmlUtils.rewriteDrupalPaths "/sites/default/files/2023/logo.png"
     = "/files/2023/logo.png".
Proof.
  assert (JS.includes "/sites/default/files/" "2023/logo.png" = false) as H
    by reflexivity.
  split; [exact H|].
  exact (proj1 (drupal_prefix_becomes_files "2023/logo.png" H)).
Defined.

(** ** The passes over the markup *)

Section MarkupPasses.
#[local] Open Scope list_scope.

Variable parseURL : string -> option Url.URL.

Lemma mapElements_compose
    (f g : list (string * string) -> list (string * string))
    (n : Dom.Node) :
  PostProcessor.mapElements f (PostProcessor.mapElements g n)
    = PostProcessor.mapElements (fun a => f (g a)) n.
Proof.
  induction n as [tag attrs children IH|data|data] using Node_forall_ind;
    [|reflexivity..].
  cbn [PostProcessor.mapElements]. f_equal.
  rewrite map_map. apply map_ext_Forall. exact IH.
Qed.

Lemma mapElements_ext
    (f g : list (string * string) -> list (string * string))
    (n : Dom.Node) :
  (forall a, f a = g a) ->
  PostProcessor.mapElements f n = PostProcessor.mapElements g n.
Proof.
  intros Hfg.
  induction n as [tag attrs children IH|data|data] using Node_forall_ind;
    [|reflexivity..].
  cbn [PostProcessor.mapElements]. rewrite Hfg. f_equal.
  apply map_ext_Forall. exact IH.
Qed.

Lemma mapElements_text (f : list (string * string) -> list (string * string))
    (n : Dom.Node) :
  Dom.text (PostProcessor.mapElements f n) = Dom.text n.
Proof.
  induction n as [tag attrs children IH|data|data] using Node_forall_ind;
    [|reflexivity..].
  cbn [PostProcessor.mapElements]. rewrite !text_element.
  induction IH as [|c children Hc _ IHchildren]; [reflexivity|].
  cbn [map]. rewrite !texts_cons. now rewrite Hc, IHchildren.
Qed.

Lemma removeAttrs_setAttr (names : list string) (name value : string)
    (attrs : list (string * string)) :
  name ∈ names ->
  Markup.removeAttrs names (PostProcessor.setAttr name value attrs)
    = Markup.removeAttrs names attrs.
Proof.
  intros Hin. unfold Markup.removeAttrs.
  induction attrs as [|[k v] attrs IH]; [reflexivity|].
  cbn [PostProcessor.setAttr].
  destruct (String.eqb k name) eqn:Hk.
  - apply String.eqb_eq in Hk as ->. cbn [List.filter fst].
    now rewrite bool_decide_eq_true_2 by exact Hin.
  - cbn [List.filter fst]. now rewrite IH.
Qed.

Lemma removeAttrs_rewriteAttr (siteDomain name : string)
    (attrs : list (string * string)) :
  name ∈ Invariant.urlAttributes ->
  Markup.removeAttrs Invariant.urlAttributes
    (PostProcessor.rewriteAttr parseURL siteDomain name attrs)
    = Markup.removeAttrs Invariant.urlAttributes attrs.
Proof.
  intros Hin. unfold PostProcessor.rewriteAttr.
  destruct (Dom.lookupAttr name attrs); [|reflexivity].
  destruct (_ && _); [|reflexivity].
  now apply removeAttrs_setAttr.
Qed.

Lemma removeAttrs_rewriteSrcset (siteDomain : string)
    (attrs : list (string * string)) :
  Markup.removeAttrs Invariant.urlAttributes
    (PostProcessor.rewriteSrcset parseURL siteDomain attrs)
    = Markup.removeAttrs Invariant.urlAttributes attrs.
Proof.
  unfold PostProcessor.rewriteSrcset.
  destruct (Dom.lookupAttr "srcset" attrs); [|reflexivity].
  destruct (JS.truthy _); [|reflexivity].
  apply removeAttrs_setAttr. unfold Invariant.urlAttributes.
  apply list_elem_of_further, list_elem_of_further, list_elem_of_here.
Qed.

(** X19.  [rewriteUrls] changes nothing but the values of the
    attributes [href], [src] and [srcset]: with these three taken away
    the document is the same before and after, and so is its text. *)
Theorem rewriteUrls_touches_urls_only (siteDomain : string)
    (doc : list Dom.Node) :
  Invariant.withoutUrls (PostProcessor.rewriteUrls parseURL siteDomain doc)
    = Invariant.withoutUrls doc
  /\ map Dom.text (PostProcessor.rewriteUrls parseURL siteDomain doc)
     = map Dom.text doc.
Proof.
  unfold Invariant.withoutUrls, PostProcessor.rewriteUrls. split.
  - rewrite !map_map. apply map_ext. intros n.
    rewrite !mapElements_compose. apply mapElements_ext. intros a.
    rewrite removeAttrs_rewriteSrcset.
    rewrite removeAttrs_rewriteAttr
      by apply list_elem_of_further, list_elem_of_here.
    apply removeAttrs_rewriteAttr, list_elem_of_here.
  - rewrite !map_map. apply map_ext. intros n.
    now rewrite !mapElements_text.
Qed.

(** *** Documents without flagged elements *)

Lemma anywhere_element (p : Dom.Node -> bool) (tag : string)
    (attrs : list (string * string)) (children : list Dom.Node) :
  Invariant.anywhere p (Dom.Element tag attrs children) = false ->
  p (Dom.Element tag attrs children) = false
  /\ Forall (fun c => Invariant.anywhere p c = false) children.
Proof.
  cbn [Invariant.anywhere]. intros [Hp Hc]%orb_false_iff.
  split; [exact Hp|]. apply Forall_forall. intros c Hin.
  destruct (Invariant.anywhere p c) eqn:Hany; [|reflexivity].
  rewrite <- Hc. symmetry. apply existsb_exists. exists c.
  split; [now apply list_elem_of_In|exact Hany].
Qed.

Lemma replaceWhere_absent (matches : Dom.Node -> bool)
    (block n : Dom.Node) :
  Invariant.anywhere matches n = false ->
  PostProcessor.replaceWhere matches block n = n.
Proof.
  induction n as [tag attrs children IH|data|data] using Node_forall_ind;
    [|reflexivity..].
  intros [Hp Hc]%anywhere_element.
  cbn [PostProcessor.replaceWhere]. rewrite Hp. f_equal.
  rewrite <- (map_id children) at 2. apply map_ext_Forall.
  apply Forall_forall. intros c Hin.
  apply (proj1 (Forall_forall _ _) IH c Hin).
  apply (proj1 (Forall_forall _ _) Hc c Hin).
Qed.

Lemma anywhere_weaken (p q : Dom.Node -> bool) (n : Dom.Node) :
  (forall m, q m = false -> p m = false) ->
  Invariant.anywhere q n = false -> Invariant.anywhere p n = false.
Proof.
  intros Hpq.
  induction n as [tag attrs children IH|data|data] using Node_forall_ind;
    cbn [Invariant.anywhere]; rewrite !orb_false_iff;
    [|intros [H _]; split; [now apply Hpq|reflexivity]..].
  intros [Hq Hc]. split; [now apply Hpq|].
  destruct (existsb (Invariant.anywhere p) children) eqn:Hex;
    [|reflexivity].
  apply existsb_exists in Hex as (c & Hin & Hany).
  apply list_elem_of_In in Hin.
  rewrite (proj1 (Forall_forall _ _) IH c Hin) in Hany; [discriminate|].
  destruct (Invariant.anywhere q c) eqn:Hqc; [|reflexivity].
  rewrite <- Hc. symmetry. apply existsb_exists. exists c.
  split; [now apply list_elem_of_In|exact Hqc].
Qed.

(** X20.  A document in which no element is flagged, at any depth, is
    left as it is by [replaceJatosForms]. *)
Theorem unflagged_documents_untouched (linkedinProfile : string)
    (doc : list Dom.Node) :
  Forall (fun n => Invariant.anywhere Invariant.flagged n = false) doc ->
  PostProcessor.replaceJatosForms linkedinProfile doc = doc.
Proof.
  intros Hdoc. unfold PostProcessor.replaceJatosForms.
  rewrite !map_map. rewrite <- (map_id doc) at 2.
  apply map_ext_Forall. eapply Forall_impl; [exact Hdoc|].
  intros n Hn. cbn beta.
  rewrite (replaceWhere_absent PostProcessor.iframeMatches).
  2:{ revert Hn. apply anywhere_weaken. unfold Invariant.flagged.
      intros m [[H _]%orb_false_iff _]%orb_false_iff. exact H. }
  rewrite (replaceWhere_absent PostProcessor.formMatches).
  2:{ revert Hn. apply anywhere_weaken. unfold Invariant.flagged.
      intros m [[_ H]%orb_false_iff _]%orb_false_iff. exact H. }
  apply replaceWhere_absent.
  revert Hn. apply anywhere_weaken. unfold Invariant.flagged.
  intros m [_ H]%orb_false_iff. exact H.
Qed.

End MarkupPasses.

Lemma unflagged_documents_untouched_witness :
  Forall (fun n => Invariant.anywhere Invariant.flagged n = false)
    [Spec.plug Sample.aroundIframe (Sample.anchor "/about")]
  /\ PostProcessor.replaceJatosForms "https://www.linkedin.com/in/someone"
       [Spec.plug Sample.aroundIframe (Sample.anchor "/about")]
     = [Spec.plug Sample.aroundIframe (Sample.anchor "/about")].
Proof.
  assert (Forall (fun n => Invariant.anywhere Invariant.flagged n = false)
            [Spec.plug Sample.aroundIframe (Sample.anchor "/about")]) as H
    by (apply Forall_singleton; vm_compute; reflexivity).
  split; [exact H|].
  exact (unflagged_documents_untouched "https://www.linkedin.com/in/someone"
           _ H).
Defined.

(** ** Sanitising and cleaning up *)

Section Sanitising.
#[local] Open Scope list_scope.

Variable isJavascriptType : string -> bool.

#[local] Abbreviation scriptMatches := (Markup.scriptMatches isJavascriptType).
#[local] Abbreviation sanitizeHtml := (Markup.sanitizeHtml isJavascriptType).

Lemma removeWhere_element (matches : Dom.Node -> bool) (tag : string)
    (attrs : list (string * string)) (children : list Dom.Node) :
  Markup.removeWhere matches (Dom.Element tag attrs children)
    = Dom.Element tag attrs (Markup.removeAll matches children).
Proof. reflexivity. Qed.

Lemma removeAll_cons (matches : Dom.Node -> bool) (c : Dom.Node)
    (l : list Dom.Node) :
  Markup.removeAll matches (c :: l)
    = if matches c then Markup.removeAll matches l
      else Markup.removeWhere matches c :: Markup.removeAll matches l.
Proof. reflexivity. Qed.


Lemma lookupAttr_removeAttrs (names : list string) (name : string)
    (attrs : list (string * string)) :
  Dom.lookupAttr name (Markup.removeAttrs names attrs)
    = if bool_decide (name ∈ names) then None
      else Dom.lookupAttr name attrs.
Proof.
  unfold Markup.removeAttrs.
  induction attrs as [|[k v] attrs IH];
    [now destruct (bool_decide _)|].
  cbn [List.filter fst Dom.lookupAttr].
  destruct (String.eqb k name) eqn:Hk.
  - apply String.eqb_eq in Hk as ->.
    case_bool_decide as Hin; cbn [negb]; [exact IH|].
    cbn [Dom.lookupAttr]. now rewrite String.eqb_refl.
  - destruct (bool_decide (k ∈ names)); cbn [negb]; [exact IH|].
    cbn [Dom.lookupAttr]. now rewrite Hk.
Qed.

(** A test that reads the tag and the attributes of an element only. *)
#[local] Abbreviation shallow :=
  (fun m : Dom.Node -> bool =>
     forall tag attrs c1 c2,
       m (Dom.Element tag attrs c1) = m (Dom.Element tag attrs c2)).

Lemma anywhere_cons (p : Dom.Node -> bool) (l : list Dom.Node) :
  Forall (fun c => Invariant.anywhere p c = false) l ->
  existsb (Invariant.anywhere p) l = false.
Proof.
  induction 1 as [|c l Hc _ IH]; [reflexivity|].
  cbn [existsb]. now rewrite Hc, IH.
Qed.

(** After [remove], no element of the selection is left, when the
    selector reads tags and attributes only. *)
Lemma removeWhere_none (m : Dom.Node -> bool) (n : Dom.Node) :
  shallow m -> m n = false ->
  Invariant.anywhere m (Markup.removeWhere m n) = false.
Proof.
  intros Hm.
  induction n as [tag attrs children IH|data|data] using Node_forall_ind;
    [|intros H; cbn; now rewrite H..].
  intros Hn. rewrite removeWhere_element. cbn [Invariant.anywhere].
  rewrite (Hm tag attrs _ children), Hn. cbn [orb].
  apply anywhere_cons. clear Hn.
  induction IH as [|c children Hc _ IHchildren]; [constructor|].
  rewrite removeAll_cons. destruct (m c) eqn:Hmc; [exact IHchildren|].
  constructor; [now apply Hc|exact IHchildren].
Qed.

Lemma removeAll_none (m : Dom.Node -> bool) (doc : list Dom.Node) :
  shallow m ->
  Forall (fun n => Invariant.anywhere m n = false) (Markup.removeAll m doc).
Proof.
  intros Hm. induction doc as [|c doc IH]; [constructor|].
  rewrite removeAll_cons. destruct (m c) eqn:Hmc; [exact IH|].
  constructor; [now apply removeWhere_none|exact IH].
Qed.

Lemma scriptMatches_shallow : shallow scriptMatches.
Proof. intros tag attrs c1 c2. reflexivity. Qed.

Lemma carries_removed (names : list string) (tag : string)
    (attrs : list (string * string)) (children : list Dom.Node) :
  Invariant.carries names
    (Dom.Element tag (Markup.removeAttrs names attrs) children) = false.
Proof.
  unfold Invariant.carries.
  destruct (existsb _ names) eqn:Hex; [|reflexivity].
  apply existsb_exists in Hex as (name & Hin & Hhas).
  unfold Markup.hasAttr in Hhas. cbn [Dom.attr] in Hhas.
  rewrite lookupAttr_removeAttrs in Hhas.
  rewrite bool_decide_eq_true_2 in Hhas by (now apply list_elem_of_In).
  discriminate.
Qed.

Lemma carries_leaf (names : list string) (n : Dom.Node) :
  (forall tag attrs children, n <> Dom.Element tag attrs children) ->
  Invariant.carries names n = false.
Proof.
  intros Hn. unfold Invariant.carries.
  induction names as [|name names IH]; [reflexivity|].
  cbn [existsb]. rewrite IH.
  destruct n as [tag attrs children|data|data]; [|reflexivity..].
  now destruct (Hn tag attrs children).
Qed.

(** Taking attributes away from all elements leaves none that carries
    one of them, and keeps out what was out already, if that reads
    other attributes only. *)
Lemma mapElements_removeAttrs (names : list string) (q : Dom.Node -> bool)
    (n : Dom.Node) :
  (forall tag attrs children,
     q (Dom.Element tag (Markup.removeAttrs names attrs) children)
       = q (Dom.Element tag attrs children)) ->
  shallow q ->
  Invariant.anywhere q n = false ->
  Invariant.anywhere (fun e => q e || Invariant.carries names e)
    (PostProcessor.mapElements (Markup.removeAttrs names) n) = false.
Proof.
  intros Hq Hshallow.
  induction n as [tag attrs children IH|data|data] using Node_forall_ind.
  - intros [Hn Hc]%anywhere_element.
    cbn [PostProcessor.mapElements Invariant.anywhere].
    rewrite Hq, (Hshallow tag attrs _ children), Hn, carries_removed.
    cbn [orb]. apply anywhere_cons, Forall_map.
    apply Forall_forall. intros c Hin.
    apply (proj1 (Forall_forall _ _) IH c Hin).
    apply (proj1 (Forall_forall _ _) Hc c Hin).
  - cbn [Invariant.anywhere PostProcessor.mapElements].
    rewrite !orb_false_r. intros ->. now apply carries_leaf.
  - cbn [Invariant.anywhere PostProcessor.mapElements].
    rewrite !orb_false_r. intros ->. now apply carries_leaf.
Qed.

Lemma scriptMatches_removeAttrs (tag : string)
    (attrs : list (string * string)) (children : list Dom.Node) :
  scriptMatches
    (Dom.Element tag (Markup.removeAttrs Markup.handlerAttributes attrs)
       children)
  = scriptMatches (Dom.Element tag attrs children).
Proof.
  unfold Markup.scriptMatches, Markup.hasAttr.
  cbn [Dom.isTag Dom.attr].
  now rewrite !lookupAttr_removeAttrs.
Qed.

(** X21.  After [sanitizeHtml] no element, at any depth, is a script
    that the selector of the function matches, and none carries an
    [onclick], [onerror] or [onload] attribute. *)
Theorem sanitizeHtml_removes_handlers_and_external_scripts
    (doc : list Dom.Node) :
  Forall
    (fun n =>
       Invariant.anywhere
         (fun e => scriptMatches e
                   || Invariant.carries Markup.handlerAttributes e) n
       = false)
    (sanitizeHtml doc).
Proof.
  unfold Markup.sanitizeHtml. apply Forall_map.
  eapply Forall_impl; [apply (removeAll_none scriptMatches doc),
                         scriptMatches_shallow|].
  intros n Hn. cbn beta.
  apply mapElements_removeAttrs;
    [apply scriptMatches_removeAttrs|apply scriptMatches_shallow|exact Hn].
Qed.


End Sanitising.


Section CleaningUp.
#[local] Open Scope list_scope.

Lemma texts_app (l1 l2 : list Dom.Node) :
  Dom.texts (l1 ++ l2) = (Dom.texts l1 ++ Dom.texts l2)%string.
Proof.
  induction l1 as [|c l1 IH]; [reflexivity|].
  cbn [app]. rewrite !texts_cons, IH. now rewrite append_assoc.
Qed.

Lemma texts_mapElements (f : list (string * string) -> list (string * string))
    (l : list Dom.Node) :
  Dom.texts (map (PostProcessor.mapElements f) l) = Dom.texts l.
Proof.
  induction l as [|c l IH]; [reflexivity|].
  cbn [map]. rewrite !texts_cons. now rewrite mapElements_text, IH.
Qed.

Lemma isEmpty_text (n : Dom.Node) :
  Markup.isEmpty n = true -> Dom.text n = "".
Proof.
  destruct n as [tag attrs children|data|data]; [|discriminate..].
  cbn [Markup.isEmpty]. rewrite text_element.
  induction children as [|c children IH]; [reflexivity|].
  cbn [forallb]. intros [Hc Hrest]%andb_true_iff.
  rewrite texts_cons, (IH Hrest).
  destruct c as [t a ch|data|data]; [discriminate| |reflexivity].
  apply String.eqb_eq in Hc as ->. reflexivity.
Qed.

(** Removing elements without text leaves the text as it was. *)
Lemma removeWhere_keeps_text (m : Dom.Node -> bool) (n : Dom.Node) :
  (forall c, m c = true -> Dom.text c = "") ->
  Dom.text (Markup.removeWhere m n) = Dom.text n.
Proof.
  intros Hm.
  induction n as [tag attrs children IH|data|data] using Node_forall_ind;
    [|reflexivity..].
  rewrite removeWhere_element, !text_element.
  induction IH as [|c children Hc _ IHchildren]; [reflexivity|].
  rewrite removeAll_cons, texts_cons.
  destruct (m c) eqn:Hmc.
  - rewrite (Hm c Hmc). exact IHchildren.
  - rewrite texts_cons. now rewrite Hc, IHchildren.
Qed.

Lemma removeAll_keeps_text (m : Dom.Node -> bool) (l : list Dom.Node) :
  (forall c, m c = true -> Dom.text c = "") ->
  Dom.texts (Markup.removeAll m l) = Dom.texts l.
Proof.
  intros Hm. induction l as [|c l IH]; [reflexivity|].
  rewrite removeAll_cons, texts_cons.
  destruct (m c) eqn:Hmc.
  - rewrite (Hm c Hmc). exact IH.
  - rewrite texts_cons. now rewrite removeWhere_keeps_text, IH.
Qed.

Lemma empty_block_text (tag : string) (c : Dom.Node) :
  Dom.isTag tag c && Markup.isEmpty c = true -> Dom.text c = "".
Proof. intros [_ H]%andb_true_iff. now apply isEmpty_text. Qed.

(** X23.  [cleanupHtml] leaves the text of the document as it was, and
    afterwards no element, at any depth, carries an [align], [valign]
    or [bgcolor] attribute. *)
Theorem cleanupHtml_keeps_text_and_drops_layout (doc : list Dom.Node) :
  Dom.texts (Markup.cleanupHtml doc) = Dom.texts doc
  /\ Forall
       (fun n =>
          Invariant.anywhere (Invariant.carries Markup.layoutAttributes) n
          = false)
       (Markup.cleanupHtml doc).
Proof.
  unfold Markup.cleanupHtml. split.
  - rewrite texts_mapElements.
    rewrite (removeAll_keeps_text Markup.emptyDiv)
      by (apply empty_block_text).
    apply removeAll_keeps_text, empty_block_text.
  - apply Forall_map, Forall_forall. intros n _. cbn beta.
    apply (anywhere_weaken _
             (fun e => false || Invariant.carries Markup.layoutAttributes e));
      [intros e He; exact He|].
    apply (mapElements_removeAttrs Markup.layoutAttributes (fun _ => false));
      [reflexivity|reflexivity|].
    induction n as [tag attrs children IH|data|data] using Node_forall_ind;
      [|reflexivity..].
    cbn [Invariant.anywhere orb]. now apply anywhere_cons.
Qed.

(** *** Comments *)

Lemma comments_mapElements
    (f : list (string * string) -> list (string * string)) (n : Dom.Node) :
  Invariant.comments (PostProcessor.mapElements f n)
    = Invariant.comments n.
Proof.
  induction n as [tag attrs children IH|data|data] using Node_forall_ind;
    [|reflexivity..].
  cbn [PostProcessor.mapElements Invariant.comments].
  induction IH as [|c children Hc _ IHchildren]; [reflexivity|].
  cbn [map flat_map]. now rewrite Hc, IHchildren.
Qed.

Lemma anywhere_root (p : Dom.Node -> bool) (n : Dom.Node) :
  Invariant.anywhere p n = false -> p n = false.
Proof.
  destruct n; cbn [Invariant.anywhere]; now intros [H _]%orb_false_iff.
Qed.

Lemma empty_block_comments (c : Dom.Node) :
  Markup.emptyParagraph c = true \/ Markup.emptyDiv c = true ->
  Invariant.blockWithComment c = false ->
  Invariant.comments c = [].
Proof.
  unfold Markup.emptyParagraph, Markup.emptyDiv.
  destruct c as [tag attrs children|data|data];
    [|intros [H|H]; discriminate..].
  cbn [Dom.isTag Markup.isEmpty Invariant.blockWithComment
       Invariant.comments].
  intros Htag Hblock.
  assert (existsb Invariant.isComment children = false
          /\ forallb
               (fun c => match c with
                         | Dom.Element _ _ _ => false
                         | Dom.Text data => String.eqb data ""
                         | Dom.Comment _ => true
                         end) children = true) as [Hnone Hall].
  { destruct Htag as [[Ht He]%andb_true_iff|[Ht He]%andb_true_iff];
      rewrite Ht in Hblock; rewrite ?orb_true_r in Hblock;
      cbn [orb andb] in Hblock; now split. }
  clear Htag Hblock.
  induction children as [|c children IH]; [reflexivity|].
  cbn [existsb forallb flat_map] in *.
  apply orb_false_iff in Hnone as [Hc Hnone].
  apply andb_true_iff in Hall as [Hc' Hall].
  rewrite (IH Hnone Hall).
  destruct c as [t a ch|data|data]; [discriminate|reflexivity|discriminate].
Qed.

(** A pass of [remove] that takes away elements without comments keeps
    all the comments. *)
Lemma removeWhere_keeps_comments (m : Dom.Node -> bool) (n : Dom.Node) :
  (forall c, m c = true -> Invariant.blockWithComment c = false ->
             Invariant.comments c = []) ->
  Invariant.anywhere Invariant.blockWithComment n = false ->
  Invariant.comments (Markup.removeWhere m n) = Invariant.comments n.
Proof.
  intros Hm.
  induction n as [tag attrs children IH|data|data] using Node_forall_ind;
    [|reflexivity..].
  intros [_ Hc]%anywhere_element.
  rewrite removeWhere_element. cbn [Invariant.comments].
  induction IH as [|c children IHc _ IHchildren]; [reflexivity|].
  apply Forall_cons in Hc as [Hc Hrest].
  rewrite removeAll_cons. cbn [flat_map].
  destruct (m c) eqn:Hmc.
  - rewrite (Hm c Hmc (anywhere_root _ _ Hc)). cbn [app].
    now apply IHchildren.
  - cbn [flat_map]. rewrite (IHc Hc). now rewrite (IHchildren Hrest).
Qed.

Lemma removeAll_keeps_comments (m : Dom.Node -> bool) (l : list Dom.Node) :
  (forall c, m c = true -> Invariant.blockWithComment c = false ->
             Invariant.comments c = []) ->
  Forall (fun n => Invariant.anywhere Invariant.blockWithComment n = false)
    l ->
  flat_map Invariant.comments (Markup.removeAll m l)
    = flat_map Invariant.comments l.
Proof.
  intros Hm. induction 1 as [|c l Hc _ IH]; [reflexivity|].
  rewrite removeAll_cons. cbn [flat_map].
  destruct (m c) eqn:Hmc.
  - now rewrite (Hm c Hmc (anywhere_root _ _ Hc)).
  - cbn [flat_map]. now rewrite removeWhere_keeps_comments, IH.
Qed.

Lemma isComment_removeAll (m : Dom.Node -> bool) (l : list Dom.Node) :
  existsb Invariant.isComment l = false ->
  existsb Invariant.isComment (Markup.removeAll m l) = false.
Proof.
  induction l as [|c l IH]; [reflexivity|].
  cbn [existsb]. intros [Hc Hl]%orb_false_iff.
  rewrite removeAll_cons. destruct (m c); [now apply IH|].
  cbn [existsb]. rewrite (IH Hl).
  destruct c; [reflexivity|reflexivity|discriminate].
Qed.

(** A pass of [remove] puts no comment into a paragraph or a [div]. *)
Lemma removeWhere_no_block_with_comment (m : Dom.Node -> bool)
    (n : Dom.Node) :
  Invariant.anywhere Invariant.blockWithComment n = false ->
  Invariant.anywhere Invariant.blockWithComment (Markup.removeWhere m n)
    = false.
Proof.
  induction n as [tag attrs children IH|data|data] using Node_forall_ind;
    [|intros H; exact H..].
  intros [Hn Hc]%anywhere_element.
  rewrite removeWhere_element. cbn [Invariant.anywhere].
  apply orb_false_iff. split.
  - cbn [Invariant.blockWithComment] in *.
    apply andb_false_iff in Hn as [Hn|Hn];
      apply andb_false_iff; [now left|right].
    now apply isComment_removeAll.
  - apply anywhere_cons. clear Hn.
    induction IH as [|c children IHc _ IHchildren]; [constructor|].
    apply Forall_cons in Hc as [Hc Hrest].
    rewrite removeAll_cons. destruct (m c); [now apply IHchildren|].
    constructor; [now apply IHc|now apply IHchildren].
Qed.

Lemma removeAll_no_block_with_comment (m : Dom.Node -> bool)
    (l : list Dom.Node) :
  Forall (fun n => Invariant.anywhere Invariant.blockWithComment n = false)
    l ->
  Forall (fun n => Invariant.anywhere Invariant.blockWithComment n = false)
    (Markup.removeAll m l).
Proof.
  induction 1 as [|c l Hc _ IH]; [constructor|].
  rewrite removeAll_cons. destruct (m c); [exact IH|].
  constructor; [now apply removeWhere_no_block_with_comment|exact IH].
Qed.

(** X24.  [cleanupHtml] keeps every comment of a document in which no
    comment is the child of a paragraph or of a [div]: the statement
    meant to remove comments visits elements only. *)
Theorem cleanupHtml_keeps_comments (doc : list Dom.Node) :
  Forall (fun n => Invariant.anywhere Invariant.blockWithComment n = false)
    doc ->
  flat_map Invariant.comments (Markup.cleanupHtml doc)
    = flat_map Invariant.comments doc.
Proof.
  intros Hdoc. unfold Markup.cleanupHtml.
  assert (forall l,
            flat_map Invariant.comments
              (map (PostProcessor.mapElements
                      (Markup.removeAttrs Markup.layoutAttributes)) l)
            = flat_map Invariant.comments l) as ->.
  { induction l as [|c l IH]; [reflexivity|].
    cbn [map flat_map]. now rewrite comments_mapElements, IH. }
  rewrite (removeAll_keeps_comments Markup.emptyDiv).
  - apply (removeAll_keeps_comments Markup.emptyParagraph); [|exact Hdoc].
    intros c Hc. apply empty_block_comments. now left.
  - intros c Hc. apply empty_block_comments. now right.
  - now apply removeAll_no_block_with_comment.
Qed.

End CleaningUp.

Lemma cleanupHtml_keeps_comments_witness :
  Forall (fun n => Invariant.anywhere Invariant.blockWithComment n = false)
    [Dom.Element "body" [("bgcolor", "white")]
       [Dom.Comment "generated by Drupal";
        Dom.Element "div" [] [Dom.Element "p" [] []];
        Dom.Element "p" [("align", "center")] [Dom.Text "Welcome"]]]
  /\ Markup.cleanupHtml
       [Dom.Element "body" [("bgcolor", "white")]
          [Dom.Comment "generated by Drupal";
           Dom.Element "div" [] [Dom.Element "p" [] []];
           Dom.Element "p" [("align", "center")] [Dom.Text "Welcome"]]]
     = [Dom.Element "body" []
          [Dom.Comment "generated by Drupal";
           Dom.Element "p" [] [Dom.Text "Welcome"]]]
  /\ flat_map Invariant.comments
       (Markup.cleanupHtml
          [Dom.Element "body" [("bgcolor", "white")]
             [Dom.Comment "generated by Drupal";
              Dom.Element "div" [] [Dom.Element "p" [] []];
              Dom.Element "p" [("align", "center")] [Dom.Text "Welcome"]]])
     = ["generated by Drupal"].
Proof.
  assert (Forall
            (fun n =>
               Invariant.anywhere Invariant.blockWithComment n = false)
            [Dom.Element "body" [("bgcolor", "white")]
               [Dom.Comment "generated by Drupal";
                Dom.Element "div" [] [Dom.Element "p" [] []];
                Dom.Element "p" [("align", "center")] [Dom.Text "Welcome"]]])
    as H by (apply Forall_singleton; vm_compute; reflexivity).
  split; [exact H|]. split; [vm_compute; reflexivity|].
  exact (cleanupHtml_keeps_comments _ H).
Defined.

(** ** Links to files *)

Section BinaryLinks.

Lemma extensionHere_listed (ext : string) :
  JS.toLowerCase ext ∈ Crawler.binaryExtensions ->
  Crawler.extensionHere ("." ++ ext) = true.
Proof.
  intros Hin. unfold Crawler.extensionHere.
  apply existsb_exists. exists (JS.toLowerCase ext).
  split; [now apply list_elem_of_In|].
  apply orb_true_iff. left.
  change ("." ++ ext) with (String "." ext).
  cbn [JS.toLowerCase].
  change (JS.lowerChar ".") with "."%char.
  apply String.eqb_refl.
Qed.

Lemma isBinaryExtension_here (s : string) :
  Crawler.extensionHere s = true -> Crawler.isBinaryExtension s = true.
Proof. intros H. destruct s; cbn [Crawler.isBinaryExtension]; now rewrite H. Qed.

Lemma isBinaryExtension_later (c : ascii) (s : string) :
  Crawler.isBinaryExtension s = true ->
  Crawler.isBinaryExtension (String c s) = true.
Proof.
  intros H. cbn [Crawler.isBinaryExtension]. rewrite H. apply orb_true_r.
Qed.

Lemma lowerChar_dot (c : ascii) : JS.lowerChar c = "."%char -> c = "."%char.
Proof.
  destruct c as [[] [] [] [] [] [] [] []]; vm_compute; intros H;
    try reflexivity; discriminate.
Qed.

Lemma extensionHere_dot (s : string) :
  Crawler.extensionHere s = true -> exists rest, s = String "." rest.
Proof.
  unfold Crawler.extensionHere. intros H.
  apply existsb_exists in H as (ext & _ & H).
  destruct s as [|c s].
  - apply orb_true_iff in H as [H|H]; [discriminate|].
    apply andb_true_iff in H as [H _]. discriminate.
  - assert (JS.lowerChar c = "."%char) as Hc.
    { cbn [JS.toLowerCase] in H.
      apply orb_true_iff in H as [H|H].
      - apply String.eqb_eq in H. now injection H.
      - apply andb_true_iff in H as [H _].
        cbn [String.append] in H. apply prefix_cons in H as [H _].
        now symmetry. }
    apply lowerChar_dot in Hc as ->. now exists s.
Qed.

(** X25.  A path that ends in a dot and one of the listed extensions,
    in any letter case, is taken for a binary file, whatever precedes
    the dot. *)
Theorem binary_links_by_extension (path ext : string) :
  JS.toLowerCase ext ∈ Crawler.binaryExtensions ->
  Crawler.isBinaryExtension (path ++ "." ++ ext) = true.
Proof.
  intros Hin. induction path as [|c path IH].
  - apply isBinaryExtension_here, extensionHere_listed, Hin.
  - cbn [String.append]. apply isBinaryExtension_later, IH.
Qed.

(** X26.  A path without a dot is never taken for a binary file by its
    extension. *)
Theorem no_dot_no_binary_link (path : string) :
  JS.includes "." path = false -> Crawler.isBinaryExtension path = false.
Proof.
  induction path as [|c path IH]; intros Hdot.
  - reflexivity.
  - cbn [JS.includes] in Hdot. apply orb_false_iff in Hdot as [Hhere Hrest].
    cbn [Crawler.isBinaryExtension]. rewrite (IH Hrest), orb_false_r.
    destruct (Crawler.extensionHere (String c path)) eqn:He; [|reflexivity].
    apply extensionHere_dot in He as [rest [= -> _]].
    rewrite (proj2 (prefix_iff "." (String "." path))) in Hhere
      by (exists path; reflexivity).
    discriminate.
Qed.

End BinaryLinks.

Lemma binary_links_by_extension_witness :
  JS.toLowerCase "PDF" ∈ Crawler.binaryExtensions
  /\ Crawler.isBinaryExtension "/sites/default/files/Report.PDF" = true.
Proof.
  assert (JS.toLowerCase "PDF" ∈ Crawler.binaryExtensions) as H
    by (apply list_elem_of_In; vm_compute; tauto).
  split; [exact H|].
  exact (binary_links_by_extension "/sites/default/files/Report" "PDF" H).
Defined.

Lemma no_dot_no_binary_link_witness :
  JS.includes "." "/node/42" = false
  /\ Crawler.isBinaryExtension "/node/42" = false.
Proof.
  assert (JS.includes "." "/node/42" = false) as H by reflexivity.
  split; [exact H|exact (no_dot_no_binary_link "/node/42" H)].
Defined.

(** ** The start page *)

Section StartPage.
#[local] Open Scope list_scope.

Variable parseURL : string -> option Url.URL.
Variable resolveURL : string -> string -> option string.
Variable cheerioSelect : string -> string -> list Dom.Node.
Variable httpGet : list Crawler.Event -> string -> Crawler.NetResult.
Variable config : gmap string JS.JSVal.

#[local] Abbreviation iteration :=
  (Crawler.iteration parseURL resolveURL cheerioSelect httpGet config).
#[local] Abbreviation loop :=
  (Crawler.loop parseURL resolveURL cheerioSelect httpGet config).
#[local] Abbreviation crawl :=
  (Crawler.crawl parseURL resolveURL cheerioSelect httpGet config).
#[local] Abbreviation seed := (Config.getSiteUrl config ++ "/")%string.

#[local] Abbreviation Started :=
  (fun st : Crawler.State =>
     exists rest tail,
       Crawler.visitedUrls st = seed :: rest
       /\ Crawler.log st
          = Crawler.EVisit seed :: Crawler.EGet seed :: tail).

Lemma retryTrace_head (url : string) (attempt : Z) (k : nat) :
  exists tail, Spec.retryTrace url attempt k = Crawler.EGet url :: tail.
Proof. destruct k; cbn [Spec.retryTrace]; now eexists. Qed.

Lemma never_too_deep_at_0 :
  Crawler.gt (Config.num config "maxDepth") (Some 0)
  && Crawler.gt (Some 0) (Config.num config "maxDepth") = false.
Proof.
  unfold Crawler.gt, Config.lt.
  destruct (Config.num config "maxDepth") as [d|]; [|reflexivity].
  destruct (Z.ltb_spec 0 d), (Z.ltb_spec d 0); try reflexivity. lia.
Qed.

(** The first turn of the loop visits and requests the start URL. *)
Lemma first_iteration (st1 : Crawler.State) (n1 : Z) :
  iteration (Crawler.seeded config) 0 = Some (st1, n1) -> Started st1.
Proof.
  intros Hit.
  destruct (iteration_cases parseURL resolveURL cheerioSelect httpGet config
              (Crawler.seeded config) st1 0 n1 seed [] eq_refl Hit)
    as [[-> ->]|(_ & _ & _ & page & k & st3 & _ & -> & Hst1)].
  - exfalso. revert Hit. unfold Crawler.iteration.
    rewrite seeded_eq.
    cbn [Crawler.queuedUrls Crawler.set_queuedUrls Crawler.set_urlDepthMap].
    unfold Crawler.getDepthForUrl.
    cbn [Crawler.urlDepthMap Crawler.set_queuedUrls Crawler.set_urlDepthMap].
    rewrite lookup_insert_eq. cbn [default]. unfold id.
    rewrite never_too_deep_at_0.
    cbn [Crawler.visitedUrls Crawler.set_queuedUrls Crawler.set_urlDepthMap
         Crawler.initial].
    unfold Crawler.has.
    rewrite bool_decide_eq_false_2 by apply not_elem_of_nil.
    destruct (Crawler.fetchPage _ _ _ _ _) as [[page l]|]; [|discriminate].
    intros [= _ Hn].
  - destruct (retryTrace_head seed 0 k) as [tail Htail].
    assert (Started
              (Crawler.dispatch parseURL resolveURL cheerioSelect config seed
                 (Crawler.getDepthForUrl seed (Crawler.seeded config)) page
                 (Crawler.set_log
                    (Crawler.log (Crawler.seeded config)
                       ++ Crawler.EVisit seed :: Spec.retryTrace seed 0 k)
                    (Crawler.set_visitedUrls
                       (Crawler.visitedUrls (Crawler.seeded config) ++ [seed])
                       (Crawler.set_queuedUrls
                          (Crawler.delete seed [seed])
                          (Crawler.seeded config)))))) as Hst3.
    { exists [], tail. rewrite dispatch_visitedUrls, dispatch_log.
      cbn [Crawler.visitedUrls Crawler.log Crawler.set_log
           Crawler.set_visitedUrls Crawler.set_queuedUrls].
      rewrite seeded_eq, Htail. split; reflexivity. }
    destruct Hst1 as [->|[d ->]]; [exact Hst3|].
    destruct Hst3 as (rest & tl & Hv & Hl).
    exists rest, (tl ++ [Crawler.ESleep d]).
    unfold Crawler.emit.
    cbn [Crawler.visitedUrls Crawler.log Crawler.set_log].
    rewrite Hv, Hl. split; reflexivity.
Qed.

Lemma iteration_Started (st st' : Crawler.State) (n n' : Z) :
  Crawler.queuedUrls st <> [] ->
  iteration st n = Some (st', n') ->
  Started st -> Started st'.
Proof.
  intros Hne Hit (rest & tail & Hv & Hl).
  destruct (iteration_effect parseURL resolveURL cheerioSelect httpGet config
              st st' n n' Hne Hit)
    as [(Hlog & Hvis & _ & _)
       |(url & k & tl & _ & _ & Hlog & _ & Hvis & _)].
  - exists rest, tail. now rewrite Hlog, Hvis.
  - exists (rest ++ [url]),
      (tail ++ Crawler.EVisit url :: Spec.retryTrace url 0 k ++ tl).
    rewrite Hlog, Hvis, Hv, Hl. split; reflexivity.
Qed.

(** X27.  With a positive page cap, a crawl begins by visiting and
    requesting the start URL, which stays the first of the visited
    URLs. *)
Theorem start_page_requested_first (fuel : nat) (res : Crawler.CrawlResult)
    (st : Crawler.State) (m : Z) :
  Config.num config "maxPages" = Some m -> 0 < m ->
  crawl fuel = Some (res, st) ->
  exists rest tail,
    Crawler.visitedUrls st = (Config.getSiteUrl config ++ "/")%string :: rest
    /\ Crawler.log st
       = Crawler.EVisit (Config.getSiteUrl config ++ "/")%string
           :: Crawler.EGet (Config.getSiteUrl config ++ "/")%string :: tail.
Proof.
  intros Hm Hpos Hcrawl.
  apply crawl_loop in Hcrawl as [_ [n Hloop]].
  destruct fuel as [|fuel]; cbn [Crawler.loop] in Hloop;
    rewrite seeded_eq in Hloop;
    cbn [Crawler.queuedUrls Crawler.set_queuedUrls Crawler.set_urlDepthMap]
      in Hloop;
    rewrite Hm in Hloop; unfold Config.lt in Hloop;
    rewrite (proj2 (Z.ltb_lt 0 m) Hpos) in Hloop; [discriminate|].
  rewrite <- seeded_eq in Hloop.
  destruct (iteration (Crawler.seeded config) 0) as [[st1 n1]|] eqn:Hit;
    [|discriminate].
  apply (loop_invariant parseURL resolveURL cheerioSelect httpGet config
           (fun s _ => Started s)
           ltac:(intros s k s' k' Hne _ Hstep;
                 now apply (iteration_Started s s' k k'))
           fuel st1 n1 st n Hloop).
  now apply (first_iteration st1 n1).
Qed.

End StartPage.

Lemma start_page_requested_first_witness :
  exists res st,
    Config.num Sample.linkedConfig "maxPages" = Some 10000
    /\ Crawler.crawl Url.simpleParse Sample.absoluteOnly Sample.cycleSelect
         Sample.cycleSite Sample.linkedConfig 5 = Some (res, st)
    /\ exists rest tail,
         Crawler.visitedUrls st = Sample.pageA :: rest
         /\ Crawler.log st
            = Crawler.EVisit Sample.pageA :: Crawler.EGet Sample.pageA
                :: tail.
Proof.
  destruct (Crawler.crawl Url.simpleParse Sample.absoluteOnly
              Sample.cycleSelect Sample.cycleSite Sample.linkedConfig 5)
    as [[res st]|] eqn:H; [|vm_compute in H; discriminate].
  exists res, st.
  assert (Config.num Sample.linkedConfig "maxPages" = Some 10000) as Hm
    by (vm_compute; reflexivity).
  split; [exact Hm|]. split; [reflexivity|].
  exact (start_page_requested_first Url.simpleParse Sample.absoluteOnly
           Sample.cycleSelect Sample.cycleSite Sample.linkedConfig 5 res st
           10000 Hm ltac:(lia) H).
Defined.
